(** * The Ray client data servicer (python/ray/util/client/server/dataservicer.py)

    A shallow embedding of [DataServicer]: admission ([_init]), the dispatch
    loop and the teardown block of [Datapath], together with the helpers
    [_get_reconnecting_from_context] and [_should_cache].

    Python objects of the servicer are explicit state: the registry
    dictionaries become finite maps, the per-client response caches live in a
    store of objects addressed by reference (the handler keeps a reference to
    its cache while the registry entry may be deleted under it), and the
    generator's observable actions (responses yielded, backend capabilities
    invoked, lock operations, the grace-period wait, the backend shutdown)
    are recorded in a trace. *)

From stdpp Require Import gmap strings list.
From Stdlib Require Import ZArith Lia.

Local Open Scope string_scope.
Local Open Scope list_scope.
Local Open Scope Z_scope.

(** ** Messages *)

(** [grpc.StatusCode] members set by the servicer. *)
Inductive StatusCode : Type :=
| RESOURCE_EXHAUSTED
| NOT_FOUND
| FAILED_PRECONDITION.

(** The gRPC servicer context of one connection: the invocation metadata
    (a sequence of key/value pairs) and what [set_code] / [set_details]
    stored. *)
Record Context : Type := mkContext {
  invocation_metadata : list (string * string);
  code : option StatusCode;
  details : option string
}.

Definition set_code (c : StatusCode) (ctx : Context) : Context :=
  {| invocation_metadata := invocation_metadata ctx;
     code := Some c;
     details := details ctx |}.

Definition set_details (d : string) (ctx : Context) : Context :=
  {| invocation_metadata := invocation_metadata ctx;
     code := code ctx;
     details := Some d |}.

(** [{k: v for k, v in context.invocation_metadata()}]: a later pair with the
    same key overwrites an earlier one. *)
Definition metadata_dict (md : list (string * string)) : gmap string string :=
  fold_left (fun m kv => <[kv.1 := kv.2]> m) md ∅.

(** The [type] oneof of [DataRequest].  [Unset] is a request with no field of
    the oneof set ([WhichOneof] returns [None]); [OtherType] stands for a
    field of the oneof that [Datapath] has no branch for. *)
Inductive RequestType : Type :=
| req_init (reconnect_grace_period : Z) (job_config : string)
| req_get (asynchronous : bool) (ids : list string)
| req_put (data : string)
| req_release (ids : list string)
| req_connection_info
| req_prep_runtime_env (env : string)
| req_connection_cleanup
| req_acknowledge (ack_req_id : Z)
| OtherType (name : string)
| Unset.

Record DataRequest : Type := mkReq {
  req_id : Z;
  type : RequestType
}.

(** [req.WhichOneof("type")]. *)
Definition WhichOneof (req : DataRequest) : option string :=
  match type req with
  | req_init _ _ => Some "init"
  | req_get _ _ => Some "get"
  | req_put _ => Some "put"
  | req_release _ => Some "release"
  | req_connection_info => Some "connection_info"
  | req_prep_runtime_env _ => Some "prep_runtime_env"
  | req_connection_cleanup => Some "connection_cleanup"
  | req_acknowledge _ => Some "acknowledge"
  | OtherType n => Some n
  | Unset => None
  end.

(** Fields of the request's sub-messages; a sub-message that is not the one
    set reads as the default message (zero, false, empty). *)
Definition init_reconnect_grace_period (req : DataRequest) : Z :=
  match type req with req_init g _ => g | _ => 0 end.

Definition init_job_config (req : DataRequest) : string :=
  match type req with req_init _ j => j | _ => "" end.

Definition get_asynchronous (req : DataRequest) : bool :=
  match type req with req_get a _ => a | _ => false end.

Definition get_ids (req : DataRequest) : list string :=
  match type req with req_get _ l => l | _ => [] end.

Definition put_data (req : DataRequest) : string :=
  match type req with req_put d => d | _ => "" end.

Definition release_ids (req : DataRequest) : list string :=
  match type req with req_release l => l | _ => [] end.

Definition prep_runtime_env_env (req : DataRequest) : string :=
  match type req with req_prep_runtime_env e => e | _ => "" end.

Definition acknowledge_req_id (req : DataRequest) : Z :=
  match type req with req_acknowledge i => i | _ => 0 end.

(** The payload of a [DataResponse]; the backend's answers are opaque
    strings. *)
Inductive ResponseBody : Type :=
| init_resp (r : string)
| get_resp (r : string)
| put_resp (r : string)
| release_resp (ok : list bool)
| connection_info_resp (num_clients : Z)
| prep_runtime_env_resp (r : string)
| connection_cleanup_resp
| empty_resp.

Record DataResponse : Type := mkResp {
  resp_req_id : Z;
  body : ResponseBody
}.

(** What the dispatch loop takes from [request_queue]: a request pushed by
    [fill_queue], or a finished response pushed by an asynchronous get. *)
Inductive QueueItem : Type :=
| QRequest (req : DataRequest)
| QResponse (resp : DataResponse).

(** Exceptions ([Exception] instances) seen by [Datapath]. *)
Inductive Fault : Type :=
| UnreachableCode (req_type : option string)
| ServiceFault (msg : string).

(** The result of a call that may raise. *)
Inductive Outcome (A : Type) : Type :=
| Returned (a : A)
| Raised (e : Fault).
Arguments Returned {A} a.
Arguments Raised {A} e.

(** ** Helpers at module level *)

(** [_get_reconnecting_from_context]: [True] only for the metadata value
    ["True"]; a missing or malformed value is logged and read as [False]. *)
Definition _get_reconnecting_from_context (ctx : Context) : bool :=
  match metadata_dict (invocation_metadata ctx) !! "reconnecting" with
  | None => false
  | Some val =>
      if negb (bool_decide (val = "True") || bool_decide (val = "False"))
      then false
      else bool_decide (val = "True")
  end.

(** [_should_cache]: every request type but acknowledge, connection_cleanup
    and get. *)
Definition _should_cache (req : DataRequest) : bool :=
  negb (bool_decide (WhichOneof req ∈
          [Some "acknowledge"; Some "connection_cleanup"; Some "get"])).

Definition QUEUE_JOIN_SECONDS : Z := 10.

(** [fill_queue]: every request read from the input stream is put on the
    queue; whether the stream ends or raises [grpc.RpcError], the sentinel
    [None] is put last. *)
Definition fill_queue (grpc_input : list DataRequest) (rpc_error : bool)
  : list (option QueueItem) :=
  (((fun r => Some (QRequest r)) <$> grpc_input) ++ [None])%list.

(** [iter(request_queue.get, None)]: the items up to the first sentinel. *)
Fixpoint iter_until_sentinel (q : list (option QueueItem)) : list QueueItem :=
  match q with
  | Some it :: q' => it :: iter_until_sentinel q'
  | _ => []
  end.

(** ** The ordered response cache *)

(** Modelled from the spec: [OrderedResponseCache] is imported from
    [ray.util.client.common], a module outside this development.  The
    cache maps request ids to stored responses; once invalidated it keeps the
    triggering fault and reports it for every id. *)
Record OrderedResponseCache : Type := mkCache {
  entries : gmap Z DataResponse;
  broken : option Fault
}.

(** The three answers of [check_cache] that [Datapath] tells apart:
    [None], a stored response, an [Exception] instance. *)
Inductive CacheLookup : Type :=
| CacheAbsent
| CacheHit (resp : DataResponse)
| CacheFailure (e : Fault).

Definition empty_cache : OrderedResponseCache :=
  {| entries := ∅; broken := None |}.

(** Modelled from the spec: [check_cache(req_id)] returns a previously cached
    response if present, a recorded failure, or "absent". *)
Definition check_cache (c : OrderedResponseCache) (id : Z) : CacheLookup :=
  match broken c with
  | Some e => CacheFailure e
  | None =>
      match entries c !! id with
      | Some r => CacheHit r
      | None => CacheAbsent
      end
  end.

(** Modelled from the spec: [update_cache(req_id, response)] stores the
    response if none is stored for that id and is a no-op otherwise. *)
Definition update_cache (c : OrderedResponseCache) (id : Z) (r : DataResponse)
  : OrderedResponseCache :=
  match entries c !! id with
  | Some _ => c
  | None => {| entries := <[id := r]> (entries c); broken := broken c |}
  end.

(** Modelled from the spec: [cleanup(req_id)] removes the entry of an
    acknowledged request id and is a no-op if there is none. *)
Definition cleanup (c : OrderedResponseCache) (id : Z) : OrderedResponseCache :=
  {| entries := delete id (entries c); broken := broken c |}.

(** Modelled from the spec: [invalidate(error)] marks the cache permanently
    broken, recording the triggering error.  Its boolean result says that the
    cache refused to record the error; when it refuses is not described, so
    the decision is the argument [refuses]. *)
Definition invalidate (refuses : OrderedResponseCache -> Fault -> bool)
    (c : OrderedResponseCache) (e : Fault) : OrderedResponseCache * bool :=
  if refuses c e then (c, true)
  else ({| entries := entries c; broken := Some e |}, false).

(** ** State of the servicer *)

(** The dictionaries and the counter guarded by [clients_lock].  Time stamps
    are clock readings ([time.time()]), grace periods are the [init]
    message's integer field; [response_caches] maps a client id to the
    reference of its cache object. *)
Record Registry : Type := mkRegistry {
  num_clients : Z;
  client_last_seen : gmap string Z;
  reconnect_grace_periods : gmap string Z;
  response_caches : gmap string nat
}.

(** Backend capabilities, as the trace names them. *)
Inductive BackendCall : Type :=
| CallInit
| CallGetObject (client_id : string)
| CallAsyncGetObject (client_id : string) (id : Z)
| CallPutObject (client_id : string)
| CallRelease (client_id : string) (rel_id : string)
| CallReleaseAll (client_id : string)
| CallPrepRuntimeEnv.

(** Observable actions of a run of the handler.  [EShutdown] records whether
    [clients_lock] was held and the value of [num_clients] at the moment
    [ray.shutdown()] was called. *)
Inductive Event : Type :=
| EYield (resp : DataResponse)
| EBackend (call : BackendCall)
| ECheckCache (id : Z)
| EUpdateCache (id : Z)
| ECleanupCache (id : Z)
| EInvalidate (e : Fault)
| EAcquire
| ERelease
| EJoin (timeout : Z)
| EWait (timeout : Z)
| EShutdown (lock_held : bool) (clients : Z).

(** The capabilities of [basic_service] (a [RayletServicer]) over an opaque
    backend state: each returns a response or raises.  [release_all] and
    [ray.shutdown()] are taken to return normally. *)
Record RayletServicer (Backend : Type) : Type := mkService {
  Init : Z -> string -> Backend -> Outcome string * Backend;
  _get_object : list string -> string -> Backend -> Outcome string * Backend;
  _async_get_object :
    list string -> string -> Z -> Backend -> Outcome (option string) * Backend;
  _put_object : string -> string -> Backend -> Outcome string * Backend;
  release : string -> string -> Backend -> Outcome bool * Backend;
  release_all : string -> Backend -> Backend;
  PrepRuntimeEnv : string -> Backend -> Outcome string * Backend;
  ray_shutdown : Backend -> Backend
}.
Arguments Init {Backend} _ _ _ _.
Arguments _get_object {Backend} _ _ _ _.
Arguments _async_get_object {Backend} _ _ _ _ _.
Arguments _put_object {Backend} _ _ _ _.
Arguments release {Backend} _ _ _ _.
Arguments release_all {Backend} _ _ _.
Arguments PrepRuntimeEnv {Backend} _ _ _.
Arguments ray_shutdown {Backend} _ _.

(** Everything a run of [Datapath] reads or writes: the shared registry, the
    store of cache objects, the backend, the lock, this connection's context
    and the two flags local to the handler, the trace, and the number of
    points passed at which other connections may have run. *)
Record World (Backend : Type) : Type := mkWorld {
  registry : Registry;
  objects : list OrderedResponseCache;
  backend : Backend;
  clients_lock : bool;
  context : Context;
  cleanup_requested : bool;
  reconnect_enabled : bool;
  trace : list Event;
  ticks : nat
}.
Arguments mkWorld {Backend} _ _ _ _ _ _ _ _ _.
Arguments registry {Backend} _.
Arguments objects {Backend} _.
Arguments backend {Backend} _.
Arguments clients_lock {Backend} _.
Arguments context {Backend} _.
Arguments cleanup_requested {Backend} _.
Arguments reconnect_enabled {Backend} _.
Arguments trace {Backend} _.
Arguments ticks {Backend} _.

Section Servicer.

Variable Backend : Type.
Variable basic_service : RayletServicer Backend.

(** [CLIENT_SERVER_MAX_THREADS] of [ray.util.client.common], an
    integer-valued setting. *)
Variable CLIENT_SERVER_MAX_THREADS : Z.

(** [_propagate_error_in_context] of [ray.util.client.common]: whether the
    fault is recoverable, and the context it leaves. *)
Variable _propagate_error_in_context : Fault -> Context -> bool * Context.

(** When [OrderedResponseCache.invalidate] refuses to record a fault. *)
Variable cache_refuses : OrderedResponseCache -> Fault -> bool.

(** What the handlers of other connections did to the registry by the
    [n]-th point at which this handler next looks at shared state (it waits
    for the lock, or reads a dictionary without it). *)
Variable other_connections : nat -> Registry -> Registry.

Local Abbreviation W := (World Backend).

(** *** A state monad with exceptions *)

Definition M (A : Type) : Type := W -> Outcome A * W.

Definition ret {A} (a : A) : M A := fun w => (Returned a, w).

Definition bind {A B} (m : M A) (k : A -> M B) : M B :=
  fun w =>
    match m w with
    | (Returned a, w') => k a w'
    | (Raised e, w') => (Raised e, w')
    end.

Definition raise {A} (e : Fault) : M A := fun w => (Raised e, w).

(** [try: body / finally: fin], for a [fin] that does not raise. *)
Definition finally {A} (body : M A) (fin : M unit) : M A :=
  fun w =>
    match body w with
    | (r, w') => (r, snd (fin w'))
    end.

(** [try: body / except Exception as e: handler e]. *)
Definition try_except (body : M unit) (handler : Fault -> M unit) : M unit :=
  fun w =>
    match body w with
    | (Returned a, w') => (Returned a, w')
    | (Raised e, w') => handler e w'
    end.

Definition gets {A} (f : W -> A) : M A := fun w => (Returned (f w), w).
Definition modify (f : W -> W) : M unit := fun w => (Returned tt, f w).

Local Notation "x <- m ;; k" := (bind m (fun x => k))
  (at level 100, m at next level, right associativity).
Local Notation "m ;;; k" := (bind m (fun _ => k))
  (at level 100, right associativity).

(** *** Primitive actions *)

Definition set_registry (r : Registry) (w : W) : W :=
  mkWorld r (objects w) (backend w) (clients_lock w) (context w)
          (cleanup_requested w) (reconnect_enabled w) (trace w) (ticks w).

Definition set_objects (h : list OrderedResponseCache) (w : W) : W :=
  mkWorld (registry w) h (backend w) (clients_lock w) (context w)
          (cleanup_requested w) (reconnect_enabled w) (trace w) (ticks w).

Definition set_backend (b : Backend) (w : W) : W :=
  mkWorld (registry w) (objects w) b (clients_lock w) (context w)
          (cleanup_requested w) (reconnect_enabled w) (trace w) (ticks w).

Definition set_clients_lock (l : bool) (w : W) : W :=
  mkWorld (registry w) (objects w) (backend w) l (context w)
          (cleanup_requested w) (reconnect_enabled w) (trace w) (ticks w).

Definition set_context (c : Context) (w : W) : W :=
  mkWorld (registry w) (objects w) (backend w) (clients_lock w) c
          (cleanup_requested w) (reconnect_enabled w) (trace w) (ticks w).

Definition set_cleanup_requested (f : bool) (w : W) : W :=
  mkWorld (registry w) (objects w) (backend w) (clients_lock w) (context w)
          f (reconnect_enabled w) (trace w) (ticks w).

Definition set_reconnect_enabled (f : bool) (w : W) : W :=
  mkWorld (registry w) (objects w) (backend w) (clients_lock w) (context w)
          (cleanup_requested w) f (trace w) (ticks w).

Definition log_event (e : Event) (w : W) : W :=
  mkWorld (registry w) (objects w) (backend w) (clients_lock w) (context w)
          (cleanup_requested w) (reconnect_enabled w) (trace w ++ [e]) (ticks w).

Definition emit (e : Event) : M unit := modify (log_event e).

(** Other connections run up to the next look at shared state. *)
Definition interleave : M unit :=
  modify (fun w =>
    mkWorld (other_connections (ticks w) (registry w)) (objects w) (backend w)
            (clients_lock w) (context w) (cleanup_requested w)
            (reconnect_enabled w) (trace w) (S (ticks w))).

Definition acquire : M unit :=
  interleave ;;; modify (set_clients_lock true) ;;; emit EAcquire.

Definition release_lock : M unit :=
  modify (set_clients_lock false) ;;; emit ERelease.

(** [with self.clients_lock: body]: the lock is released however the body
    ends. *)
Definition with_clients_lock {A} (body : M A) : M A :=
  acquire ;;; finally body release_lock.

(** A call of a capability of [basic_service]. *)
Definition call_backend {A} (c : BackendCall)
    (f : Backend -> Outcome A * Backend) : M A :=
  emit (EBackend c) ;;;
  (fun w => let '(r, b) := f (backend w) in (r, set_backend b w)).

Definition context_set_code (c : StatusCode) : M unit :=
  modify (fun w => set_context (set_code c (context w)) w).

Definition context_set_details (d : string) : M unit :=
  modify (fun w => set_context (set_details d (context w)) w).

(** *** [DataServicer._init] *)

(** [int(CLIENT_SERVER_MAX_THREADS / 2)]: [int] truncates toward zero. *)
Definition threshold : Z := Z.quot CLIENT_SERVER_MAX_THREADS 2.

Definition incr_num_clients (r : Registry) : Registry :=
  mkRegistry (num_clients r + 1) (client_last_seen r)
             (reconnect_grace_periods r) (response_caches r).

Definition set_last_seen (client_id : string) (t : Z) (r : Registry) : Registry :=
  mkRegistry (num_clients r) (<[client_id := t]> (client_last_seen r))
             (reconnect_grace_periods r) (response_caches r).

Definition _init_locked (client_id : string) (start_time : Z) : M bool :=
  ctx <- gets context ;;
  let reconnecting := _get_reconnecting_from_context ctx in
  r <- gets registry ;;
  if bool_decide (num_clients r >= threshold) then
    context_set_code RESOURCE_EXHAUSTED ;;;
    ret false
  else if reconnecting && negb (bool_decide (is_Some (client_last_seen r !! client_id))) then
    context_set_code NOT_FOUND ;;;
    context_set_details
      "Attempted to reconnect to a session that has already been cleaned up." ;;;
    ret false
  else
    (if bool_decide (is_Some (client_last_seen r !! client_id)) then ret tt
     else modify (fun w => set_registry (incr_num_clients (registry w)) w)) ;;;
    modify (fun w => set_registry (set_last_seen client_id start_time (registry w)) w) ;;;
    ret true.

Definition _init (client_id : string) (start_time : Z) : M bool :=
  with_clients_lock (_init_locked client_id start_time).

(** [_build_connection_response]: the counter is read under the lock. *)
Definition _build_connection_response : M ResponseBody :=
  n <- with_clients_lock (gets (fun w => num_clients (registry w))) ;;
  ret (connection_info_resp n).

(** *** The dispatch loop of [Datapath] *)

(** [self.response_caches[client_id]] on the [defaultdict]: a missing key
    gets a new, empty cache object.  The dictionary is read without the
    lock. *)
Definition set_response_cache (client_id : string) (l : nat) (r : Registry)
  : Registry :=
  mkRegistry (num_clients r) (client_last_seen r) (reconnect_grace_periods r)
             (<[client_id := l]> (response_caches r)).

Definition get_response_cache (client_id : string) : M nat :=
  interleave ;;;
  r <- gets registry ;;
  match response_caches r !! client_id with
  | Some l => ret l
  | None =>
      h <- gets objects ;;
      let l := length h in
      modify (set_objects (h ++ [empty_cache])) ;;;
      modify (fun w => set_registry (set_response_cache client_id l (registry w)) w) ;;;
      ret l
  end.

(** The cache object behind the reference [rc]. *)
Definition deref (rc : nat) (w : W) : OrderedResponseCache :=
  default empty_cache (objects w !! rc).

Definition assign (rc : nat) (c : OrderedResponseCache) : M unit :=
  modify (fun w => set_objects (<[rc := c]> (objects w)) w).

Definition set_grace_period (client_id : string) (g : Z) (r : Registry)
  : Registry :=
  mkRegistry (num_clients r) (client_last_seen r)
             (<[client_id := g]> (reconnect_grace_periods r))
             (response_caches r).

(** [for rel_id in req.release.ids: released.append(release(client_id, rel_id))] *)
Fixpoint release_each (client_id : string) (ids : list string) : M (list bool) :=
  match ids with
  | [] => ret []
  | rel_id :: ids' =>
      rel <- call_backend (CallRelease client_id rel_id)
               (release basic_service client_id rel_id) ;;
      released <- release_each client_id ids' ;;
      ret (rel :: released)
  end.

(** The [if req_type == ...] chain.  [None] is a [continue] that sends no
    response for this request. *)
Definition dispatch (client_id : string) (rc : nat) (req : DataRequest)
  : M (option ResponseBody) :=
  let req_type := WhichOneof req in
  if bool_decide (req_type = Some "init") then
    resp_init <- call_backend CallInit
                   (Init basic_service (init_reconnect_grace_period req)
                         (init_job_config req)) ;;
    with_clients_lock (
      modify (fun w => set_registry
                (set_grace_period client_id (init_reconnect_grace_period req)
                                  (registry w)) w) ;;;
      if bool_decide (init_reconnect_grace_period req = 0)
      then modify (set_reconnect_enabled false)
      else ret tt) ;;;
    ret (Some (init_resp resp_init))
  else if bool_decide (req_type = Some "get") then
    if get_asynchronous req then
      get_r <- call_backend (CallAsyncGetObject client_id (req_id req))
                 (_async_get_object basic_service (get_ids req) client_id
                                    (req_id req)) ;;
      match get_r with
      | None => ret None
      | Some g => ret (Some (get_resp g))
      end
    else
      get_r <- call_backend (CallGetObject client_id)
                 (_get_object basic_service (get_ids req) client_id) ;;
      ret (Some (get_resp get_r))
  else if bool_decide (req_type = Some "put") then
    put_r <- call_backend (CallPutObject client_id)
               (_put_object basic_service (put_data req) client_id) ;;
    ret (Some (put_resp put_r))
  else if bool_decide (req_type = Some "release") then
    released <- release_each client_id (release_ids req) ;;
    ret (Some (release_resp released))
  else if bool_decide (req_type = Some "connection_info") then
    info <- _build_connection_response ;;
    ret (Some info)
  else if bool_decide (req_type = Some "prep_runtime_env") then
    resp_prep <- with_clients_lock
                   (call_backend CallPrepRuntimeEnv
                      (PrepRuntimeEnv basic_service (prep_runtime_env_env req))) ;;
    ret (Some (prep_runtime_env_resp resp_prep))
  else if bool_decide (req_type = Some "connection_cleanup") then
    modify (set_cleanup_requested true) ;;;
    ret (Some connection_cleanup_resp)
  else if bool_decide (req_type = Some "acknowledge") then
    emit (ECleanupCache (acknowledge_req_id req)) ;;;
    c <- gets (deref rc) ;;
    assign rc (cleanup c (acknowledge_req_id req)) ;;;
    ret None
  else
    raise (UnreachableCode req_type).

(** One iteration of the [for req in iter(request_queue.get, None)] loop. *)
Definition handle_item (client_id : string) (rc : nat) (item : QueueItem)
  : M unit :=
  match item with
  | QResponse resp => emit (EYield resp)
  | QRequest req =>
      enabled <- gets reconnect_enabled ;;
      replayed <-
        (if _should_cache req && enabled then
           emit (ECheckCache (req_id req)) ;;;
           c <- gets (deref rc) ;;
           match check_cache c (req_id req) with
           | CacheFailure e => raise e
           | CacheHit cached_resp => emit (EYield cached_resp) ;;; ret true
           | CacheAbsent => ret false
           end
         else ret false) ;;
      if (replayed : bool) then ret tt
      else
        resp_body <- dispatch client_id rc req ;;
        match resp_body with
        | None => ret tt
        | Some b =>
            let resp := mkResp (req_id req) b in
            enabled' <- gets reconnect_enabled ;;
            (if _should_cache req && enabled' then
               emit (EUpdateCache (req_id req)) ;;;
               c <- gets (deref rc) ;;
               assign rc (update_cache c (req_id req) resp)
             else ret tt) ;;;
            emit (EYield resp)
        end
  end.

Fixpoint dispatch_loop (client_id : string) (rc : nat) (items : list QueueItem)
  : M unit :=
  match items with
  | [] => ret tt
  | item :: items' =>
      handle_item client_id rc item ;;;
      dispatch_loop client_id rc items'
  end.

(** The [except Exception as e] block. *)
Definition on_exception (rc : nat) (e : Fault) : M unit :=
  ctx <- gets context ;;
  let '(recoverable, ctx') := _propagate_error_in_context e ctx in
  modify (set_context ctx') ;;;
  emit (EInvalidate e) ;;;
  c <- gets (deref rc) ;;
  let '(c', invalid_cache) := invalidate cache_refuses c e in
  assign rc c' ;;;
  if negb recoverable || invalid_cache then
    context_set_code FAILED_PRECONDITION ;;;
    modify (set_cleanup_requested true)
  else ret tt.

(** *** The [finally] block of [Datapath] *)

(** The three [del] statements and the decrement. *)
Definition remove_client (client_id : string) (r : Registry) : Registry :=
  mkRegistry (num_clients r - 1)
             (delete client_id (client_last_seen r))
             (delete client_id (reconnect_grace_periods r))
             (delete client_id (response_caches r)).

(** The body of the last [with self.clients_lock:] block. *)
Definition teardown_locked (client_id : string) (start_time : Z) : M unit :=
  r <- gets registry ;;
  match client_last_seen r !! client_id with
  | None => ret tt
  | Some last_seen =>
      if bool_decide (last_seen > start_time) then ret tt
      else
        call_backend (CallReleaseAll client_id)
          (fun b => (Returned tt, release_all basic_service client_id b)) ;;;
        modify (fun w => set_registry (remove_client client_id (registry w)) w) ;;;
        n <- gets (fun w => num_clients (registry w)) ;;
        if bool_decide (n = 0) then
          l <- gets clients_lock ;;
          emit (EShutdown l n) ;;;
          modify (fun w => set_backend (ray_shutdown basic_service (backend w)) w)
        else ret tt
  end.

Definition teardown (client_id : string) (start_time : Z) : M unit :=
  emit (EJoin QUEUE_JOIN_SECONDS) ;;;
  interleave ;;;
  r <- gets registry ;;
  requested <- gets cleanup_requested ;;
  match reconnect_grace_periods r !! client_id with
  | Some cleanup_delay =>
      if negb requested then emit (EWait cleanup_delay) else ret tt
  | None => ret tt
  end ;;;
  with_clients_lock (teardown_locked client_id start_time).

(** *** [DataServicer.Datapath] *)

(** [request_queue] lists what the queue hands to the loop, in order: the
    requests put by [fill_queue], the responses put by asynchronous gets,
    and the sentinel. *)
Definition Datapath (request_queue : list (option QueueItem)) (start_time : Z)
  : M unit :=
  modify (set_cleanup_requested false) ;;;
  ctx <- gets context ;;
  match metadata_dict (invocation_metadata ctx) !! "client_id" with
  | None => ret tt
  | Some client_id =>
      accepted_connection <- _init client_id start_time ;;
      response_cache <- get_response_cache client_id ;;
      modify (set_reconnect_enabled true) ;;;
      if negb accepted_connection then ret tt
      else
        finally
          (try_except
             (dispatch_loop client_id response_cache
                            (iter_until_sentinel request_queue))
             (on_exception response_cache))
          (teardown client_id start_time)
  end.

End Servicer.

Arguments ret {Backend A} a _.
Arguments bind {Backend A B} m k _.
Arguments raise {Backend A} e _.
Arguments finally {Backend A} body fin _.
Arguments try_except {Backend} body handler _.
Arguments gets {Backend A} f _.
Arguments modify {Backend} f _.
Arguments emit {Backend} e _.
Arguments log_event {Backend} e w.
Arguments deref {Backend} rc w.
Arguments assign {Backend} rc c _.

(** ** Sample runs *)

Module Sample.

(** A backend that counts the calls it served. *)
Definition service : RayletServicer nat :=
  {| Init := fun _ _ b => (Returned "ok", S b);
     _get_object := fun _ _ b => (Returned "object", S b);
     _async_get_object := fun _ _ _ b => (Returned None, S b);
     _put_object := fun d _ b => (Returned d, S b);
     release := fun _ _ b => (Returned true, S b);
     release_all := fun _ b => S b;
     PrepRuntimeEnv := fun _ b => (Returned "env", S b);
     ray_shutdown := fun _ => O |}.

Definition propagate (e : Fault) (ctx : Context) : bool * Context :=
  (match e with ServiceFault _ => true | UnreachableCode _ => false end, ctx).

Definition never_refuses (_ : OrderedResponseCache) (_ : Fault) : bool := false.

Definition alone (_ : nat) (r : Registry) : Registry := r.

Definition empty_registry : Registry := mkRegistry 0 ∅ ∅ ∅.

Definition ctx_of (md : list (string * string)) : Context := mkContext md None None.

Definition world (r : Registry) (md : list (string * string)) : World nat :=
  mkWorld r [] O false (ctx_of md) false true [] O.

(** A first connection of client [c1] to an idle server. *)
Definition fresh : World nat := world empty_registry [("client_id", "c1")].

(** A server on which [c1] has a session: last seen at time 5, grace period
    30, cache object number 0. *)
Definition known : Registry :=
  mkRegistry 1 {["c1" := 5]} {["c1" := 30]} {["c1" := 0%nat]}.

(** [c1] coming back, with the reconnecting flag. *)
Definition returning : World nat :=
  mkWorld known [empty_cache] O false
          (ctx_of [("client_id", "c1"); ("reconnecting", "True")])
          false true [] O.

(** The dispatch loop of [c1] at work. *)
Definition serving : World nat :=
  mkWorld known [empty_cache] O false (ctx_of [("client_id", "c1")])
          false true [] O.

(** A connection whose metadata names no client. *)
Definition anonymous : World nat := world empty_registry [("reconnecting", "False")].

(** Another connection of [c1] was accepted at time 99 while this one was
    in its grace period (the third look at shared state is the one after
    the wait). *)
Definition reconnects (n : nat) (r : Registry) : Registry :=
  match n with
  | 3%nat => mkRegistry (num_clients r) (<["c1" := 99]> (client_last_seen r))
                        (reconnect_grace_periods r) (response_caches r)
  | _ => r
  end.

End Sample.

(** * Properties *)

Section Properties.

Variable Backend : Type.
Variable basic_service : RayletServicer Backend.
Variable CLIENT_SERVER_MAX_THREADS : Z.
Variable _propagate_error_in_context : Fault -> Context -> bool * Context.
Variable cache_refuses : OrderedResponseCache -> Fault -> bool.
Variable other_connections : nat -> Registry -> Registry.

Local Abbreviation W := (World Backend).
Local Abbreviation thr := (threshold CLIENT_SERVER_MAX_THREADS).
Local Abbreviation init_ :=
  (_init Backend CLIENT_SERVER_MAX_THREADS other_connections).
Local Abbreviation release_each_ := (release_each Backend basic_service).
Local Abbreviation dispatch_ := (dispatch Backend basic_service other_connections).
Local Abbreviation handle_item_ :=
  (handle_item Backend basic_service other_connections).
Local Abbreviation dispatch_loop_ :=
  (dispatch_loop Backend basic_service other_connections).
Local Abbreviation on_exception_ :=
  (on_exception Backend _propagate_error_in_context cache_refuses).
Local Abbreviation teardown_locked_ := (teardown_locked Backend basic_service).
Local Abbreviation teardown_ :=
  (teardown Backend basic_service other_connections).
Local Abbreviation get_response_cache_ :=
  (get_response_cache Backend other_connections).
Local Abbreviation Datapath_ :=
  (Datapath Backend basic_service CLIENT_SERVER_MAX_THREADS
            _propagate_error_in_context cache_refuses other_connections).

(** The registry as this handler finds it at its next look at shared
    state. *)
Definition seen (w : W) : Registry := other_connections (ticks w) (registry w).

(** The events a step from [w] to [w'] added to the trace. *)
Definition new_events (w w' : W) : list Event :=
  drop (length (trace w)) (trace w').

Lemma new_events_app (w w' : W) (evs : list Event) :
  trace w' = trace w ++ evs -> new_events w w' = evs.
Proof. intros E. unfold new_events. rewrite E. apply drop_app_length. Qed.

(** Events of the dispatch loop; [cached] tells whether looking into the
    cache and storing into it count among them. *)
Definition loop_event (cached : bool) (e : Event) : bool :=
  match e with
  | EYield _ | EBackend _ | ECleanupCache _ | EInvalidate _
  | EAcquire | ERelease => true
  | ECheckCache _ | EUpdateCache _ => cached
  | EJoin _ | EWait _ | EShutdown _ _ => false
  end.

(** A step that adds only loop events, and that keeps reconnection (hence
    caching) disabled when [off] asks for it. *)
Definition loop_step (off cached : bool) {A} (m : M Backend A) (w : W) : Prop :=
  (off = true -> reconnect_enabled w = false) ->
  (off = true -> reconnect_enabled (snd (m w)) = false) /\
  exists evs, trace (snd (m w)) = trace w ++ evs /\
              Forall (fun e => loop_event cached e = true) evs.

(** The world once [clients_lock] is taken from [w], and once it is given
    back. *)
Definition locked (w : W) : W :=
  log_event EAcquire
    (set_clients_lock Backend true
       (mkWorld (seen w) (objects w) (backend w) (clients_lock w) (context w)
                (cleanup_requested w) (reconnect_enabled w) (trace w)
                (S (ticks w)))).

Definition unlocked (w : W) : W :=
  log_event ERelease (set_clients_lock Backend false w).

(** The world in which the [finally] block asks for the lock: the thread
    was joined, the grace period read and, unless cleanup was requested or
    no grace period is on record, waited for. *)
Definition before_lock (client_id : string) (w : W) : W :=
  let w1 := mkWorld (seen w) (objects w) (backend w) (clients_lock w)
                    (context w) (cleanup_requested w) (reconnect_enabled w)
                    (trace w ++ [EJoin QUEUE_JOIN_SECONDS]) (S (ticks w)) in
  match reconnect_grace_periods (seen w) !! client_id with
  | Some cleanup_delay =>
      if negb (cleanup_requested w) then log_event (EWait cleanup_delay) w1
      else w1
  | None => w1
  end.

(** The release of the client's resources and the removal of its entries. *)
Definition cleaned (client_id : string) (w : W) : W :=
  set_registry Backend (remove_client client_id (registry w))
    (set_backend Backend (release_all basic_service client_id (backend w))
       (log_event (EBackend (CallReleaseAll client_id)) w)).

Definition is_shutdown (e : Event) : bool :=
  match e with EShutdown _ _ => true | _ => false end.


(** Notions used by the further properties at the end of this section. *)

(** [DataServicer.__init__]: no client, and empty dictionaries. *)
Definition __init__ : Registry := mkRegistry 0 ∅ ∅ ∅.

(** The counter of clients is the number of session entries. *)
Definition counter_matches_sessions (r : Registry) : Prop :=
  num_clients r = Z.of_nat (size (client_last_seen r)).

(** The request id an item of the queue carries. *)
Definition item_id (item : QueueItem) : Z :=
  match item with
  | QRequest req => req_id req
  | QResponse resp => resp_req_id resp
  end.

(** The responses among the events, in the order they were yielded. *)
Definition yields (evs : list Event) : list DataResponse :=
  omap (fun e => match e with EYield resp => Some resp | _ => None end) evs.

(** Every stored response carries the request id it is stored under. *)
Definition well_keyed (c : OrderedResponseCache) : Prop :=
  forall id resp, entries c !! id = Some resp -> resp_req_id resp = id.

(** Events of the [if req_type == ...] chain. *)
Definition dispatch_event (e : Event) : bool :=
  match e with
  | EBackend _ | ECleanupCache _ | EAcquire | ERelease => true
  | _ => false
  end.

(** The world once other connections ran up to this handler's next look at
    shared state. *)
Definition interleaved (w : W) : W :=
  mkWorld (seen w) (objects w) (backend w) (clients_lock w) (context w)
          (cleanup_requested w) (reconnect_enabled w) (trace w) (S (ticks w)).

(** The single state changes that the dispatch loop and the [except] block
    of the connection of [client_id], holding the cache object [rc], can
    make; [allowed] tells which events they may add. *)
Inductive touch (allowed : Event -> bool) (client_id : string) (rc : nat)
  : W -> W -> Prop :=
| touch_event e w :
    allowed e = true -> touch allowed client_id rc w (log_event e w)
| touch_interleave w :
    touch allowed client_id rc w (interleaved w)
| touch_lock l w :
    touch allowed client_id rc w (set_clients_lock Backend l w)
| touch_backend b w :
    touch allowed client_id rc w (set_backend Backend b w)
| touch_context c w :
    touch allowed client_id rc w (set_context Backend c w)
| touch_cleanup_requested w :
    touch allowed client_id rc w (set_cleanup_requested Backend true w)
| touch_reconnect_disabled w :
    touch allowed client_id rc w (set_reconnect_enabled Backend false w)
| touch_grace_period g w :
    touch allowed client_id rc w
      (set_registry Backend (set_grace_period client_id g (registry w)) w)
| touch_cache_cleanup id w :
    touch allowed client_id rc w
      (set_objects Backend (<[rc := cleanup (deref rc w) id]> (objects w)) w)
| touch_cache_update id b w :
    touch allowed client_id rc w
      (set_objects Backend
         (<[rc := update_cache (deref rc w) id (mkResp id b)]> (objects w)) w)
| touch_cache_invalidate refuses e w :
    touch allowed client_id rc w
      (set_objects Backend
         (<[rc := fst (invalidate refuses (deref rc w) e)]> (objects w))
         w).

(** The run of [m] from [w] is a sequence of such state changes. *)
Definition reaches (allowed : Event -> bool) (client_id : string) (rc : nat)
    {A} (m : M Backend A) (w : W) : Prop :=
  rtc (touch allowed client_id rc) w (snd (m w)).

(** Two registries that differ at most in the grace period of
    [client_id]. *)
Definition same_sessions (client_id : string) (r r' : Registry) : Prop :=
  num_clients r' = num_clients r /\
  client_last_seen r' = client_last_seen r /\
  response_caches r' = response_caches r /\
  forall k, k <> client_id ->
    reconnect_grace_periods r' !! k = reconnect_grace_periods r !! k.

(** The two events of [clients_lock]. *)
Definition lock_event (e : Event) : bool :=
  match e with EAcquire | ERelease => true | _ => false end.

(** The lock as the events leave it: [held] tells whether it is held before
    them; [None] if the lock is asked for while held, or given back while
    free. *)
Fixpoint lock_trace (held : bool) (evs : list Event) : option bool :=
  match evs with
  | [] => Some held
  | EAcquire :: evs' => if held then None else lock_trace true evs'
  | ERelease :: evs' => if held then lock_trace false evs' else None
  | _ :: evs' => lock_trace held evs'
  end.

(** [w'] continues the trace of [w] by events that take the lock and give
    it back in turn, and leave it free. *)
Definition lock_in_turn (w w' : W) : Prop :=
  exists evs, trace w' = trace w ++ evs /\ lock_trace false evs = Some false.

(** [w'] continues the trace of [w] by events that are not about the
    lock. *)
Definition lock_untouched (w w' : W) : Prop :=
  exists evs, trace w' = trace w ++ evs /\
              Forall (fun e => lock_event e = false) evs.

(** The run of [m] from [w] ends in a world that [R] relates to [w]. *)
Definition keeps (R : W -> W -> Prop) {A} (m : M Backend A) (w : W) : Prop :=
  R w (snd (m w)).


Ltac run :=
  unfold teardown, teardown_locked,
    _init, _init_locked, _build_connection_response, with_clients_lock,
    acquire, release_lock, interleave, call_backend, assign, finally,
    try_except, emit, context_set_code, context_set_details, gets, modify,
    bind, ret, raise;
  cbn.

Lemma loop_step_ret off cached {A} (a : A) w : loop_step off cached (ret a) w.
Proof. intros H. split; [exact H|]. exists []. by rewrite app_nil_r. Qed.

Lemma loop_step_raise off cached {A} e w : loop_step off cached (raise (A:=A) e) w.
Proof. intros H. split; [exact H|]. exists []. by rewrite app_nil_r. Qed.

Lemma loop_step_bind off cached {A B} (m : M Backend A) (k : A -> M Backend B) w :
  loop_step off cached m w ->
  (forall a, fst (m w) = Returned a -> loop_step off cached (k a) (snd (m w))) ->
  loop_step off cached (bind m k) w.
Proof.
  intros Hm Hk H. destruct (Hm H) as (H1 & evs1 & Ht1 & Hf1).
  unfold bind. destruct (m w) as [[a|e] w1] eqn:E; cbn in *.
  - destruct (Hk a eq_refl H1) as (H2 & evs2 & Ht2 & Hf2).
    split; [exact H2|]. exists (evs1 ++ evs2).
    rewrite Ht2, Ht1, app_assoc. split; [done|]. by apply Forall_app.
  - split; [exact H1|]. by exists evs1.
Qed.

Lemma loop_step_gets off cached {A} (f : W -> A) w : loop_step off cached (gets f) w.
Proof. apply loop_step_ret. Qed.

Lemma loop_step_bind_gets off cached {A B} (f : W -> A) (k : A -> M Backend B) w :
  loop_step off cached (k (f w)) w -> loop_step off cached (bind (gets f) k) w.
Proof. intros H. exact H. Qed.

Lemma loop_step_emit off cached e w :
  loop_event cached e = true -> loop_step off cached (emit e) w.
Proof.
  intros He H. split; [exact H|]. exists [e]. split; [done|].
  by constructor.
Qed.

Lemma loop_step_modify off cached (f : W -> W) w :
  trace (f w) = trace w ->
  (reconnect_enabled w = false -> reconnect_enabled (f w) = false) ->
  loop_step off cached (modify f) w.
Proof.
  intros Ht Hr H. split; [intros Hc; apply Hr, H, Hc|].
  exists []. cbn. by rewrite Ht, app_nil_r.
Qed.

Lemma loop_step_finally off cached {A} (m : M Backend A) fin w :
  loop_step off cached m w ->
  loop_step off cached fin (snd (m w)) ->
  loop_step off cached (finally m fin) w.
Proof.
  intros Hm Hf H. destruct (Hm H) as (H1 & evs1 & Ht1 & Hf1).
  unfold finally. destruct (m w) as [r w1]; cbn in *.
  destruct (Hf H1) as (H2 & evs2 & Ht2 & Hf2).
  split; [exact H2|]. exists (evs1 ++ evs2).
  rewrite Ht2, Ht1, app_assoc. split; [done|]. by apply Forall_app.
Qed.

Lemma loop_step_with_lock off cached {A} (m : M Backend A) w :
  (forall w1, trace w1 = trace w ++ [EAcquire] ->
              reconnect_enabled w1 = reconnect_enabled w ->
              loop_step off cached m w1) ->
  loop_step off cached (with_clients_lock Backend other_connections m) w.
Proof.
  intros Hm. unfold with_clients_lock, acquire, release_lock.
  repeat (apply loop_step_bind; [|intros ? _]);
    try (apply loop_step_modify; [done|done]);
    try (apply loop_step_emit; done).
  apply loop_step_finally.
  - apply Hm; done.
  - apply loop_step_bind; [|intros ? _].
    + by apply loop_step_modify.
    + by apply loop_step_emit.
Qed.

Lemma loop_step_call_backend off cached {A} c
    (f : Backend -> Outcome A * Backend) w :
  loop_step off cached (call_backend Backend c f) w.
Proof.
  unfold call_backend. apply loop_step_bind; [by apply loop_step_emit|].
  intros _ _ H. destruct (f (backend _)) as [r b]. cbn.
  split; [exact H|]. exists []. by rewrite app_nil_r.
Qed.

Lemma loop_step_assign off cached rc c w : loop_step off cached (assign rc c) w.
Proof. by apply loop_step_modify. Qed.

Lemma loop_step_release_each off cached client_id ids w :
  loop_step off cached (release_each_ client_id ids) w.
Proof.
  revert w. induction ids as [|rel_id ids IH]; intros w; cbn.
  - apply loop_step_ret.
  - apply loop_step_bind; [apply loop_step_call_backend|]. intros rel _.
    apply loop_step_bind; [apply IH|]. intros released _.
    apply loop_step_ret.
Qed.

Ltac loop_steps :=
  repeat first
    [ apply loop_step_ret
    | apply loop_step_raise
    | apply loop_step_gets
    | apply loop_step_call_backend
    | apply loop_step_assign
    | apply loop_step_release_each
    | (apply loop_step_emit; reflexivity)
    | (apply loop_step_modify; [reflexivity | done])
    | (apply loop_step_with_lock; intros ? ? ?)
    | (apply loop_step_bind; [|intros ? ?])
    | case_bool_decide
    | case_match ].

Lemma loop_step_dispatch off cached client_id rc req w :
  loop_step off cached (dispatch_ client_id rc req) w.
Proof.
  unfold dispatch, _build_connection_response. loop_steps.
Qed.

Lemma loop_step_handle_item off cached client_id rc item w :
  (cached = false -> off = true) ->
  loop_step off cached (handle_item_ client_id rc item) w.
Proof.
  intros Hoc. destruct item as [req|resp]; cbn.
  2: { apply loop_step_emit. reflexivity. }
  intros H.
  assert (Hen : _should_cache req && reconnect_enabled w = true -> cached = true).
  { destruct cached; [done|]. rewrite H by auto. by rewrite andb_false_r. }
  revert H. apply loop_step_bind_gets.
  apply loop_step_bind.
  - destruct (_should_cache req && reconnect_enabled w) eqn:E.
    + rewrite (Hen eq_refl). loop_steps.
    + loop_steps.
  - intros replayed _. destruct replayed; [apply loop_step_ret|].
    apply loop_step_bind; [apply loop_step_dispatch|]. intros [b|] _.
    2: apply loop_step_ret.
    match goal with |- loop_step _ _ _ ?x => generalize x end. intros w2.
    apply loop_step_bind_gets.
    intros H.
    destruct (_should_cache req && reconnect_enabled w2) eqn:E.
    + destruct cached.
      * revert H. loop_steps.
      * rewrite H in E by auto. by rewrite andb_false_r in E.
    + revert H. loop_steps.
Qed.

Lemma loop_step_dispatch_loop off cached client_id rc items w :
  (cached = false -> off = true) ->
  loop_step off cached (dispatch_loop_ client_id rc items) w.
Proof.
  intros Hoc. revert w. induction items as [|item items IH]; intros w; cbn.
  - apply loop_step_ret.
  - apply loop_step_bind; [by apply loop_step_handle_item|]. intros _ _.
    apply IH.
Qed.

Lemma loop_step_on_exception off cached rc e w :
  loop_step off cached (on_exception_ rc e) w.
Proof.
  unfold on_exception. apply loop_step_bind; [apply loop_step_gets|].
  intros ctx _. destruct (_propagate_error_in_context e ctx) as [rec ctx'].
  apply loop_step_bind; [by apply loop_step_modify|]. intros _ _.
  apply loop_step_bind; [by apply loop_step_emit|]. intros _ _.
  apply loop_step_bind; [apply loop_step_gets|]. intros c _.
  destruct (invalidate cache_refuses c e) as [c' inv].
  apply loop_step_bind; [apply loop_step_assign|]. intros _ _.
  destruct (negb rec || inv); [|apply loop_step_ret].
  unfold context_set_code.
  apply loop_step_bind; [by apply loop_step_modify|]. intros _ _.
  by apply loop_step_modify.
Qed.

(** *** Admission *)

Lemma init_rejects_at_threshold (w : W) (client_id : string) (start_time : Z) :
  num_clients (seen w) >= thr ->
  fst (init_ client_id start_time w) = Returned false /\
  context (snd (init_ client_id start_time w))
    = set_code RESOURCE_EXHAUSTED (context w) /\
  registry (snd (init_ client_id start_time w)) = seen w.
Proof.
  intros Hge. run. fold (seen w).
  case_bool_decide; [|done]. cbn. auto.
Qed.

Lemma init_rejects_unknown_session (w : W) (client_id : string) (start_time : Z) :
  num_clients (seen w) < thr ->
  _get_reconnecting_from_context (context w) = true ->
  client_last_seen (seen w) !! client_id = None ->
  fst (init_ client_id start_time w) = Returned false /\
  code (context (snd (init_ client_id start_time w))) = Some NOT_FOUND /\
  registry (snd (init_ client_id start_time w)) = seen w.
Proof.
  intros Hlt Hrec Hnone. run. fold (seen w).
  case_bool_decide; [lia|]. rewrite Hrec, Hnone. cbn. auto.
Qed.

Lemma init_accepts_known_session (w : W) (client_id : string)
    (start_time last_seen : Z) :
  num_clients (seen w) < thr ->
  client_last_seen (seen w) !! client_id = Some last_seen ->
  fst (init_ client_id start_time w) = Returned true /\
  context (snd (init_ client_id start_time w)) = context w /\
  registry (snd (init_ client_id start_time w))
    = set_last_seen client_id start_time (seen w).
Proof.
  intros Hlt Hsome. run. fold (seen w).
  case_bool_decide; [lia|]. rewrite Hsome. cbn.
  rewrite andb_false_r. cbn. auto.
Qed.

Lemma init_accepts_new_session (w : W) (client_id : string) (start_time : Z) :
  num_clients (seen w) < thr ->
  _get_reconnecting_from_context (context w) = false ->
  client_last_seen (seen w) !! client_id = None ->
  fst (init_ client_id start_time w) = Returned true /\
  context (snd (init_ client_id start_time w)) = context w /\
  registry (snd (init_ client_id start_time w))
    = set_last_seen client_id start_time (incr_num_clients (seen w)).
Proof.
  intros Hlt Hrec Hnone. run. fold (seen w).
  case_bool_decide; [lia|]. rewrite Hrec, Hnone. cbn. auto.
Qed.

(** C3.  A connection that is not reconnecting is admitted by [_init] only
    when the number of clients, read under the lock, is below the
    threshold (and is admitted whenever it is).  When the number exceeds
    the threshold, [_init] returns [False] with the status code
    RESOURCE_EXHAUSTED, and leaves the session entries and the counter as
    it found them. *)
Theorem C3_new_client_admitted_below_threshold
    (w : W) (client_id : string) (start_time : Z) :
  _get_reconnecting_from_context (context w) = false ->
  (fst (init_ client_id start_time w) = Returned true <->
     num_clients (seen w) < thr) /\
  (num_clients (seen w) > thr ->
     fst (init_ client_id start_time w) = Returned false /\
     code (context (snd (init_ client_id start_time w)))
       = Some RESOURCE_EXHAUSTED /\
     client_last_seen (registry (snd (init_ client_id start_time w)))
       = client_last_seen (seen w) /\
     num_clients (registry (snd (init_ client_id start_time w)))
       = num_clients (seen w)).
Proof.
  intros Hrec. split.
  - split.
    + intros Hret.
      destruct (Z_lt_ge_dec (num_clients (seen w)) thr) as [Hlt|Hge]; [done|].
      destruct (init_rejects_at_threshold w client_id start_time Hge) as [E _].
      congruence.
    + intros Hlt.
      destruct (client_last_seen (seen w) !! client_id) as [t0|] eqn:E.
      * by destruct (init_accepts_known_session w client_id start_time t0 Hlt E).
      * by destruct (init_accepts_new_session w client_id start_time Hlt Hrec E).
  - intros Hgt.
    destruct (init_rejects_at_threshold w client_id start_time) as (E1 & E2 & E3);
      [lia|].
    rewrite E1, E2, E3. auto.
Qed.

(** C4, amended.  For a connection whose reconnecting flag is true and
    that finds the number of clients below the threshold when it takes the
    lock: without a session entry for the client id, [_init] sets the
    status code NOT_FOUND, changes nothing in the registry and returns
    [False]; with a session entry, it sets the client's last-seen time to
    the connection's start time, leaves the counter and every other
    session entry alone, and returns [True]. *)
Theorem C4_reconnecting_below_threshold
    (w : W) (client_id : string) (start_time : Z) :
  _get_reconnecting_from_context (context w) = true ->
  num_clients (seen w) < thr ->
  (client_last_seen (seen w) !! client_id = None ->
     fst (init_ client_id start_time w) = Returned false /\
     code (context (snd (init_ client_id start_time w))) = Some NOT_FOUND /\
     registry (snd (init_ client_id start_time w)) = seen w) /\
  (is_Some (client_last_seen (seen w) !! client_id) ->
     fst (init_ client_id start_time w) = Returned true /\
     client_last_seen (registry (snd (init_ client_id start_time w)))
       = <[client_id := start_time]> (client_last_seen (seen w)) /\
     dom (client_last_seen (registry (snd (init_ client_id start_time w))))
       = dom (client_last_seen (seen w)) /\
     num_clients (registry (snd (init_ client_id start_time w)))
       = num_clients (seen w)).
Proof.
  intros Hrec Hlt. split.
  - intros Hnone. by apply init_rejects_unknown_session.
  - intros [t0 Hsome].
    destruct (init_accepts_known_session w client_id start_time t0 Hlt Hsome)
      as (E1 & _ & E3).
    rewrite E1, E3. cbn. split; [done|]. split; [done|]. split; [|done].
    rewrite dom_insert_L. apply elem_of_dom_2 in Hsome.
    apply subseteq_union_1_L. by apply singleton_subseteq_l.
Qed.

(** C9.  [_init] compares the number of clients with the threshold before
    it looks at the reconnecting flag: whenever the number is at or above
    the threshold, whatever the flag and whether or not the client has a
    session entry, it returns [False] with the status code
    RESOURCE_EXHAUSTED; the details of the context and the registry
    (last-seen times included) stay as they were, so neither the NOT_FOUND
    branch nor the refresh of last-seen is reached. *)
Theorem C9_threshold_checked_before_reconnecting
    (w : W) (client_id : string) (start_time : Z) :
  num_clients (seen w) >= thr ->
  fst (init_ client_id start_time w) = Returned false /\
  code (context (snd (init_ client_id start_time w)))
    = Some RESOURCE_EXHAUSTED /\
  details (context (snd (init_ client_id start_time w)))
    = details (context w) /\
  registry (snd (init_ client_id start_time w)) = seen w.
Proof.
  intros Hge.
  destruct (init_rejects_at_threshold w client_id start_time Hge)
    as (E1 & E2 & E3).
  rewrite E1, E2, E3. auto.
Qed.

(** *** A connection without a client id *)

Lemma fold_insert_lookup_None (md : list (string * string))
    (m : gmap string string) (k : string) :
  m !! k = None ->
  (forall v, (k, v) ∉ md) ->
  fold_left (fun m kv => <[kv.1 := kv.2]> m) md m !! k = None.
Proof.
  revert m. induction md as [|[k' v'] md IH]; intros m Hm Hmd; cbn; [done|].
  apply IH.
  - rewrite lookup_insert_ne; [done|]. intros ->.
    apply (Hmd v'). by left.
  - intros v Hin. apply (Hmd v). by right.
Qed.

Lemma metadata_dict_lookup_None (md : list (string * string)) (k : string) :
  (forall v, (k, v) ∉ md) -> metadata_dict md !! k = None.
Proof. intros H. by apply fold_insert_lookup_None. Qed.

Lemma Datapath_without_client_id
    (request_queue : list (option QueueItem)) (start_time : Z) (w : W) :
  metadata_dict (invocation_metadata (context w)) !! "client_id" = None ->
  Datapath_ request_queue start_time w
    = (Returned tt, set_cleanup_requested Backend false w).
Proof.
  intros Hmd. unfold Datapath, bind, gets, modify. cbn. by rewrite Hmd.
Qed.

(** C10.  When the invocation metadata has no pair with the key
    [client_id], [Datapath] returns at once: the trace gains no event (no
    response, no lock operation, no join, wait or shutdown of the teardown
    block), and the registry, the store of cache objects, the backend and
    the context are the ones it started with. *)
Theorem C10_no_client_id_returns_immediately
    (request_queue : list (option QueueItem)) (start_time : Z) (w : W) :
  (forall v, ("client_id", v) ∉ invocation_metadata (context w)) ->
  fst (Datapath_ request_queue start_time w) = Returned tt /\
  trace (snd (Datapath_ request_queue start_time w)) = trace w /\
  registry (snd (Datapath_ request_queue start_time w)) = registry w /\
  objects (snd (Datapath_ request_queue start_time w)) = objects w /\
  backend (snd (Datapath_ request_queue start_time w)) = backend w /\
  context (snd (Datapath_ request_queue start_time w)) = context w /\
  ticks (snd (Datapath_ request_queue start_time w)) = ticks w.
Proof.
  intros Hmd. apply metadata_dict_lookup_None in Hmd.
  rewrite (Datapath_without_client_id _ _ _ Hmd). cbn. auto 10.
Qed.

(** *** Acknowledgements *)

(** C8.  An acknowledge request taken from the queue ends its iteration
    normally with a single change: the cache object of the connection has
    the entry of the acknowledged request id removed (entries of other ids
    and the cache's fault stay).  The trace gains the cache cleanup and
    nothing else (no response yielded, no backend capability called), and
    the registry (last-seen times, grace periods, counter), the backend,
    the context and the handler's flags are unchanged. *)
Theorem C8_acknowledge_only_cleans_cache
    (client_id : string) (rc : nat) (req : DataRequest) (w : W) :
  WhichOneof req = Some "acknowledge" ->
  handle_item_ client_id rc (QRequest req) w
    = (Returned tt,
       set_objects Backend
         (<[rc := cleanup (deref rc w) (acknowledge_req_id req)]> (objects w))
         (log_event (ECleanupCache (acknowledge_req_id req)) w)) /\
  new_events w (snd (handle_item_ client_id rc (QRequest req) w))
    = [ECleanupCache (acknowledge_req_id req)] /\
  registry (snd (handle_item_ client_id rc (QRequest req) w)) = registry w /\
  backend (snd (handle_item_ client_id rc (QRequest req) w)) = backend w /\
  entries (cleanup (deref rc w) (acknowledge_req_id req))
    !! acknowledge_req_id req = None /\
  (forall id, id <> acknowledge_req_id req ->
     entries (cleanup (deref rc w) (acknowledge_req_id req)) !! id
       = entries (deref rc w) !! id) /\
  broken (cleanup (deref rc w) (acknowledge_req_id req)) = broken (deref rc w).
Proof.
  intros Hty.
  assert (Hc : _should_cache req = false).
  { unfold _should_cache. rewrite Hty. reflexivity. }
  assert (E : handle_item_ client_id rc (QRequest req) w
    = (Returned tt,
       set_objects Backend
         (<[rc := cleanup (deref rc w) (acknowledge_req_id req)]> (objects w))
         (log_event (ECleanupCache (acknowledge_req_id req)) w))).
  { unfold handle_item, dispatch. run. rewrite Hc, Hty. cbn.
    repeat (case_bool_decide; [done|]). done. }
  rewrite E. cbn. split; [done|]. split.
  { unfold new_events. cbn. by rewrite drop_app_length. }
  split; [done|]. split; [done|]. split; [apply lookup_delete_eq|].
  split; [|done]. intros id Hne. by apply lookup_delete_ne.
Qed.

(** *** Teardown *)

Lemma with_clients_lock_run {A} (m : M Backend A) (w : W) :
  with_clients_lock Backend other_connections m w
    = (fst (m (locked w)), unlocked (snd (m (locked w)))).
Proof.
  unfold with_clients_lock, acquire, release_lock, interleave, finally, emit,
    modify, bind, locked, unlocked, seen. cbn. by destruct (m _).
Qed.

Lemma teardown_run (client_id : string) (start_time : Z) (w : W) :
  teardown_ client_id start_time w
    = (fst (teardown_locked_ client_id start_time
              (locked (before_lock client_id w))),
       unlocked (snd (teardown_locked_ client_id start_time
                        (locked (before_lock client_id w))))).
Proof.
  rewrite <- with_clients_lock_run. unfold teardown, before_lock.
  unfold interleave, emit, modify, gets, bind, ret. cbn. fold (seen w).
  destruct (reconnect_grace_periods (seen w) !! client_id);
    [destruct (cleanup_requested w)|]; reflexivity.
Qed.

Lemma teardown_locked_absent (client_id : string) (start_time : Z) (w : W) :
  client_last_seen (registry w) !! client_id = None ->
  teardown_locked_ client_id start_time w = (Returned tt, w).
Proof.
  intros E. unfold teardown_locked, gets, bind, ret. by rewrite E.
Qed.

Lemma teardown_locked_reconnected
    (client_id : string) (start_time last_seen : Z) (w : W) :
  client_last_seen (registry w) !! client_id = Some last_seen ->
  last_seen > start_time ->
  teardown_locked_ client_id start_time w = (Returned tt, w).
Proof.
  intros E Hgt. unfold teardown_locked, gets, bind, ret. rewrite E.
  by rewrite bool_decide_eq_true_2.
Qed.

Lemma teardown_locked_cleans
    (client_id : string) (start_time last_seen : Z) (w : W) :
  client_last_seen (registry w) !! client_id = Some last_seen ->
  last_seen <= start_time ->
  teardown_locked_ client_id start_time w
    = (Returned tt,
       if bool_decide (num_clients (registry w) - 1 = 0)
       then set_backend Backend
              (ray_shutdown basic_service
                 (release_all basic_service client_id (backend w)))
              (log_event (EShutdown (clients_lock w)
                                    (num_clients (registry w) - 1))
                         (cleaned client_id w))
       else cleaned client_id w).
Proof.
  intros E Hle. unfold teardown_locked, call_backend, emit, modify, gets,
    bind, ret. rewrite E.
  rewrite bool_decide_eq_false_2 by lia. cbn.
  by destruct (bool_decide (num_clients (registry w) - 1 = 0)).
Qed.

Lemma locked_before_lock (client_id : string) (w : W) :
  let wl := locked (before_lock client_id w) in
  registry wl = other_connections (S (ticks w)) (seen w) /\
  clients_lock wl = true /\
  backend wl = backend w /\
  context wl = context w /\
  exists waits,
    trace wl = trace w ++ [EJoin QUEUE_JOIN_SECONDS] ++ waits ++ [EAcquire] /\
    (cleanup_requested w = true \/
     reconnect_grace_periods (seen w) !! client_id = None -> waits = []) /\
    (forall delay,
       cleanup_requested w = false ->
       reconnect_grace_periods (seen w) !! client_id = Some delay ->
       waits = [EWait delay]).
Proof.
  unfold locked, before_lock, seen.
  destruct (reconnect_grace_periods _ !! client_id) as [delay|];
    [destruct (cleanup_requested w)|]; cbn;
    (split; [done|]; split; [done|]; split; [done|]; split; [done|]).
  - exists []. rewrite <- app_assoc. split; [done|]. split; [done|]. done.
  - exists [EWait delay]. rewrite <- !app_assoc.
    split; [done|]. split; [|congruence]. intros [|]; done.
  - exists []. rewrite <- app_assoc. split; [done|]. split; [done|]. done.
Qed.

(** What the [finally] block does from any state [w]: [seen w] is the
    registry when it reads the grace period, [held] the registry when it
    then gets the lock. *)
Lemma teardown_decision (client_id : string) (start_time : Z) (w : W) :
  let held := other_connections (S (ticks w)) (seen w) in
  let w' := snd (teardown_ client_id start_time w) in
  fst (teardown_ client_id start_time w) = Returned tt /\
  context w' = context w /\
  exists waits acts,
    trace w'
      = trace w ++ [EJoin QUEUE_JOIN_SECONDS] ++ waits ++ [EAcquire]
                ++ acts ++ [ERelease] /\
    (cleanup_requested w = true \/
     reconnect_grace_periods (seen w) !! client_id = None -> waits = []) /\
    (forall delay,
       cleanup_requested w = false ->
       reconnect_grace_periods (seen w) !! client_id = Some delay ->
       waits = [EWait delay]) /\
    (client_last_seen held !! client_id = None ->
       acts = [] /\ registry w' = held /\ backend w' = backend w) /\
    (forall last_seen,
       client_last_seen held !! client_id = Some last_seen ->
       last_seen > start_time ->
       acts = [] /\ registry w' = held /\ backend w' = backend w) /\
    (forall last_seen,
       client_last_seen held !! client_id = Some last_seen ->
       last_seen <= start_time ->
       registry w' = remove_client client_id held /\
       (num_clients held - 1 <> 0 ->
          acts = [EBackend (CallReleaseAll client_id)] /\
          backend w' = release_all basic_service client_id (backend w)) /\
       (num_clients held - 1 = 0 ->
          acts = [EBackend (CallReleaseAll client_id); EShutdown true 0] /\
          backend w' = ray_shutdown basic_service
                         (release_all basic_service client_id (backend w)))).
Proof.
  intros held w'. subst w'. rewrite teardown_run. cbn [fst snd].
  destruct (locked_before_lock client_id w)
    as (Hreg & Hlock & Hback & Hctx & waits & Htr & Hw1 & Hw2).
  fold held in Hreg.
  set (wl := locked (before_lock client_id w)) in *. clearbody wl.
  destruct (client_last_seen held !! client_id) as [last_seen|] eqn:Hseen.
  - destruct (Z_le_gt_dec last_seen start_time) as [Hle|Hgt].
    + rewrite (teardown_locked_cleans client_id start_time last_seen wl)
        by (by rewrite ?Hreg).
      rewrite Hreg, Hlock. cbn [fst snd].
      case_bool_decide as Hz.
      * split; [done|]. split; [done|].
        exists waits, [EBackend (CallReleaseAll client_id); EShutdown true 0].
        split.
        { cbn. rewrite Htr, Hz, <- !app_assoc. done. }
        split; [done|]. split; [done|]. split; [done|].
        split; [intros ? [= <-]; lia|].
        intros ? _ _. cbn. rewrite Hreg, Hback. split; [done|].
        split; [done|]. done.
      * split; [done|]. split; [done|].
        exists waits, [EBackend (CallReleaseAll client_id)].
        split.
        { cbn. rewrite Htr, <- !app_assoc. done. }
        split; [done|]. split; [done|]. split; [done|].
        split; [intros ? [= <-]; lia|].
        intros ? _ _. cbn. rewrite Hreg, Hback. split; [done|].
        split; [done|]. done.
    + rewrite (teardown_locked_reconnected client_id start_time last_seen wl)
        by (by rewrite ?Hreg).
      cbn [fst snd]. split; [done|]. split; [done|].
      exists waits, []. split.
      { cbn. rewrite Htr, <- !app_assoc. done. }
      split; [done|]. split; [done|]. split; [done|].
      split; [intros; cbn; by rewrite Hreg, Hback|].
      intros ? [= <-] ?. lia.
  - rewrite (teardown_locked_absent client_id start_time wl)
      by (by rewrite Hreg).
    cbn [fst snd]. split; [done|]. split; [done|].
    exists waits, []. split.
    { cbn. rewrite Htr, <- !app_assoc. done. }
    split; [done|]. split; [done|].
    split; [intros; cbn; by rewrite Hreg, Hback|].
    split; intros; done.
Qed.

(** *** The shape of a run of [Datapath] *)

Lemma init_returns (client_id : string) (start_time : Z) (w : W) :
  exists accepted, fst (init_ client_id start_time w) = Returned accepted.
Proof.
  run. case_bool_decide; [by eexists|].
  destruct (_ && _); [by eexists|].
  case_bool_decide; by eexists.
Qed.

Lemma init_ignores_cleanup_flag
    (client_id : string) (start_time : Z) (f : bool) (w : W) :
  init_ client_id start_time (set_cleanup_requested Backend f w)
    = (fst (init_ client_id start_time w),
       set_cleanup_requested Backend f (snd (init_ client_id start_time w))).
Proof.
  run. case_bool_decide; [done|].
  destruct (_ && _); [done|].
  case_bool_decide; done.
Qed.

Lemma loop_step_init off cached (client_id : string) (start_time : Z) (w : W) :
  loop_step off cached (init_ client_id start_time) w.
Proof.
  unfold _init, _init_locked, context_set_code, context_set_details.
  apply loop_step_with_lock. intros w1 _ _.
  apply loop_step_bind_gets. apply loop_step_bind_gets.
  case_bool_decide.
  { apply loop_step_bind; [by apply loop_step_modify|]. intros _ _.
    apply loop_step_ret. }
  destruct (_ && _).
  { apply loop_step_bind; [by apply loop_step_modify|]. intros _ _.
    apply loop_step_bind; [by apply loop_step_modify|]. intros _ _.
    apply loop_step_ret. }
  apply loop_step_bind.
  { case_bool_decide; [apply loop_step_ret|by apply loop_step_modify]. }
  intros _ _.
  apply loop_step_bind; [by apply loop_step_modify|]. intros _ _.
  apply loop_step_ret.
Qed.

Lemma get_response_cache_returns (client_id : string) (w : W) :
  exists rc, fst (get_response_cache_ client_id w) = Returned rc.
Proof.
  unfold get_response_cache, interleave, modify, gets, bind, ret. cbn.
  destruct (response_caches _ !! client_id); by eexists.
Qed.

Lemma loop_step_get_response_cache off cached (client_id : string) (w : W) :
  loop_step off cached (get_response_cache_ client_id) w.
Proof.
  unfold get_response_cache, interleave.
  apply loop_step_bind; [by apply loop_step_modify|]. intros _ _.
  apply loop_step_bind; [apply loop_step_gets|]. intros r _.
  destruct (response_caches r !! client_id); [apply loop_step_ret|].
  apply loop_step_bind; [apply loop_step_gets|]. intros h _.
  apply loop_step_bind; [by apply loop_step_modify|]. intros _ _.
  apply loop_step_bind; [by apply loop_step_modify|]. intros _ _.
  apply loop_step_ret.
Qed.

(** The part of [Datapath] from its first line to the entry of the
    [finally] block adds loop events only. *)
Lemma loop_step_try_except off cached (m : M Backend unit) handler (w : W) :
  loop_step off cached m w ->
  (forall e, loop_step off cached (handler e) (snd (m w))) ->
  loop_step off cached (try_except m handler) w.
Proof.
  intros Hm Hh H. destruct (Hm H) as (H1 & evs1 & Ht1 & Hf1).
  unfold try_except. destruct (m w) as [[a|e] w1]; cbn in *.
  - split; [exact H1|]. by exists evs1.
  - destruct (Hh e H1) as (H2 & evs2 & Ht2 & Hf2).
    split; [exact H2|]. exists (evs1 ++ evs2).
    rewrite Ht2, Ht1, app_assoc. split; [done|]. by apply Forall_app.
Qed.

Lemma on_exception_returns (rc : nat) (e : Fault) (w : W) :
  fst (on_exception_ rc e w) = Returned tt.
Proof.
  unfold on_exception, bind, gets. cbv beta.
  destruct (_propagate_error_in_context e (context w)) as [rec ctx'].
  unfold modify, emit, assign, context_set_code, ret. cbn.
  destruct (invalidate cache_refuses _ e) as [c' inv]. cbn.
  by destruct (negb rec || inv).
Qed.

(** A connection with a client id: either [_init] refuses it and the run
    ends there, having added loop events only, or the run is the
    [finally] block entered in a world [w_fin] that loop events lead to. *)
Lemma Datapath_run (request_queue : list (option QueueItem)) (start_time : Z)
    (w : W) (client_id : string) :
  metadata_dict (invocation_metadata (context w)) !! "client_id"
    = Some client_id ->
  exists w_fin evs,
    trace w_fin = trace w ++ evs /\
    Forall (fun e => loop_event true e = true) evs /\
    (fst (init_ client_id start_time w) = Returned false ->
       Datapath_ request_queue start_time w = (Returned tt, w_fin)) /\
    (fst (init_ client_id start_time w) = Returned true ->
       Datapath_ request_queue start_time w
         = (Returned tt, snd (teardown_ client_id start_time w_fin))).
Proof.
  intros Hmd.
  set (w0 := set_cleanup_requested Backend false w).
  destruct (loop_step_init false true client_id start_time w0) as (_ & evs1 & Ht1 & Hf1);
    [done|].
  destruct (loop_step_get_response_cache false true client_id
              (snd (init_ client_id start_time w0))) as (_ & evs2 & Ht2 & Hf2);
    [done|].
  destruct (get_response_cache_returns client_id
              (snd (init_ client_id start_time w0))) as [rc Hrc].
  destruct (init_returns client_id start_time w0) as [b Hb].
  pose proof (init_ignores_cleanup_flag client_id start_time false w) as Hig.
  fold w0 in Hig.
  assert (Hacc : fst (init_ client_id start_time w) = Returned b).
  { rewrite Hig in Hb. exact Hb. }
  clear Hig. rewrite Hacc.
  unfold Datapath, bind, modify, gets. cbv beta.
  change (context (set_cleanup_requested Backend false w)) with (context w).
  rewrite Hmd. fold w0.
  destruct (init_ client_id start_time w0) as [o1 w1].
  cbn [fst snd] in Hb, Ht1, Ht2, Hrc. subst o1.
  destruct (get_response_cache_ client_id w1) as [o2 w2].
  cbn [fst snd] in Ht2, Hrc. subst o2.
  change (trace w0) with (trace w) in Ht1.
  set (w3 := set_reconnect_enabled Backend true w2).
  assert (Ht3 : trace w3 = trace w ++ evs1 ++ evs2).
  { subst w3. cbn. by rewrite Ht2, Ht1, <- app_assoc. }
  clearbody w3. clear Ht1 Ht2.
  set (body := try_except
                 (dispatch_loop_ client_id rc (iter_until_sentinel request_queue))
                 (on_exception_ rc)).
  destruct b; cbn [negb].
  - (* accepted *)
    destruct (loop_step_try_except false true
                (dispatch_loop_ client_id rc (iter_until_sentinel request_queue))
                (on_exception_ rc) w3)
      as (_ & evs3 & Ht4 & Hf3); [by apply loop_step_dispatch_loop
                                 |intros; apply loop_step_on_exception|done|].
    fold body in Ht4.
    exists (snd (body w3)), (evs1 ++ evs2 ++ evs3).
    split; [by rewrite Ht4, Ht3, <- !app_assoc|].
    split; [by rewrite !Forall_app|].
    split; [done|]. intros _. unfold finally.
    assert (Hr : fst (body w3) = Returned tt).
    { subst body. unfold try_except.
      destruct (dispatch_loop_ _ _ _ _) as [[[]|e] wd]; [done|].
      apply on_exception_returns. }
    destruct (body w3) as [r wf]. cbn [fst snd] in *. by subst r.
  - (* rejected *)
    exists w3, (evs1 ++ evs2).
    split; [done|]. split; [by rewrite Forall_app|]. split; done.
Qed.


(** *** The backend shutdown *)

Lemma loop_event_not_shutdown (cached : bool) (evs : list Event) :
  Forall (fun e => loop_event cached e = true) evs ->
  Forall (fun e => is_shutdown e = false) evs.
Proof.
  intros H. eapply Forall_impl; [exact H|].
  intros [] He; try reflexivity; discriminate He.
Qed.

(** The events of the [finally] block, case by case. *)
Lemma teardown_summary (client_id : string) (start_time : Z) (w : W) :
  exists waits acts,
    trace (snd (teardown_ client_id start_time w))
      = trace w ++ [EJoin QUEUE_JOIN_SECONDS] ++ waits ++ [EAcquire]
                ++ acts ++ [ERelease] /\
    (waits = [] \/
     exists delay, waits = [EWait delay] /\ cleanup_requested w = false) /\
    (acts = [] \/ acts = [EBackend (CallReleaseAll client_id)] \/
     (acts = [EBackend (CallReleaseAll client_id); EShutdown true 0] /\
      num_clients (registry (snd (teardown_ client_id start_time w))) = 0)).
Proof.
  destruct (teardown_decision client_id start_time w)
    as (_ & _ & waits & acts & Htr & Hw1 & Hw2 & Ha1 & Ha2 & Ha3).
  exists waits, acts. split; [exact Htr|]. split.
  { destruct (cleanup_requested w) eqn:Hc; [left; auto|].
    destruct (reconnect_grace_periods (seen w) !! client_id) as [d|] eqn:Hg.
    - right. exists d. split; [by apply Hw2|done].
    - left. auto. }
  set (reg := other_connections (S (ticks w)) (seen w)) in *.
  destruct (client_last_seen reg !! client_id) as [ls|] eqn:Hl.
  - destruct (Z_le_gt_dec ls start_time) as [Hle|Hgt].
    + destruct (Ha3 ls eq_refl Hle) as (Hreg & Hnz & Hz).
      destruct (decide (num_clients reg - 1 = 0)) as [E|E].
      * right; right. split; [by apply Hz|]. rewrite Hreg. exact E.
      * right; left. by apply Hnz.
    + left. by apply (Ha2 ls).
  - left. by apply Ha1.
Qed.

(** A shutdown among the events of the [finally] block was called with the
    lock held and the counter at zero, right after the client's resources
    were released, and the lock is given back right after it. *)
Lemma teardown_shutdown (client_id : string) (start_time : Z) (w : W) :
  exists tail,
    trace (snd (teardown_ client_id start_time w)) = trace w ++ tail /\
    forall held n,
      EShutdown held n ∈ tail ->
      held = true /\ n = 0 /\
      num_clients (registry (snd (teardown_ client_id start_time w))) = 0 /\
      exists pre,
        tail = pre ++ [EAcquire; EBackend (CallReleaseAll client_id);
                       EShutdown true 0; ERelease] /\
        Forall (fun e => is_shutdown e = false) pre.
Proof.
  destruct (teardown_summary client_id start_time w)
    as (waits & acts & Htr & Hwaits & Hacts).
  exists ([EJoin QUEUE_JOIN_SECONDS] ++ waits ++ [EAcquire] ++ acts ++ [ERelease]).
  split; [exact Htr|]. intros held n Hin.
  rewrite !elem_of_app, !list_elem_of_singleton in Hin.
  destruct Hin as [Hin|[Hin|[Hin|[Hin|Hin]]]]; try discriminate Hin.
  { destruct Hwaits as [->|(d & -> & _)].
    - by apply elem_of_nil in Hin.
    - apply list_elem_of_singleton in Hin. discriminate Hin. }
  destruct Hacts as [->|[->|[-> Hz]]].
  - by apply elem_of_nil in Hin.
  - apply list_elem_of_singleton in Hin. discriminate Hin.
  - rewrite elem_of_cons, list_elem_of_singleton in Hin.
    destruct Hin as [Hin|Hin]; [discriminate Hin|]. injection Hin as -> ->.
    split; [done|]. split; [done|]. split; [done|].
    exists ([EJoin QUEUE_JOIN_SECONDS] ++ waits). split.
    + by rewrite <- !app_assoc.
    + apply Forall_app. split; [by repeat constructor|].
      destruct Hwaits as [->|(d & -> & _)]; by repeat constructor.
Qed.

(** Once cleanup is requested, the [finally] block waits for nothing. *)
Lemma teardown_no_wait (client_id : string) (start_time : Z) (w : W) :
  cleanup_requested w = true ->
  forall delay,
    EWait delay ∉ new_events w (snd (teardown_ client_id start_time w)).
Proof.
  intros Hc delay.
  destruct (teardown_summary client_id start_time w)
    as (waits & acts & Htr & Hwaits & Hacts).
  rewrite (new_events_app _ _ _ Htr).
  destruct Hwaits as [->|(d & _ & Hf)]; [|congruence].
  rewrite !elem_of_app, !list_elem_of_singleton.
  intros [Hin|[Hin|[Hin|[Hin|Hin]]]]; try discriminate Hin.
  { by apply elem_of_nil in Hin. }
  destruct Hacts as [->|[->|[-> _]]].
  - by apply elem_of_nil in Hin.
  - apply list_elem_of_singleton in Hin. discriminate Hin.
  - rewrite elem_of_cons, list_elem_of_singleton in Hin.
    destruct Hin as [Hin|Hin]; discriminate Hin.
Qed.

(** C5.  In a run of [Datapath], a call of [ray.shutdown()] was made with
    [clients_lock] held and with the counter of clients at zero.  There is
    at most one such call: it comes in the last locked block of the run,
    right after that block released the client's resources and took the
    client off the counter, the lock is given back right after it, and the
    counter is zero when the run ends. *)
Theorem C5_shutdown_only_locked_at_zero
    (request_queue : list (option QueueItem)) (start_time : Z) (w : W)
    (held : bool) (n : Z) :
  EShutdown held n
    ∈ new_events w (snd (Datapath_ request_queue start_time w)) ->
  held = true /\ n = 0 /\
  num_clients (registry (snd (Datapath_ request_queue start_time w))) = 0 /\
  exists pre client_id,
    new_events w (snd (Datapath_ request_queue start_time w))
      = pre ++ [EAcquire; EBackend (CallReleaseAll client_id);
                EShutdown true 0; ERelease] /\
    Forall (fun e => is_shutdown e = false) pre.
Proof.
  destruct (metadata_dict (invocation_metadata (context w)) !! "client_id")
    as [client_id|] eqn:Hmd.
  - destruct (Datapath_run request_queue start_time w client_id Hmd)
      as (w_fin & evs & Ht & Hf & Hrej & Hacc).
    apply loop_event_not_shutdown in Hf.
    destruct (init_returns client_id start_time w) as [[|] Hb].
    + rewrite (Hacc Hb). cbn [snd].
      destruct (teardown_shutdown client_id start_time w_fin)
        as (tail & Htail & Hsd).
      rewrite (new_events_app w _ (evs ++ tail))
        by (by rewrite Htail, Ht, <- app_assoc).
      intros Hin. apply elem_of_app in Hin as [Hin|Hin].
      { rewrite Forall_forall in Hf. by apply Hf in Hin. }
      destruct (Hsd held n Hin) as (-> & -> & Hz & pre & -> & Hpre).
      split; [done|]. split; [done|]. split; [done|].
      exists (evs ++ pre), client_id. split; [by rewrite <- app_assoc|].
      apply Forall_app. by split.
    + rewrite (Hrej Hb). cbn [snd].
      rewrite (new_events_app w _ evs) by done.
      intros Hin. rewrite Forall_forall in Hf. by apply Hf in Hin.
  - rewrite (Datapath_without_client_id _ _ _ Hmd). cbn [snd].
    rewrite (new_events_app w _ []) by (cbn; by rewrite app_nil_r).
    intros Hin. by apply elem_of_nil in Hin.
Qed.

(** C1, amended.  A run of [Datapath] for a connection that [_init]
    accepted ends with the [finally] block, entered in some world [w_fin].
    With [seen w_fin] the registry when the grace period is read and [held]
    the registry when the lock is then taken: if cleanup was requested or no
    grace period is recorded for the client id, nothing is waited for (the
    lock is asked for right after the join of the reader thread); otherwise
    the recorded grace period is waited for first.  Then, in both cases,
    under the lock: if the client id is not in [client_last_seen], or its
    last-seen time is strictly greater than the start time of this
    connection, nothing is done and the registry and the backend stay as
    they are; otherwise [release_all] is called for the client, its
    last-seen, grace-period and response-cache entries are deleted and the
    counter of clients goes down by one (after which the backend is shut
    down if the counter is zero). *)
Theorem C1_teardown_decides_cleanup
    (request_queue : list (option QueueItem)) (start_time : Z) (w : W)
    (client_id : string) :
  metadata_dict (invocation_metadata (context w)) !! "client_id"
    = Some client_id ->
  fst (init_ client_id start_time w) = Returned true ->
  exists w_fin : W,
    Datapath_ request_queue start_time w
      = (Returned tt, snd (teardown_ client_id start_time w_fin)) /\
    let held := other_connections (S (ticks w_fin)) (seen w_fin) in
    let w' := snd (Datapath_ request_queue start_time w) in
    exists waits acts,
      trace w'
        = trace w_fin ++ [EJoin QUEUE_JOIN_SECONDS] ++ waits ++ [EAcquire]
                      ++ acts ++ [ERelease] /\
      (cleanup_requested w_fin = true \/
       reconnect_grace_periods (seen w_fin) !! client_id = None ->
       waits = []) /\
      (forall delay,
         cleanup_requested w_fin = false ->
         reconnect_grace_periods (seen w_fin) !! client_id = Some delay ->
         waits = [EWait delay]) /\
      (client_last_seen held !! client_id = None ->
         acts = [] /\ registry w' = held /\ backend w' = backend w_fin) /\
      (forall last_seen,
         client_last_seen held !! client_id = Some last_seen ->
         last_seen > start_time ->
         acts = [] /\ registry w' = held /\ backend w' = backend w_fin) /\
      (forall last_seen,
         client_last_seen held !! client_id = Some last_seen ->
         last_seen <= start_time ->
         registry w' = remove_client client_id held /\
         client_last_seen (registry w') !! client_id = None /\
         reconnect_grace_periods (registry w') !! client_id = None /\
         response_caches (registry w') !! client_id = None /\
         num_clients (registry w') = num_clients held - 1 /\
         (num_clients held - 1 <> 0 ->
            acts = [EBackend (CallReleaseAll client_id)] /\
            backend w' = release_all basic_service client_id (backend w_fin)) /\
         (num_clients held - 1 = 0 ->
            acts = [EBackend (CallReleaseAll client_id); EShutdown true 0] /\
            backend w' = ray_shutdown basic_service
                           (release_all basic_service client_id
                                        (backend w_fin)))).
Proof.
  intros Hmd Hacc.
  destruct (Datapath_run request_queue start_time w client_id Hmd)
    as (w_fin & evs & _ & _ & _ & Hrun).
  specialize (Hrun Hacc). exists w_fin. split; [exact Hrun|].
  rewrite Hrun. cbn [snd].
  destruct (teardown_decision client_id start_time w_fin)
    as (_ & _ & waits & acts & Htr & Hw1 & Hw2 & Ha1 & Ha2 & Ha3).
  exists waits, acts.
  split; [exact Htr|]. split; [exact Hw1|]. split; [exact Hw2|].
  split; [exact Ha1|]. split; [exact Ha2|].
  intros last_seen Hl Hle. destruct (Ha3 last_seen Hl Hle) as (Hreg & Hnz & Hz).
  split; [exact Hreg|]. rewrite Hreg. cbn.
  rewrite !lookup_delete_eq. auto 10.
Qed.


(** *** Faults in the dispatch loop *)






(** *** The [init] request *)

Lemma dispatch_init (client_id : string) (rc : nat) (req : DataRequest)
    (w w1 : W) (o : option ResponseBody) :
  WhichOneof req = Some "init" ->
  dispatch_ client_id rc req w = (Returned o, w1) ->
  reconnect_grace_periods (registry w1) !! client_id
    = Some (init_reconnect_grace_period req) /\
  (init_reconnect_grace_period req = 0 -> reconnect_enabled w1 = false) /\
  objects w1 = objects w /\
  exists r, o = Some (init_resp r).
Proof.
  intros Hty. unfold dispatch. rewrite Hty.
  rewrite bool_decide_eq_true_2 by done.
  unfold bind at 1. unfold call_backend, bind at 1, emit, modify.
  destruct (Init basic_service _ _ _) as [[r|e] b]; [|discriminate].
  unfold bind at 1. rewrite with_clients_lock_run. cbn [fst snd].
  unfold bind at 1, modify.
  case_bool_decide as Hz; unfold ret; intros [= <- <-]; cbn;
    rewrite lookup_insert_eq; repeat split; eauto; done.
Qed.


(** An iteration that is not answered from the cache: the request is
    dispatched, and the response is stored in the cache when the request is
    cacheable and reconnection is still enabled, then yielded. *)
Lemma handle_item_miss (client_id : string) (rc : nat) (req : DataRequest)
    (w : W) :
  (_should_cache req && reconnect_enabled w = true ->
   check_cache (deref rc w) (req_id req) = CacheAbsent) ->
  handle_item_ client_id rc (QRequest req) w
    = match dispatch_ client_id rc req
              (if _should_cache req && reconnect_enabled w
               then log_event (ECheckCache (req_id req)) w else w) with
      | (Returned (Some b), w1) =>
          let resp := mkResp (req_id req) b in
          (Returned tt,
           log_event (EYield resp)
             (if _should_cache req && reconnect_enabled w1
              then set_objects Backend
                     (<[rc := update_cache (deref rc w1) (req_id req) resp]>
                        (objects w1))
                     (log_event (EUpdateCache (req_id req)) w1)
              else w1))
      | (Returned None, w1) => (Returned tt, w1)
      | (Raised e, w1) => (Raised e, w1)
      end.
Proof.
  intros Hmiss. unfold handle_item, bind at 1, gets. cbv beta.
  unfold bind at 1.
  destruct (_should_cache req && reconnect_enabled w) eqn:E.
  - unfold bind at 1, emit, modify. unfold bind at 1, gets.
    change (deref rc (log_event (ECheckCache (req_id req)) w)) with (deref rc w).
    rewrite (Hmiss eq_refl). unfold ret at 1. unfold bind at 1.
    destruct (dispatch_ _ _ _ _) as [[[b|]|e] w1]; [|done|done].
    unfold bind at 1, gets. unfold bind at 1.
    destruct (_should_cache req && reconnect_enabled w1); reflexivity.
  - unfold ret at 1. unfold bind at 1.
    destruct (dispatch_ _ _ _ _) as [[[b|]|e] w1]; [|done|done].
    unfold bind at 1, gets. unfold bind at 1.
    destruct (_should_cache req && reconnect_enabled w1); reflexivity.
Qed.

(** C6.  An [init] request that the loop dispatches (it is not answered
    from the cache) and that is served without a fault leaves the
    requested grace period recorded under the client id in
    [reconnect_grace_periods].  If that grace period is zero,
    [reconnect_enabled] is false afterwards and stays false whatever items
    the loop of this connection takes next, and none of them is looked up
    in the cache or stored into it.  The flag is a local of [Datapath], set
    to [True] at each call: nothing is said of another connection of the
    client. *)
Theorem C6_init_records_grace_period
    (client_id : string) (rc : nat) (req : DataRequest) (w : W) :
  WhichOneof req = Some "init" ->
  (reconnect_enabled w = true ->
   check_cache (deref rc w) (req_id req) = CacheAbsent) ->
  fst (handle_item_ client_id rc (QRequest req) w) = Returned tt ->
  let w1 := snd (handle_item_ client_id rc (QRequest req) w) in
  reconnect_grace_periods (registry w1) !! client_id
    = Some (init_reconnect_grace_period req) /\
  (init_reconnect_grace_period req = 0 ->
     reconnect_enabled w1 = false /\
     forall items,
       let w2 := snd (dispatch_loop_ client_id rc items w1) in
       reconnect_enabled w2 = false /\
       forall id,
         (ECheckCache id ∉ new_events w1 w2) /\
         (EUpdateCache id ∉ new_events w1 w2)).
Proof.
  intros Hty Hmiss. cbv zeta.
  assert (Hmiss' : _should_cache req && reconnect_enabled w = true ->
                   check_cache (deref rc w) (req_id req) = CacheAbsent).
  { intros Hb. apply andb_true_iff in Hb. apply Hmiss, Hb. }
  rewrite (handle_item_miss _ _ _ _ Hmiss').
  destruct (dispatch_ client_id rc req _) as [[o|e] wd] eqn:Hd; [|discriminate].
  destruct (dispatch_init _ _ _ _ _ _ Hty Hd) as (Hg & Hz & _ & r & ->).
  intros _. cbn [fst snd].
  set (w1 := log_event _ _).
  assert (Hreg : registry w1 = registry wd).
  { subst w1. destruct (_should_cache req && reconnect_enabled wd); reflexivity. }
  assert (Hen : reconnect_enabled w1 = reconnect_enabled wd).
  { subst w1. destruct (_should_cache req && reconnect_enabled wd); reflexivity. }
  clearbody w1. rewrite Hreg, Hen. split; [exact Hg|].
  intros Hzero. split; [by apply Hz|]. intros items.
  destruct (loop_step_dispatch_loop true false client_id rc items w1)
    as (Hoff & evs & Ht & Hf); [done|rewrite Hen; auto|].
  cbv zeta. split; [by apply Hoff|]. intros id.
  rewrite (new_events_app _ _ _ Ht). rewrite Forall_forall in Hf.
  split; intros Hin; apply Hf in Hin; discriminate Hin.
Qed.


(** *** Replay from the response cache *)

Lemma release_each_objects (client_id : string) (ids : list string) (w : W) :
  objects (snd (release_each_ client_id ids w)) = objects w.
Proof.
  revert w. induction ids as [|rel_id ids IH]; intros w; [done|].
  cbn [release_each]. unfold bind at 1.
  unfold call_backend, bind at 1, emit, modify.
  destruct (release basic_service client_id rel_id _) as [[rel|e] b]; [|done].
  unfold bind at 1.
  match goal with |- context [release_each_ client_id ids ?x] =>
    specialize (IH x); destruct (release_each_ client_id ids x) as [[l|e] w1]
  end; exact IH.
Qed.

Lemma call_backend_run {A} (c : BackendCall)
    (f : Backend -> Outcome A * Backend) (w : W) :
  call_backend Backend c f w
    = (fst (f (backend w)),
       set_backend Backend (snd (f (backend w))) (log_event (EBackend c) w)).
Proof.
  unfold call_backend, bind, emit, modify. cbn.
  by destruct (f (backend w)).
Qed.

(** The dispatch of a cacheable request that ends without a fault has a
    response, and leaves the cache objects alone. *)
Lemma dispatch_cacheable (client_id : string) (rc : nat) (req : DataRequest)
    (w w1 : W) (o : option ResponseBody) :
  _should_cache req = true ->
  dispatch_ client_id rc req w = (Returned o, w1) ->
  (exists b, o = Some b) /\ objects w1 = objects w.
Proof.
  intros Hc. unfold _should_cache in Hc. apply negb_true_iff in Hc.
  apply bool_decide_eq_false in Hc.
  destruct (decide (WhichOneof req = Some "init")) as [Hinit|Hinit].
  { intros Hd. destruct (dispatch_init _ _ _ _ _ _ Hinit Hd)
      as (_ & _ & Ho & r & ->). eauto. }
  unfold dispatch.
  rewrite (bool_decide_eq_false_2 _ Hinit).
  case_bool_decide as Hget; [exfalso; apply Hc; rewrite Hget; set_solver|].
  case_bool_decide as Hput.
  { unfold bind at 1, call_backend, bind at 1, emit, modify.
    destruct (_put_object basic_service _ _ _) as [[r|e] b]; [|discriminate].
    unfold ret. intros [= <- <-]. split; [eauto|reflexivity]. }
  case_bool_decide as Hrel.
  { unfold bind at 1.
    pose proof (release_each_objects client_id (release_ids req) w) as Ho.
    destruct (release_each_ client_id (release_ids req) w) as [[l|e] w2];
      [|discriminate].
    unfold ret. intros [= <- <-]. split; [eauto|exact Ho]. }
  case_bool_decide as Hinfo.
  { unfold _build_connection_response, bind at 1. unfold bind at 1.
    rewrite with_clients_lock_run. unfold gets, ret. cbn [fst snd].
    intros [= <- <-]. split; [eauto|reflexivity]. }
  case_bool_decide as Hprep.
  { unfold bind at 1. rewrite with_clients_lock_run, call_backend_run.
    cbn [fst snd].
    destruct (PrepRuntimeEnv basic_service _ _) as [[r|e] b];
      cbn [fst snd]; [|discriminate].
    unfold ret. intros [= <- <-]. split; [eauto|reflexivity]. }
  case_bool_decide as Hclean; [exfalso; apply Hc; rewrite Hclean; set_solver|].
  case_bool_decide as Hack; [exfalso; apply Hc; rewrite Hack; set_solver|].
  discriminate.
Qed.

(** An iteration answered from the cache: the stored response is yielded
    and nothing else happens. *)
Lemma handle_item_hit (client_id : string) (rc : nat) (req : DataRequest)
    (w : W) (cached_resp : DataResponse) :
  _should_cache req = true ->
  reconnect_enabled w = true ->
  check_cache (deref rc w) (req_id req) = CacheHit cached_resp ->
  handle_item_ client_id rc (QRequest req) w
    = (Returned tt,
       log_event (EYield cached_resp)
         (log_event (ECheckCache (req_id req)) w)).
Proof.
  intros Hc Hen Hhit. unfold handle_item, bind at 1, gets. cbv beta.
  rewrite Hc, Hen. cbn [andb]. unfold bind at 1, bind at 1, emit, modify.
  unfold bind at 1, gets.
  change (deref rc (log_event (ECheckCache (req_id req)) w)) with (deref rc w).
  rewrite Hhit. reflexivity.
Qed.


Lemma handle_item_failure (client_id : string) (rc : nat) (req : DataRequest)
    (w : W) (e : Fault) :
  _should_cache req = true ->
  reconnect_enabled w = true ->
  check_cache (deref rc w) (req_id req) = CacheFailure e ->
  fst (handle_item_ client_id rc (QRequest req) w) = Raised e.
Proof.
  intros Hc Hen Hfail. unfold handle_item, bind at 1, gets. cbv beta.
  rewrite Hc, Hen. cbn [andb]. unfold bind at 1, bind at 1, emit, modify.
  unfold bind at 1, gets.
  change (deref rc (log_event (ECheckCache (req_id req)) w)) with (deref rc w).
  rewrite Hfail. reflexivity.
Qed.

(** Modelled from the spec: a response stored where nothing was stored and
    the cache is not broken is what [check_cache] returns afterwards. *)
Lemma check_cache_after_update (c : OrderedResponseCache) (id : Z)
    (resp : DataResponse) :
  check_cache c id = CacheAbsent ->
  check_cache (update_cache c id resp) id = CacheHit resp.
Proof.
  unfold check_cache, update_cache.
  destruct (broken c) eqn:Hb; [discriminate|].
  destruct (entries c !! id) eqn:He; [discriminate|]. intros _. cbn.
  by rewrite lookup_insert_eq.
Qed.

(** The first delivery of a cacheable request, reconnection being enabled
    before and after it: its response is the last event, and is what the
    cache holds for the request id afterwards. *)
Lemma handle_item_caches (client_id : string) (rc : nat) (req : DataRequest)
    (w w1 : W) :
  _should_cache req = true ->
  reconnect_enabled w = true ->
  (rc < length (objects w))%nat ->
  handle_item_ client_id rc (QRequest req) w = (Returned tt, w1) ->
  reconnect_enabled w1 = true ->
  exists resp evs,
    trace w1 = trace w ++ evs ++ [EYield resp] /\
    check_cache (deref rc w1) (req_id req) = CacheHit resp.
Proof.
  intros Hc Hen Hrc Hrun Hen1.
  destruct (check_cache (deref rc w) (req_id req)) as [|r|e] eqn:Hcheck.
  - rewrite handle_item_miss in Hrun by (by rewrite Hcheck).
    rewrite Hc, Hen in Hrun. cbn [andb] in Hrun.
    destruct (loop_step_dispatch false true client_id rc req
                (log_event (ECheckCache (req_id req)) w))
      as (_ & evs & Ht & _); [done|].
    destruct (dispatch_ client_id rc req _) as [[o|e] wd] eqn:Hd;
      [|by destruct e].
    destruct (dispatch_cacheable _ _ _ _ _ _ Hc Hd) as ([b ->] & Hobj).
    cbn [fst snd] in Ht. cbv zeta in Hrun. injection Hrun as <-.
    cbn [reconnect_enabled log_event] in Hen1.
    assert (Hend : reconnect_enabled wd = true).
    { destruct (reconnect_enabled wd) eqn:E; [done|]. congruence. }
    rewrite Hend. cbn [andb].
    exists (mkResp (req_id req) b),
           ([ECheckCache (req_id req)] ++ evs ++ [EUpdateCache (req_id req)]).
    split.
    + cbn. rewrite Ht. cbn. by rewrite <- !app_assoc.
    + unfold deref at 1. cbn [objects log_event set_objects].
      rewrite list_lookup_insert_eq by (by rewrite Hobj).
      cbn [default].
      assert (Hsame : deref rc wd = deref rc w).
      { unfold deref. by rewrite Hobj. }
      rewrite Hsame. by apply check_cache_after_update.
  - rewrite (handle_item_hit _ _ _ _ r Hc Hen Hcheck) in Hrun.
    injection Hrun as <-. exists r, [ECheckCache (req_id req)]. split.
    + cbn. by rewrite <- app_assoc.
    + exact Hcheck.
  - pose proof (handle_item_failure client_id rc req w e Hc Hen Hcheck) as Hf.
    rewrite Hrun in Hf. discriminate Hf.
Qed.


(** What the iteration of a request that is not cacheable comes to: the
    dispatch, and the yield of its response if it has one. *)
Lemma handle_item_uncached (client_id : string) (rc : nat) (req : DataRequest)
    (w : W) :
  _should_cache req = false ->
  handle_item_ client_id rc (QRequest req) w
    = match dispatch_ client_id rc req w with
      | (Returned (Some b), w1) =>
          (Returned tt, log_event (EYield (mkResp (req_id req) b)) w1)
      | (Returned None, w1) => (Returned tt, w1)
      | (Raised e, w1) => (Raised e, w1)
      end.
Proof.
  intros Hc. rewrite handle_item_miss by (by rewrite Hc).
  rewrite Hc. cbn [andb]. by destruct (dispatch_ _ _ _ _) as [[[b|]|e] w1].
Qed.

Lemma dispatch_get_calls_backend (client_id : string) (rc : nat)
    (req : DataRequest) (w : W) :
  WhichOneof req = Some "get" ->
  exists evs,
    trace (snd (dispatch_ client_id rc req w))
      = trace w
        ++ EBackend (if get_asynchronous req
                     then CallAsyncGetObject client_id (req_id req)
                     else CallGetObject client_id) :: evs.
Proof.
  intros Hty. unfold dispatch. rewrite Hty.
  rewrite bool_decide_eq_false_2 by done.
  rewrite bool_decide_eq_true_2 by done.
  destruct (get_asynchronous req); unfold bind at 1;
    rewrite call_backend_run.
  - destruct (_async_get_object basic_service _ _ _ _) as [[[g|]|e] b];
      by exists [].
  - destruct (_get_object basic_service _ _ _) as [[g|e] b]; by exists [].
Qed.

(** Modelled from the spec: a stored response stays where it is when a
    response is stored, and when the entry of another request id is
    removed. *)
Lemma check_cache_update_keeps (c : OrderedResponseCache) (id id' : Z)
    (resp r : DataResponse) :
  check_cache c id = CacheHit resp ->
  check_cache (update_cache c id' r) id = CacheHit resp.
Proof.
  unfold check_cache, update_cache.
  destruct (broken c) eqn:Hb; [discriminate|].
  destruct (entries c !! id) as [r0|] eqn:He; [|discriminate]. intros [= ->].
  destruct (entries c !! id') eqn:He'; cbn; rewrite ?Hb.
  - by rewrite He.
  - destruct (decide (id' = id)) as [->|Hne]; [congruence|].
    by rewrite lookup_insert_ne, He.
Qed.

Lemma check_cache_cleanup_keeps (c : OrderedResponseCache) (id id' : Z)
    (resp : DataResponse) :
  id' <> id ->
  check_cache c id = CacheHit resp ->
  check_cache (cleanup c id') id = CacheHit resp.
Proof.
  intros Hne. unfold check_cache, cleanup. cbn. by rewrite lookup_delete_ne.
Qed.

Lemma check_cache_hit_in_range (rc : nat) (w : W) (id : Z)
    (resp : DataResponse) :
  check_cache (deref rc w) id = CacheHit resp ->
  (rc < length (objects w))%nat.
Proof.
  unfold deref. destruct (objects w !! rc) as [c|] eqn:E; [|discriminate].
  intros _. by apply lookup_lt_Some in E.
Qed.

Lemma deref_assign (rc : nat) (c : OrderedResponseCache) (w : W) :
  (rc < length (objects w))%nat ->
  deref rc (set_objects Backend (<[rc := c]> (objects w)) w) = c.
Proof. intros Hrc. unfold deref. cbn. by rewrite list_lookup_insert_eq. Qed.

(** Only an acknowledgement changes a cache object during the dispatch. *)
Lemma dispatch_objects (client_id : string) (rc : nat) (req : DataRequest)
    (w : W) :
  WhichOneof req <> Some "acknowledge" ->
  objects (snd (dispatch_ client_id rc req w)) = objects w.
Proof.
  intros Hack. unfold dispatch.
  case_bool_decide as Hinit.
  { unfold bind at 1. rewrite call_backend_run.
    destruct (Init basic_service _ _ _) as [[r|e] b]; cbn [fst snd]; [|done].
    unfold bind at 1. rewrite with_clients_lock_run. cbn [fst snd].
    unfold bind at 1, modify. cbn [fst snd].
    by case_bool_decide. }
  case_bool_decide as Hget.
  { destruct (get_asynchronous req); unfold bind at 1;
      rewrite call_backend_run.
    - by destruct (_async_get_object basic_service _ _ _ _) as [[[g|]|e] b].
    - by destruct (_get_object basic_service _ _ _) as [[g|e] b]. }
  case_bool_decide as Hput.
  { unfold bind at 1. rewrite call_backend_run.
    by destruct (_put_object basic_service _ _ _) as [[r|e] b]. }
  case_bool_decide as Hrel.
  { unfold bind at 1.
    pose proof (release_each_objects client_id (release_ids req) w) as Ho.
    by destruct (release_each_ client_id (release_ids req) w) as [[l|e] w2]. }
  case_bool_decide as Hinfo.
  { unfold _build_connection_response, bind at 1. unfold bind at 1.
    by rewrite with_clients_lock_run. }
  case_bool_decide as Hprep.
  { unfold bind at 1. rewrite with_clients_lock_run, call_backend_run.
    cbn [fst snd].
    by destruct (PrepRuntimeEnv basic_service _ _) as [[r|e] b]. }
  case_bool_decide as Hclean; [done|].
  by case_bool_decide.
Qed.

Lemma dispatch_keeps_hit (client_id : string) (rc : nat) (req : DataRequest)
    (w : W) (id : Z) (resp : DataResponse) :
  (WhichOneof req = Some "acknowledge" -> acknowledge_req_id req <> id) ->
  check_cache (deref rc w) id = CacheHit resp ->
  check_cache (deref rc (snd (dispatch_ client_id rc req w))) id
    = CacheHit resp.
Proof.
  intros Hack Hhit.
  destruct (decide (WhichOneof req = Some "acknowledge")) as [Hty|Hty].
  - pose proof (check_cache_hit_in_range _ _ _ _ Hhit) as Hrc.
    assert (E : snd (dispatch_ client_id rc req w)
                = set_objects Backend
                    (<[rc := cleanup (deref rc w) (acknowledge_req_id req)]>
                       (objects w))
                    (log_event (ECleanupCache (acknowledge_req_id req)) w)).
    { unfold dispatch. rewrite Hty. reflexivity. }
    rewrite E.
    change (check_cache
              (deref rc (set_objects Backend
                 (<[rc := cleanup (deref rc w) (acknowledge_req_id req)]>
                    (objects w)) w)) id
            = CacheHit resp).
    rewrite deref_assign by done.
    apply check_cache_cleanup_keeps; [by apply Hack|done].
  - unfold deref in *. by rewrite dispatch_objects.
Qed.

Lemma miss_keeps_hit (client_id : string) (rc : nat) (req : DataRequest)
    (w : W) (id : Z) (resp : DataResponse) :
  (WhichOneof req = Some "acknowledge" -> acknowledge_req_id req <> id) ->
  check_cache (deref rc w) id = CacheHit resp ->
  check_cache
    (deref rc
       (snd (match dispatch_ client_id rc req w with
             | (Returned (Some b), w1) =>
                 let resp := mkResp (req_id req) b in
                 (Returned tt,
                  log_event (EYield resp)
                    (if _should_cache req && reconnect_enabled w1
                     then set_objects Backend
                            (<[rc := update_cache (deref rc w1) (req_id req)
                                       resp]> (objects w1))
                            (log_event (EUpdateCache (req_id req)) w1)
                     else w1))
             | (Returned None, w1) => (Returned tt, w1)
             | (Raised e, w1) => (Raised e, w1)
             end))) id
    = CacheHit resp.
Proof.
  intros Hack Hhit.
  pose proof (dispatch_keeps_hit client_id rc req w id resp Hack Hhit) as Hd.
  destruct (dispatch_ client_id rc req w) as [[[b|]|e] wd];
    cbn [fst snd] in *; [|done|done].
  cbv zeta. destruct (_should_cache req && reconnect_enabled wd); [|exact Hd].
  change (check_cache
            (deref rc (set_objects Backend
               (<[rc := update_cache (deref rc wd) (req_id req)
                          (mkResp (req_id req) b)]> (objects wd)) wd)) id
          = CacheHit resp).
  rewrite deref_assign by (by apply (check_cache_hit_in_range rc wd id resp)).
  by apply check_cache_update_keeps.
Qed.

(** A response the cache holds is still held after an iteration of the
    loop, unless the iteration serves the acknowledgement of its request
    id. *)
Lemma handle_item_keeps_hit (client_id : string) (rc : nat) (item : QueueItem)
    (w : W) (id : Z) (resp : DataResponse) :
  (forall ack, item = QRequest ack ->
     WhichOneof ack = Some "acknowledge" -> acknowledge_req_id ack <> id) ->
  check_cache (deref rc w) id = CacheHit resp ->
  check_cache (deref rc (snd (handle_item_ client_id rc item w))) id
    = CacheHit resp.
Proof.
  intros Hack Hhit. destruct item as [req|r]; [|exact Hhit].
  specialize (Hack req eq_refl).
  assert (Hmiss : forall b : bool,
            check_cache
              (deref rc (if b then log_event (ECheckCache (req_id req)) w
                         else w)) id = CacheHit resp)
    by (by intros []).
  destruct (_should_cache req && reconnect_enabled w) eqn:Hon.
  - apply andb_true_iff in Hon as [Hc Hen].
    destruct (check_cache (deref rc w) (req_id req)) as [|r|e] eqn:Hcheck.
    + rewrite handle_item_miss by done. by apply miss_keeps_hit.
    + by rewrite (handle_item_hit _ _ _ _ r Hc Hen Hcheck).
    + unfold handle_item, bind at 1, gets. cbv beta.
      rewrite Hc, Hen. cbn [andb]. unfold bind at 1, bind at 1, emit, modify.
      unfold bind at 1, gets.
      change (deref rc (log_event (ECheckCache (req_id req)) w))
        with (deref rc w).
      by rewrite Hcheck.
  - rewrite handle_item_miss by (by rewrite Hon). by apply miss_keeps_hit.
Qed.

Lemma dispatch_loop_keeps_hit (client_id : string) (rc : nat)
    (items : list QueueItem) (w : W) (id : Z) (resp : DataResponse) :
  (forall ack, QRequest ack ∈ items ->
     WhichOneof ack = Some "acknowledge" -> acknowledge_req_id ack <> id) ->
  check_cache (deref rc w) id = CacheHit resp ->
  check_cache (deref rc (snd (dispatch_loop_ client_id rc items w))) id
    = CacheHit resp.
Proof.
  revert w. induction items as [|item items IH]; intros w Hack Hhit;
    [exact Hhit|].
  cbn [dispatch_loop]. unfold bind.
  pose proof (handle_item_keeps_hit client_id rc item w id resp) as Hstep.
  destruct (handle_item_ client_id rc item w) as [[[]|e] w1]; cbn [fst snd] in *.
  - apply IH.
    + intros ack Hin. apply Hack. by right.
    + apply Hstep; [|done]. intros ack ->. apply Hack. by left.
  - apply Hstep; [|done]. intros ack ->. apply Hack. by left.
Qed.

(** C2.  (1) While reconnection is enabled, once a cacheable request was
    served (its iteration ended without a fault, and left reconnection
    enabled), the response it yielded is stored in the response cache under
    its request id, and stays there whatever items the loop takes next, as
    long as none of them acknowledges that request id.  A cacheable request
    with the same id that is delivered after them, reconnection being
    enabled, yields that very response, and its iteration does nothing else
    than looking into the cache and yielding (no backend capability is
    called, no state changes); so does a delivery on any connection that
    holds the cache object as these items left it.  (2) The iteration of a
    request that is not cacheable (get, acknowledge, connection_cleanup) is
    the dispatch of the request followed by the yield of its response,
    whatever the cache holds: no cache lookup and no cache store is among
    its events, and for a get the backend is called on every delivery. *)
Theorem C2_cacheable_replayed_uncacheable_dispatched
    (client_id : string) (rc : nat) (req : DataRequest) (w : W) :
  (_should_cache req = true ->
   reconnect_enabled w = true ->
   (rc < length (objects w))%nat ->
   fst (handle_item_ client_id rc (QRequest req) w) = Returned tt ->
   let w1 := snd (handle_item_ client_id rc (QRequest req) w) in
   reconnect_enabled w1 = true ->
   exists resp evs,
     new_events w w1 = evs ++ [EYield resp] /\
     forall (between : list QueueItem) (req2 : DataRequest),
       let w2 := snd (dispatch_loop_ client_id rc between w1) in
       (forall ack, QRequest ack ∈ between ->
          WhichOneof ack = Some "acknowledge" ->
          acknowledge_req_id ack <> req_id req) ->
       req_id req2 = req_id req ->
       _should_cache req2 = true ->
       check_cache (deref rc w2) (req_id req) = CacheHit resp /\
       (reconnect_enabled w2 = true ->
        handle_item_ client_id rc (QRequest req2) w2
          = (Returned tt,
             log_event (EYield resp)
               (log_event (ECheckCache (req_id req)) w2))) /\
       (forall w3 : W,
          deref rc w3 = deref rc w2 ->
          reconnect_enabled w3 = true ->
          handle_item_ client_id rc (QRequest req2) w3
            = (Returned tt,
               log_event (EYield resp)
                 (log_event (ECheckCache (req_id req)) w3)))) /\
  (_should_cache req = false ->
   let w1 := snd (handle_item_ client_id rc (QRequest req) w) in
   handle_item_ client_id rc (QRequest req) w
     = match dispatch_ client_id rc req w with
       | (Returned (Some b), wd) =>
           (Returned tt, log_event (EYield (mkResp (req_id req) b)) wd)
       | (Returned None, wd) => (Returned tt, wd)
       | (Raised e, wd) => (Raised e, wd)
       end /\
   (forall id, (ECheckCache id ∉ new_events w w1) /\
               (EUpdateCache id ∉ new_events w w1)) /\
   (WhichOneof req = Some "get" ->
    EBackend (if get_asynchronous req
              then CallAsyncGetObject client_id (req_id req)
              else CallGetObject client_id) ∈ new_events w w1)).
Proof.
  split.
  - intros Hc Hen Hrc Hret. cbv zeta. intros Hen1.
    destruct (handle_item_ client_id rc (QRequest req) w) as [r w1] eqn:Hrun.
    cbn [fst snd] in *. subst r.
    destruct (handle_item_caches _ _ _ _ _ Hc Hen Hrc Hrun Hen1)
      as (resp & evs & Ht & Hhit).
    exists resp, evs. split; [by apply new_events_app|].
    intros between req2 Hack Hid Hc2.
    pose proof (dispatch_loop_keeps_hit client_id rc between w1 (req_id req)
                  resp Hack Hhit) as Hkept.
    split; [exact Hkept|]. split.
    + intros Hen2. rewrite <- Hid.
      apply handle_item_hit; [done|done|]. by rewrite Hid.
    + intros w3 Hsame Hen3. rewrite <- Hid.
      apply handle_item_hit; [done|done|]. by rewrite Hsame, Hid.
  - intros Hc. cbv zeta. split; [by apply handle_item_uncached|].
    rewrite (handle_item_uncached _ _ _ _ Hc).
    destruct (loop_step_dispatch false false client_id rc req w)
      as (_ & evs & Ht & Hf); [done|].
    assert (Hnew : exists evs',
              trace (snd (match dispatch_ client_id rc req w with
                          | (Returned (Some b), wd) =>
                              (Returned tt,
                               log_event (EYield (mkResp (req_id req) b)) wd)
                          | (Returned None, wd) => (Returned tt, wd)
                          | (Raised e, wd) => (Raised e, wd)
                          end))
                = trace w ++ evs ++ evs' /\
              Forall (fun e => loop_event false e = true) evs').
    { destruct (dispatch_ client_id rc req w) as [[[b|]|e] wd];
        cbn [fst snd] in *.
      - exists [EYield (mkResp (req_id req) b)]. cbn. rewrite Ht.
        split; [by rewrite <- app_assoc|]. by repeat constructor.
      - exists []. by rewrite app_nil_r.
      - exists []. by rewrite app_nil_r. }
    destruct Hnew as (evs' & Ht' & Hf').
    rewrite (new_events_app _ _ _ Ht'). split.
    + intros id. assert (Hall := proj2 (Forall_app _ _ _) (conj Hf Hf')).
      rewrite Forall_forall in Hall.
      split; intros Hin; apply Hall in Hin; discriminate Hin.
    + intros Hty.
      destruct (dispatch_get_calls_backend client_id rc req w Hty)
        as [evs0 Ht0].
      rewrite Ht0 in Ht. apply app_inv_head in Ht. rewrite <- Ht.
      apply elem_of_app. left. by left.
Qed.

(** ** Further properties of the servicer *)

(** *** The queue *)

Lemma iter_until_sentinel_stops (items : list QueueItem)
    (late : list (option QueueItem)) :
  iter_until_sentinel ((Some <$> items) ++ None :: late) = items.
Proof. induction items as [|item items IH]; cbn; [done|]. by rewrite IH. Qed.

(** *** The invocation metadata *)

Lemma metadata_dict_snoc (md : list (string * string)) (k v : string) :
  metadata_dict (md ++ [(k, v)]) = <[k := v]> (metadata_dict md).
Proof. unfold metadata_dict. by rewrite fold_left_app. Qed.

Lemma metadata_dict_lookup_Some (md : list (string * string)) (k v : string) :
  metadata_dict md !! k = Some v <->
  exists md1 md2, md = md1 ++ (k, v) :: md2 /\ forall v', (k, v') ∉ md2.
Proof.
  split.
  - revert v. induction md as [|[k' v'] md IH] using rev_ind; intros v.
    { unfold metadata_dict. cbn. by rewrite lookup_empty. }
    rewrite metadata_dict_snoc. destruct (decide (k' = k)) as [->|Hne].
    + rewrite lookup_insert_eq. intros [= ->]. exists md, [].
      split; [done|]. intros v'' Hin. by apply elem_of_nil in Hin.
    + rewrite lookup_insert_ne by done. intros Hl.
      destruct (IH v Hl) as (md1 & md2 & -> & Hno).
      exists md1, (md2 ++ [(k', v')]). split; [by rewrite <- app_assoc|].
      intros v'' Hin. apply elem_of_app in Hin as [Hin|Hin].
      * by apply (Hno v'').
      * apply list_elem_of_singleton in Hin. congruence.
  - intros (md1 & md2 & -> & Hno). revert Hno.
    induction md2 as [|[k' v'] md2 IH] using rev_ind; intros Hno.
    + rewrite metadata_dict_snoc. apply lookup_insert_eq.
    + rewrite app_comm_cons, app_assoc, metadata_dict_snoc.
      rewrite lookup_insert_ne.
      * apply IH. intros v'' Hin. apply (Hno v''). apply elem_of_app. by left.
      * intros ->. apply (Hno v'). apply elem_of_app. right.
        by apply list_elem_of_singleton.
Qed.

(** *** State changes of the dispatch loop *)

Section Reach.

Variable allowed : Event -> bool.
Variable client_id : string.
Variable rc : nat.

Hypothesis allowed_dispatch :
  forall e, dispatch_event e = true -> allowed e = true.

Local Abbreviation reaches_ := (reaches allowed client_id rc).

Lemma reaches_ret {A} (a : A) w : reaches_ (ret a) w.
Proof. apply rtc_refl. Qed.

Lemma reaches_raise {A} e w : reaches_ (raise (A:=A) e) w.
Proof. apply rtc_refl. Qed.

Lemma reaches_bind {A B} (m : M Backend A) (k : A -> M Backend B) w :
  reaches_ m w ->
  (forall a, fst (m w) = Returned a -> reaches_ (k a) (snd (m w))) ->
  reaches_ (bind m k) w.
Proof.
  unfold reaches, bind. intros Hm Hk.
  destruct (m w) as [[a|e] w1]; cbn in *; [|exact Hm].
  etrans; [exact Hm|]. by apply Hk.
Qed.

Lemma reaches_bind_gets {A B} (f : W -> A) (k : A -> M Backend B) w :
  reaches_ (k (f w)) w -> reaches_ (bind (gets f) k) w.
Proof. intros H. exact H. Qed.

Lemma reaches_modify (f : W -> W) w :
  touch allowed client_id rc w (f w) -> reaches_ (modify f) w.
Proof. intros H. by apply rtc_once. Qed.

Lemma reaches_emit e w : allowed e = true -> reaches_ (emit e) w.
Proof. intros H. apply reaches_modify. by constructor. Qed.

Lemma reaches_finally {A} (m : M Backend A) fin w :
  reaches_ m w -> reaches_ fin (snd (m w)) -> reaches_ (finally m fin) w.
Proof.
  unfold reaches, finally. intros Hm Hf.
  destruct (m w) as [r w1]; cbn in *. by etrans.
Qed.

Lemma reaches_try_except (m : M Backend unit) handler w :
  reaches_ m w ->
  (forall e, reaches_ (handler e) (snd (m w))) ->
  reaches_ (try_except m handler) w.
Proof.
  unfold reaches, try_except. intros Hm Hh.
  destruct (m w) as [[a|e] w1]; cbn in *; [exact Hm|].
  etrans; [exact Hm|]. apply Hh.
Qed.

Lemma reaches_with_lock {A} (m : M Backend A) w :
  (forall w1, reaches_ m w1) ->
  reaches_ (with_clients_lock Backend other_connections m) w.
Proof.
  intros Hm. unfold with_clients_lock, acquire, release_lock, interleave.
  apply reaches_bind.
  { apply reaches_bind; [apply reaches_modify, touch_interleave|]. intros _ _.
    apply reaches_bind; [apply reaches_modify, touch_lock|]. intros _ _.
    by apply reaches_emit, allowed_dispatch. }
  intros _ _. apply reaches_finally; [apply Hm|].
  apply reaches_bind; [apply reaches_modify, touch_lock|]. intros _ _.
  by apply reaches_emit, allowed_dispatch.
Qed.

Lemma reaches_call_backend {A} c (f : Backend -> Outcome A * Backend) w :
  reaches_ (call_backend Backend c f) w.
Proof.
  unfold reaches. rewrite call_backend_run. cbn [snd].
  etrans; apply rtc_once; [|apply touch_backend].
  by apply touch_event, allowed_dispatch.
Qed.

Lemma reaches_release_each ids w :
  reaches_ (release_each_ client_id ids) w.
Proof.
  revert w. induction ids as [|rel_id ids IH]; intros w; cbn.
  - apply reaches_ret.
  - apply reaches_bind; [apply reaches_call_backend|]. intros rel _.
    apply reaches_bind; [apply IH|]. intros released _.
    apply reaches_ret.
Qed.

Lemma reaches_dispatch req w : reaches_ (dispatch_ client_id rc req) w.
Proof.
  unfold dispatch, _build_connection_response.
  repeat first
    [ apply reaches_ret
    | apply reaches_raise
    | apply reaches_call_backend
    | apply reaches_release_each
    | (apply reaches_emit, allowed_dispatch; reflexivity)
    | (apply reaches_with_lock; intros ?)
    | apply reaches_bind_gets
    | (apply reaches_modify; by constructor)
    | (apply reaches_bind; [|intros ? ?])
    | case_bool_decide
    | case_match ].
Qed.

Hypothesis allowed_cache :
  forall e,
    match e with
    | ECheckCache _ | EUpdateCache _ | EYield _ => allowed e = true
    | _ => True
    end.

Lemma reaches_handle_item item w :
  reaches_ (handle_item_ client_id rc item) w.
Proof.
  destruct item as [req|resp]; cbn.
  2: { apply reaches_emit. apply (allowed_cache (EYield resp)). }
  apply reaches_bind_gets. apply reaches_bind.
  - destruct (_should_cache req && reconnect_enabled w); [|apply reaches_ret].
    apply reaches_bind.
    { apply reaches_emit. apply (allowed_cache (ECheckCache (req_id req))). }
    intros _ _. apply reaches_bind_gets.
    destruct (check_cache _ _) as [|r|e];
      [apply reaches_ret| |apply reaches_raise].
    apply reaches_bind; [|intros; apply reaches_ret].
    apply reaches_emit. apply (allowed_cache (EYield r)).
  - intros replayed _. destruct replayed; [apply reaches_ret|].
    apply reaches_bind; [apply reaches_dispatch|]. intros [b|] _.
    2: apply reaches_ret.
    match goal with |- reaches _ _ _ _ ?x => generalize x end. intros w2.
    apply reaches_bind_gets. apply reaches_bind.
    + destruct (_should_cache req && reconnect_enabled w2); [|apply reaches_ret].
      apply reaches_bind.
      { apply reaches_emit. apply (allowed_cache (EUpdateCache (req_id req))). }
      intros _ _. apply reaches_bind_gets.
      apply reaches_modify. apply touch_cache_update.
    + intros _ _. apply reaches_emit.
      apply (allowed_cache (EYield (mkResp (req_id req) b))).
Qed.

Lemma reaches_dispatch_loop items w :
  reaches_ (dispatch_loop_ client_id rc items) w.
Proof.
  revert w. induction items as [|item items IH]; intros w; cbn.
  - apply reaches_ret.
  - apply reaches_bind; [apply reaches_handle_item|]. intros _ _. apply IH.
Qed.

Hypothesis allowed_invalidate : forall e, allowed (EInvalidate e) = true.

Lemma reaches_on_exception e w : reaches_ (on_exception_ rc e) w.
Proof.
  unfold on_exception. apply reaches_bind_gets.
  destruct (_propagate_error_in_context e (context w)) as [rec ctx'].
  apply reaches_bind; [apply reaches_modify, touch_context|]. intros _ _.
  apply reaches_bind; [apply reaches_emit, allowed_invalidate|]. intros _ _.
  match goal with |- reaches _ _ _ _ ?x => generalize x end. intros w2.
  apply reaches_bind_gets.
  pose proof (touch_cache_invalidate allowed client_id rc cache_refuses e w2)
    as Ht.
  destruct (invalidate cache_refuses (deref rc w2) e) as [c' inv].
  apply reaches_bind; [by apply reaches_modify|]. intros _ _.
  destruct (negb rec || inv); [|apply reaches_ret].
  unfold context_set_code.
  apply reaches_bind; [apply reaches_modify, touch_context|]. intros _ _.
  apply reaches_modify, touch_cleanup_requested.
Qed.

Lemma reaches_loop_and_except items w :
  reaches_ (try_except (dispatch_loop_ client_id rc items) (on_exception_ rc)) w.
Proof.
  apply reaches_try_except; [apply reaches_dispatch_loop|].
  intros e. apply reaches_on_exception.
Qed.

End Reach.

(** What a sequence of such state changes leaves in place. *)

Lemma touch_trace allowed client_id rc (w w' : W) :
  rtc (touch allowed client_id rc) w w' ->
  exists evs, trace w' = trace w ++ evs /\
              Forall (fun e => allowed e = true) evs.
Proof.
  induction 1 as [w|w w1 w' Hstep _ (evs & Ht & Hf)].
  - exists []. by rewrite app_nil_r.
  - destruct Hstep; cbn in Ht; try (exists evs; by split).
    exists (e :: evs). rewrite Ht, <- app_assoc. split; [done|].
    by constructor.
Qed.

Lemma touch_mono (allowed allowed' : Event -> bool) client_id rc (w w' : W) :
  (forall e, allowed e = true -> allowed' e = true) ->
  rtc (touch allowed client_id rc) w w' ->
  rtc (touch allowed' client_id rc) w w'.
Proof.
  intros Hsub. induction 1 as [w|w w1 w' Hstep _ IH]; [apply rtc_refl|].
  eapply rtc_l; [|exact IH]. destruct Hstep; try by constructor.
  apply touch_event. by apply Hsub.
Qed.

Lemma touch_objects allowed client_id rc (w w' : W) :
  rtc (touch allowed client_id rc) w w' ->
  length (objects w') = length (objects w) /\
  forall l, l <> rc -> objects w' !! l = objects w !! l.
Proof.
  induction 1 as [w|w w1 w' Hstep _ [Hlen Hoth]]; [done|].
  destruct Hstep; cbn in Hlen, Hoth; try done;
    rewrite length_insert in Hlen; (split; [done|]);
    intros l Hl; rewrite (Hoth l Hl); by apply list_lookup_insert_ne.
Qed.

Lemma touch_registry allowed client_id rc (I : Registry -> Prop) (w w' : W) :
  (forall n r, I r -> I (other_connections n r)) ->
  (forall g r, I r -> I (set_grace_period client_id g r)) ->
  rtc (touch allowed client_id rc) w w' ->
  I (registry w) -> I (registry w').
Proof.
  intros Hother Hgrace.
  induction 1 as [w|w w1 w' Hstep _ IH]; [done|].
  intros HI. apply IH. destruct Hstep; cbn; try done.
  - by apply Hother.
  - by apply Hgrace.
Qed.

Lemma well_keyed_empty : well_keyed empty_cache.
Proof. intros id resp. cbn. by rewrite lookup_empty. Qed.

Lemma well_keyed_cleanup c id : well_keyed c -> well_keyed (cleanup c id).
Proof.
  intros Hc id' resp. cbn. rewrite lookup_delete_Some. intros [_ H].
  by apply Hc.
Qed.

Lemma well_keyed_update_cache c id b :
  well_keyed c -> well_keyed (update_cache c id (mkResp id b)).
Proof.
  intros Hc. unfold update_cache. destruct (entries c !! id); [done|].
  intros id' resp. cbn. rewrite lookup_insert_Some.
  intros [[<- <-]|[_ H]]; [done|]. by apply Hc.
Qed.

Lemma well_keyed_invalidate refuses c e :
  well_keyed c -> well_keyed (fst (invalidate refuses c e)).
Proof. intros Hc. unfold invalidate. by destruct (refuses c e). Qed.

Lemma well_keyed_assign rc c (w : W) :
  well_keyed (deref rc w) -> well_keyed c ->
  well_keyed (deref rc (set_objects Backend (<[rc := c]> (objects w)) w)).
Proof.
  intros Hw Hc. unfold deref in *. cbn.
  destruct (objects w !! rc) as [c0|] eqn:E.
  - apply lookup_lt_Some in E. by rewrite list_lookup_insert_eq.
  - pose proof E as E'. apply lookup_ge_None in E'.
    rewrite list_insert_ge by done. by rewrite E.
Qed.

Lemma touch_well_keyed allowed client_id rc (w w' : W) :
  rtc (touch allowed client_id rc) w w' ->
  well_keyed (deref rc w) -> well_keyed (deref rc w').
Proof.
  induction 1 as [w|w w1 w' Hstep _ IH]; [done|].
  intros Hw. apply IH. destruct Hstep; try exact Hw.
  - by apply well_keyed_assign, well_keyed_cleanup.
  - by apply well_keyed_assign, well_keyed_update_cache.
  - by apply well_keyed_assign, well_keyed_invalidate.
Qed.

(** *** The phases of a run of [Datapath] *)

Lemma seen_set_cleanup_requested f (w : W) :
  seen (set_cleanup_requested Backend f w) = seen w.
Proof. reflexivity. Qed.

Lemma init_cases (client_id : string) (start_time : Z) (w : W) :
  let w' := snd (init_ client_id start_time w) in
  objects w' = objects w /\
  backend w' = backend w /\
  trace w' = trace w ++ [EAcquire; ERelease] /\
  ticks w' = S (ticks w) /\
  clients_lock w' = false /\
  ((fst (init_ client_id start_time w) = Returned false /\
    registry w' = seen w /\
    (num_clients (seen w) >= thr \/
     (_get_reconnecting_from_context (context w) = true /\
      client_last_seen (seen w) !! client_id = None))) \/
   (fst (init_ client_id start_time w) = Returned true /\
    num_clients (seen w) < thr /\
    is_Some (client_last_seen (seen w) !! client_id) /\
    registry w' = set_last_seen client_id start_time (seen w)) \/
   (fst (init_ client_id start_time w) = Returned true /\
    num_clients (seen w) < thr /\
    _get_reconnecting_from_context (context w) = false /\
    client_last_seen (seen w) !! client_id = None /\
    registry w'
      = set_last_seen client_id start_time (incr_num_clients (seen w)))).
Proof.
  run. fold (seen w). rewrite <- ?app_assoc.
  case_bool_decide as Hthr; cbn; rewrite <- ?app_assoc.
  { repeat (split; [done|]). left. auto. }
  destruct (_get_reconnecting_from_context (context w)) eqn:Hrec;
    destruct (client_last_seen (seen w) !! client_id) as [t0|] eqn:Hseen; cbn;
    rewrite <- ?app_assoc; repeat (split; [done|]).
  - right; left. repeat split; eauto; lia.
  - left. auto.
  - right; left. repeat split; eauto; lia.
  - right; right. repeat split; eauto; lia.
Qed.

Lemma get_response_cache_run (client_id : string) (w : W) :
  get_response_cache_ client_id w
    = match response_caches (seen w) !! client_id with
      | Some l => (Returned l, interleaved w)
      | None =>
          (Returned (length (objects w)),
           set_registry Backend
             (set_response_cache client_id (length (objects w)) (seen w))
             (set_objects Backend (objects w ++ [empty_cache])
                          (interleaved w)))
      end.
Proof.
  unfold get_response_cache, interleave, modify, gets, bind, ret. cbn.
  fold (seen w). by destruct (response_caches (seen w) !! client_id).
Qed.

(** A run for a connection with a client id: admission, the lookup of the
    response cache, then either nothing more, or the loop with its [except]
    block from [w3] to some [w4] followed by the [finally] block. *)
Lemma Datapath_phases (request_queue : list (option QueueItem))
    (start_time : Z) (w : W) (client_id : string) :
  metadata_dict (invocation_metadata (context w)) !! "client_id"
    = Some client_id ->
  let w1 := snd (init_ client_id start_time
                   (set_cleanup_requested Backend false w)) in
  let w3 := set_reconnect_enabled Backend true
              (snd (get_response_cache_ client_id w1)) in
  exists rc w4,
    fst (get_response_cache_ client_id w1) = Returned rc /\
    w4 = snd (try_except
                (dispatch_loop_ client_id rc (iter_until_sentinel request_queue))
                (on_exception_ rc) w3) /\
    rtc (touch (loop_event true) client_id rc) w3 w4 /\
    (fst (init_ client_id start_time w) = Returned false ->
       Datapath_ request_queue start_time w = (Returned tt, w3)) /\
    (fst (init_ client_id start_time w) = Returned true ->
       Datapath_ request_queue start_time w
         = (Returned tt, snd (teardown_ client_id start_time w4))).
Proof.
  intros Hmd w1 w3.
  destruct (get_response_cache_returns client_id w1) as [rc Hrc].
  exists rc. eexists. split; [exact Hrc|]. split; [reflexivity|]. split.
  { apply (reaches_loop_and_except (loop_event true) client_id rc).
    - by intros [].
    - by intros [].
    - done. }
  pose proof (init_ignores_cleanup_flag client_id start_time false w) as Hig.
  unfold Datapath, bind, modify, gets. cbv beta.
  change (context (set_cleanup_requested Backend false w)) with (context w).
  rewrite Hmd. subst w3 w1. rewrite Hig in *. cbn [fst snd] in *.
  destruct (init_ client_id start_time w) as [[acc|e] wi]; cbn [fst snd] in *.
  2: { split; intros; discriminate. }
  destruct (get_response_cache_ client_id _) as [o2 w2].
  cbn [fst snd] in *. subst o2.
  split; intros [= ->]; cbn [negb]; [reflexivity|].
  unfold finally.
  match goal with |- context [try_except ?m ?h ?x] =>
    pose proof (on_exception_returns rc) as Hr;
    unfold try_except in *;
    destruct (m x) as [[[]|e] wd]
  end.
  - reflexivity.
  - specialize (Hr e wd). destruct (on_exception_ rc e wd) as [r wf].
    cbn [fst snd] in *. by subst r.
Qed.

(** *** The queue, the metadata, admission *)

(** X1.  The loop takes from the queue exactly the requests that
    [fill_queue] read from the input stream, in the order read, whether the
    stream ended or broke with an RPC error; whatever is put on the queue
    after the sentinel is never taken. *)
Theorem fill_queue_hands_over_requests_until_sentinel
    (grpc_input : list DataRequest) (rpc_error : bool)
    (late : list (option QueueItem)) :
  iter_until_sentinel (fill_queue grpc_input rpc_error ++ late)
    = QRequest <$> grpc_input.
Proof.
  unfold fill_queue. rewrite <- app_assoc. cbn [app].
  induction grpc_input as [|req reqs IH]; cbn; [done|]. by rewrite IH.
Qed.

(** X2.  [_get_reconnecting_from_context] answers [True] exactly when the
    last metadata pair with the key [reconnecting] has the value ["True"];
    a missing key, or any other value, reads as [False]. *)
Theorem reconnecting_is_last_metadata_value_True (ctx : Context) :
  _get_reconnecting_from_context ctx = true <->
  exists md1 md2,
    invocation_metadata ctx = md1 ++ ("reconnecting", "True") :: md2 /\
    forall v, ("reconnecting", v) ∉ md2.
Proof.
  rewrite <- metadata_dict_lookup_Some. unfold _get_reconnecting_from_context.
  destruct (metadata_dict (invocation_metadata ctx) !! "reconnecting")
    as [val|]; [|done].
  destruct (decide (val = "True")) as [->|Hne].
  - done.
  - rewrite (bool_decide_eq_false_2 _ Hne). cbn [orb].
    destruct (bool_decide (val = "False")); cbn; split; congruence.
Qed.

(** X3.  The decision of [_init]: a connection is accepted exactly when
    the number of clients read under the lock is below the threshold and,
    if it says it is reconnecting, the client id has a session entry.  A
    connection that does not say so is accepted with or without one. *)
Theorem init_accepts_iff (client_id : string) (start_time : Z) (w : W) :
  fst (init_ client_id start_time w) = Returned true <->
  num_clients (seen w) < thr /\
  (_get_reconnecting_from_context (context w) = true ->
   is_Some (client_last_seen (seen w) !! client_id)).
Proof.
  destruct (init_cases client_id start_time w)
    as (_ & _ & _ & _ & _ & Hcases).
  destruct Hcases as [(Hf & _ & Hwhy)|[(Ht & Hlt & Hs & _)|(Ht & Hlt & Hr & _)]].
  - rewrite Hf. split; [discriminate|]. intros [Hlt Hrec].
    destruct Hwhy as [Hge|[Hr Hnone]]; [lia|].
    specialize (Hrec Hr). rewrite Hnone in Hrec. by destruct Hrec.
  - rewrite Ht. split; [|done]. auto.
  - rewrite Ht. split; [|done]. intros _. split; [done|]. congruence.
Qed.

(** X4.  What an accepted connection changes: [_init] sets the last-seen
    time of the client id to the start time of the connection, and adds one
    to the counter of clients exactly when the client id had no session
    entry; the other last-seen times, the grace periods, the dictionary of
    response caches and the context are left as they were. *)
Theorem init_accepted_effects (client_id : string) (start_time : Z) (w : W) :
  fst (init_ client_id start_time w) = Returned true ->
  let w' := snd (init_ client_id start_time w) in
  client_last_seen (registry w')
    = <[client_id := start_time]> (client_last_seen (seen w)) /\
  num_clients (registry w')
    = match client_last_seen (seen w) !! client_id with
      | Some _ => num_clients (seen w)
      | None => num_clients (seen w) + 1
      end /\
  reconnect_grace_periods (registry w') = reconnect_grace_periods (seen w) /\
  response_caches (registry w') = response_caches (seen w) /\
  context w' = context w /\
  clients_lock w' = false.
Proof.
  intros Hacc. cbv zeta.
  destruct (init_cases client_id start_time w)
    as (_ & _ & _ & _ & Hlock & Hcases).
  assert (Hctx : context (snd (init_ client_id start_time w)) = context w).
  { destruct (client_last_seen (seen w) !! client_id) as [t0|] eqn:Hs.
    - destruct Hcases as [(Hf & _)|[(_ & Hlt & _)|(_ & _ & _ & Hn & _)]];
        [congruence| |congruence].
      by destruct (init_accepts_known_session w client_id start_time t0 Hlt Hs)
        as (_ & ? & _).
    - destruct Hcases as [(Hf & _)|[(_ & _ & [? Hn] & _)|(_ & Hlt & Hr & _)]];
        [congruence|congruence|].
      by destruct (init_accepts_new_session w client_id start_time Hlt Hr Hs)
        as (_ & ? & _). }
  destruct Hcases as [(Hf & _)|[(_ & _ & [t0 Hs] & ->)|(_ & _ & _ & Hs & ->)]].
  - congruence.
  - rewrite Hs. cbn. auto 10.
  - rewrite Hs. cbn. auto 10.
Qed.

(** *** Requests of the loop *)

Lemma release_each_cons (client_id rel_id : string) (ids : list string)
    (w : W) :
  release_each_ client_id (rel_id :: ids) w
    = match release basic_service client_id rel_id (backend w) with
      | (Returned rel, b) =>
          match release_each_ client_id ids
                  (set_backend Backend b
                     (log_event (EBackend (CallRelease client_id rel_id)) w))
          with
          | (Returned released, w1) => (Returned (rel :: released), w1)
          | (Raised e, w1) => (Raised e, w1)
          end
      | (Raised e, b) =>
          (Raised e,
           set_backend Backend b
             (log_event (EBackend (CallRelease client_id rel_id)) w))
      end.
Proof.
  cbn [release_each]. unfold bind at 1. rewrite call_backend_run.
  destruct (release basic_service client_id rel_id (backend w)) as [[rel|e] b];
    cbn [fst snd]; [|done].
  unfold bind, ret. by destruct (release_each_ client_id ids _) as [[l|e] w1].
Qed.

Lemma release_each_run (client_id : string) (ids : list string) (w : W) :
  exists n,
    (n <= length ids)%nat /\
    trace (snd (release_each_ client_id ids w))
      = trace w ++ ((fun id => EBackend (CallRelease client_id id))
                      <$> take n ids) /\
    registry (snd (release_each_ client_id ids w)) = registry w /\
    (forall released,
       fst (release_each_ client_id ids w) = Returned released ->
       n = length ids /\ length released = length ids).
Proof.
  revert w. induction ids as [|rel_id ids IH]; intros w.
  { exists 0%nat. cbn. rewrite app_nil_r. split; [done|]. split; [done|].
    split; [done|]. by intros ? [= <-]. }
  rewrite release_each_cons.
  destruct (release basic_service client_id rel_id (backend w)) as [[rel|e] b].
  - match goal with |- context [release_each_ client_id ids ?x] =>
      destruct (IH x) as (n & Hn & Ht & Hr & Hl);
      destruct (release_each_ client_id ids x) as [[l|e] w1]
    end; cbn [fst snd] in *.
    + exists (S n). split; [cbn [length]; lia|]. split.
      { rewrite Ht. cbn. by rewrite <- app_assoc. }
      split; [exact Hr|]. intros ? [= <-].
      destruct (Hl l eq_refl) as [-> Hlen]. cbn. by rewrite Hlen.
    + exists (S n). split; [cbn [length]; lia|]. split.
      { rewrite Ht. cbn. by rewrite <- app_assoc. }
      split; [exact Hr|]. intros ? [=].
  - exists 1%nat. cbn [fst snd]. split; [cbn [length]; lia|].
    split; [by destruct ids|]. split; [done|]. intros ? [=].
Qed.

(** X5.  A release request calls the backend's [release] once for each
    listed id, in the listed order, stopping at the first call that raises;
    when none raises, the response carries one flag per listed id.  The
    registry and the cache objects are not touched. *)
Theorem release_request_calls_backend_per_id
    (client_id : string) (rc : nat) (req : DataRequest) (w : W) :
  WhichOneof req = Some "release" ->
  exists n,
    (n <= length (release_ids req))%nat /\
    trace (snd (dispatch_ client_id rc req w))
      = trace w ++ ((fun id => EBackend (CallRelease client_id id))
                      <$> take n (release_ids req)) /\
    registry (snd (dispatch_ client_id rc req w)) = registry w /\
    objects (snd (dispatch_ client_id rc req w)) = objects w /\
    (forall o,
       fst (dispatch_ client_id rc req w) = Returned o ->
       n = length (release_ids req) /\
       exists released,
         o = Some (release_resp released) /\
         length released = length (release_ids req)).
Proof.
  intros Hty. unfold dispatch. rewrite Hty.
  do 3 rewrite bool_decide_eq_false_2 by done.
  rewrite bool_decide_eq_true_2 by done.
  destruct (release_each_run client_id (release_ids req) w)
    as (n & Hn & Ht & Hr & Hl).
  pose proof (release_each_objects client_id (release_ids req) w) as Ho.
  exists n. unfold bind.
  destruct (release_each_ client_id (release_ids req) w) as [[l|e] w1];
    cbn [fst snd] in *.
  - do 4 (split; [done|]). unfold ret. intros o [= <-].
    destruct (Hl l eq_refl) as [-> Hlen]. eauto.
  - do 4 (split; [done|]). intros o [=].
Qed.

(** X6.  The only requests that the loop serves without sending a response
    are the acknowledge request and the asynchronous get whose result is
    not ready yet: every other dispatch that returns has a response. *)
Theorem no_response_only_for_acknowledge_or_pending_get
    (client_id : string) (rc : nat) (req : DataRequest) (w w1 : W) :
  dispatch_ client_id rc req w = (Returned None, w1) ->
  WhichOneof req = Some "acknowledge" \/
  (WhichOneof req = Some "get" /\ get_asynchronous req = true).
Proof.
  intros Hd. destruct (_should_cache req) eqn:Hc.
  { destruct (dispatch_cacheable _ _ _ _ _ _ Hc Hd) as [[b Hb] _].
    discriminate Hb. }
  revert Hd. unfold dispatch.
  case_bool_decide as Hinit.
  { unfold _should_cache in Hc. by rewrite Hinit in Hc. }
  case_bool_decide as Hget.
  { destruct (get_asynchronous req); [auto|].
    unfold bind. rewrite call_backend_run.
    destruct (_get_object basic_service _ _ _) as [[g|e] b]; discriminate. }
  case_bool_decide as Hput.
  { unfold _should_cache in Hc. by rewrite Hput in Hc. }
  case_bool_decide as Hrel.
  { unfold _should_cache in Hc. by rewrite Hrel in Hc. }
  case_bool_decide as Hinfo.
  { unfold _should_cache in Hc. by rewrite Hinfo in Hc. }
  case_bool_decide as Hprep.
  { unfold _should_cache in Hc. by rewrite Hprep in Hc. }
  case_bool_decide as Hclean; [discriminate|].
  case_bool_decide as Hack; [auto|discriminate].
Qed.

(** *** Teardown and reconnection *)

Lemma teardown_locked_registry (client_id : string) (start_time last_seen : Z)
    (w : W) :
  client_last_seen (registry w) !! client_id = Some last_seen ->
  last_seen <= start_time ->
  registry (snd (teardown_locked_ client_id start_time w))
    = remove_client client_id (registry w).
Proof.
  intros Hs Hle. rewrite (teardown_locked_cleans _ _ _ _ Hs Hle). cbn [snd].
  by case_bool_decide.
Qed.

(** X7.  Once the locked part of the [finally] block has removed a
    client's session, running it again for that client (for any connection
    of it, whatever its start time) changes nothing: the resources are
    released once and the counter of clients goes down once. *)
Theorem second_teardown_changes_nothing
    (client_id : string) (start_time start_time' last_seen : Z) (w : W) :
  client_last_seen (registry w) !! client_id = Some last_seen ->
  last_seen <= start_time ->
  let w1 := snd (teardown_locked_ client_id start_time w) in
  registry w1 = remove_client client_id (registry w) /\
  num_clients (registry w1) = num_clients (registry w) - 1 /\
  teardown_locked_ client_id start_time' w1 = (Returned tt, w1).
Proof.
  intros Hs Hle. cbv zeta.
  pose proof (teardown_locked_registry _ _ _ _ Hs Hle) as Hreg.
  split; [exact Hreg|]. split; [by rewrite Hreg|].
  apply teardown_locked_absent. rewrite Hreg. cbn. apply lookup_delete_eq.
Qed.

(** X8.  After [_init] accepted a connection of a client, the locked part
    of the [finally] block of a connection of the same client that started
    earlier changes nothing, so the session outlives the older connection;
    run for a connection that started at the same time or later, it
    removes the session. *)
Theorem accepted_connection_outlives_older_ones
    (client_id : string) (start_time older : Z) (w : W) :
  fst (init_ client_id start_time w) = Returned true ->
  let w1 := snd (init_ client_id start_time w) in
  (older < start_time ->
   teardown_locked_ client_id older w1 = (Returned tt, w1)) /\
  (forall later, start_time <= later ->
   registry (snd (teardown_locked_ client_id later w1))
     = remove_client client_id (registry w1)).
Proof.
  intros Hacc. cbv zeta.
  assert (Hs : client_last_seen
                 (registry (snd (init_ client_id start_time w))) !! client_id
               = Some start_time).
  { destruct (init_cases client_id start_time w)
      as (_ & _ & _ & _ & _ & [(Hf & _)|[(_ & _ & _ & ->)|(_ & _ & _ & _ & ->)]]);
      [congruence| |]; cbn; apply lookup_insert_eq. }
  split.
  - intros Hlt. apply (teardown_locked_reconnected _ _ start_time); [done|lia].
  - intros later Hle. by apply (teardown_locked_registry _ _ start_time).
Qed.

(** X9.  A connection that [_init] refuses still looks up
    [response_caches[client_id]] before it returns: the run ends normally
    with the two lock events of [_init] as its only events, no call of the
    backend and no [finally] block, and the dictionary of response caches
    has an entry for the client id; if there was none when the dictionary
    was read, a new empty cache object was made for it. *)
Theorem refused_connection_leaves_cache_entry
    (request_queue : list (option QueueItem)) (start_time : Z) (w : W)
    (client_id : string) :
  metadata_dict (invocation_metadata (context w)) !! "client_id"
    = Some client_id ->
  fst (init_ client_id start_time w) = Returned false ->
  let w' := snd (Datapath_ request_queue start_time w) in
  fst (Datapath_ request_queue start_time w) = Returned tt /\
  trace w' = trace w ++ [EAcquire; ERelease] /\
  backend w' = backend w /\
  is_Some (response_caches (registry w') !! client_id) /\
  (response_caches
     (seen (snd (init_ client_id start_time w))) !! client_id = None ->
   objects w' = objects w ++ [empty_cache] /\
   response_caches (registry w') !! client_id = Some (length (objects w))).
Proof.
  intros Hmd Hrej. cbv zeta.
  destruct (Datapath_phases request_queue start_time w client_id Hmd)
    as (rc & w4 & _ & _ & _ & Hrun & _).
  rewrite (Hrun Hrej). cbn [fst snd]. clear Hrun.
  rewrite init_ignores_cleanup_flag. cbn [snd].
  destruct (init_cases client_id start_time w)
    as (Hobj & Hback & Htr & _ & _ & _).
  set (w1 := snd (init_ client_id start_time w)) in *. clearbody w1.
  rewrite get_response_cache_run.
  change (seen (set_cleanup_requested Backend false w1)) with (seen w1).
  destruct (response_caches (seen w1) !! client_id) as [l|] eqn:Hl;
    cbn [snd]; cbn;
    change (seen (set_cleanup_requested Backend false w1)) with (seen w1).
  - rewrite Hl. do 3 (split; [done|]). split; [eauto|]. intros [=].
  - rewrite lookup_insert_eq, Hobj. do 3 (split; [done|]).
    split; [eauto|]. done.
Qed.

(** *** Invariants of a run *)

Lemma counter_matches_refresh (client_id : string) (t : Z) (r : Registry) :
  counter_matches_sessions r ->
  is_Some (client_last_seen r !! client_id) ->
  counter_matches_sessions (set_last_seen client_id t r).
Proof.
  unfold counter_matches_sessions. cbn. intros H Hs.
  by rewrite map_size_insert_Some.
Qed.

Lemma counter_matches_new (client_id : string) (t : Z) (r : Registry) :
  counter_matches_sessions r ->
  client_last_seen r !! client_id = None ->
  counter_matches_sessions (set_last_seen client_id t (incr_num_clients r)).
Proof.
  unfold counter_matches_sessions. cbn. intros H Hs.
  rewrite map_size_insert_None by done. lia.
Qed.

Lemma counter_matches_remove (client_id : string) (last_seen : Z)
    (r : Registry) :
  counter_matches_sessions r ->
  client_last_seen r !! client_id = Some last_seen ->
  counter_matches_sessions (remove_client client_id r).
Proof.
  unfold counter_matches_sessions. cbn. intros H Hs.
  rewrite map_size_delete, Hs.
  assert (size (client_last_seen r) <> 0%nat).
  { intros E. apply map_size_empty_iff in E. rewrite E in Hs.
    by rewrite lookup_empty in Hs. }
  lia.
Qed.

Lemma teardown_objects (client_id : string) (start_time : Z) (w : W) :
  objects (snd (teardown_ client_id start_time w)) = objects w.
Proof.
  rewrite teardown_run. cbn [snd].
  assert (Ho : objects (locked (before_lock client_id w)) = objects w).
  { unfold locked, before_lock.
    destruct (reconnect_grace_periods (seen w) !! client_id);
      [destruct (cleanup_requested w)|]; reflexivity. }
  set (wl := locked (before_lock client_id w)) in *. clearbody wl.
  destruct (client_last_seen (registry wl) !! client_id) as [ls|] eqn:Hs.
  - destruct (Z_le_gt_dec ls start_time) as [Hle|Hgt].
    + rewrite (teardown_locked_cleans _ _ _ _ Hs Hle). cbn [snd].
      by case_bool_decide.
    + by rewrite (teardown_locked_reconnected _ _ _ _ Hs Hgt).
  - by rewrite (teardown_locked_absent _ _ _ Hs).
Qed.

(** A property of the registry that each write of [Datapath] keeps, and
    that the other connections keep, holds when [Datapath] returns. *)
Lemma Datapath_keeps_registry (I : Registry -> Prop)
    (request_queue : list (option QueueItem)) (start_time : Z) (w : W) :
  (forall n r, I r -> I (other_connections n r)) ->
  (forall client_id g r, I r -> I (set_grace_period client_id g r)) ->
  (forall client_id l r, I r -> I (set_response_cache client_id l r)) ->
  (forall client_id t r,
     I r -> is_Some (client_last_seen r !! client_id) ->
     I (set_last_seen client_id t r)) ->
  (forall client_id t r,
     I r -> num_clients r < thr -> client_last_seen r !! client_id = None ->
     I (set_last_seen client_id t (incr_num_clients r))) ->
  (forall client_id last_seen r,
     I r -> client_last_seen r !! client_id = Some last_seen ->
     I (remove_client client_id r)) ->
  I (registry w) ->
  I (registry (snd (Datapath_ request_queue start_time w))).
Proof.
  intros Hother Hgrace Hcache Hrefresh Hnew Hremove Hw.
  destruct (metadata_dict (invocation_metadata (context w)) !! "client_id")
    as [client_id|] eqn:Hmd;
    [|by rewrite (Datapath_without_client_id _ _ _ Hmd)].
  destruct (Datapath_phases request_queue start_time w client_id Hmd)
    as (rc & w4 & _ & _ & Hloop & Hrej & Hacc).
  set (w0 := set_cleanup_requested Backend false w) in *.
  assert (H1 : I (registry (snd (init_ client_id start_time w0)))).
  { destruct (init_cases client_id start_time w0)
      as (_ & _ & _ & _ & _
          & [(_ & -> & _)|[(_ & _ & Hs & ->)|(_ & Hlt & _ & Hs & ->)]]).
    - by apply Hother.
    - apply Hrefresh; [by apply Hother|done].
    - apply Hnew; [by apply Hother|done|done]. }
  set (w1 := snd (init_ client_id start_time w0)) in *. clearbody w1.
  assert (H3 : I (registry (set_reconnect_enabled Backend true
                              (snd (get_response_cache_ client_id w1))))).
  { rewrite get_response_cache_run.
    destruct (response_caches (seen w1) !! client_id); cbn;
      [|apply Hcache]; by apply Hother. }
  set (w3 := set_reconnect_enabled Backend true _) in *. clearbody w3.
  assert (H4 : I (registry w4)).
  { by apply (touch_registry _ _ _ I _ _ Hother (Hgrace client_id) Hloop). }
  destruct (init_returns client_id start_time w) as [[|] Hb];
    [rewrite (Hacc Hb)|by rewrite (Hrej Hb)].
  cbn [snd].
  destruct (teardown_decision client_id start_time w4)
    as (_ & _ & waits & acts & _ & _ & _ & Ha1 & Ha2 & Ha3).
  set (held := other_connections (S (ticks w4)) (seen w4)) in *.
  assert (Hheld : I held) by (by apply Hother, Hother).
  destruct (client_last_seen held !! client_id) as [ls|] eqn:Hs.
  - destruct (Z_le_gt_dec ls start_time) as [Hle|Hgt].
    + destruct (Ha3 ls eq_refl Hle) as [-> _]. by apply (Hremove _ ls).
    + by destruct (Ha2 ls eq_refl Hgt) as (_ & -> & _).
  - by destruct (Ha1 eq_refl) as (_ & -> & _).
Qed.

Lemma Datapath_keeps_counter (request_queue : list (option QueueItem))
    (start_time : Z) (w : W) :
  (forall n r, counter_matches_sessions r ->
               counter_matches_sessions (other_connections n r)) ->
  counter_matches_sessions (registry w) ->
  counter_matches_sessions
    (registry (snd (Datapath_ request_queue start_time w))).
Proof.
  intros Hother. apply Datapath_keeps_registry; try done.
  - intros client_id t r H Hs. by apply counter_matches_refresh.
  - intros client_id t r H _ Hs. by apply counter_matches_new.
  - intros client_id ls r H Hs. by apply (counter_matches_remove _ ls).
Qed.

(** X10.  The counter of clients always equals the number of session
    entries: this holds when the servicer is made, and a run of [Datapath]
    on any queue, with or without faults, keeps it, provided the other
    connections (which run the same code) keep it.  In particular the
    counter never goes below zero. *)
Theorem counter_of_clients_counts_sessions :
  counter_matches_sessions __init__ /\
  forall (request_queue : list (option QueueItem)) (start_time : Z) (w : W),
    (forall n r, counter_matches_sessions r ->
                 counter_matches_sessions (other_connections n r)) ->
    counter_matches_sessions (registry w) ->
    counter_matches_sessions
      (registry (snd (Datapath_ request_queue start_time w))) /\
    0 <= num_clients (registry (snd (Datapath_ request_queue start_time w))).
Proof.
  split; [reflexivity|]. intros request_queue start_time w Hother Hw.
  pose proof (Datapath_keeps_counter request_queue start_time w Hother Hw)
    as Hkept.
  split; [exact Hkept|]. unfold counter_matches_sessions in Hkept.
  rewrite Hkept. lia.
Qed.

Lemma well_keyed_deref (rc : nat) (w : W) :
  Forall well_keyed (objects w) -> well_keyed (deref rc w).
Proof.
  intros Hall. unfold deref. destruct (objects w !! rc) as [c|] eqn:E.
  - apply (Forall_lookup_1 _ _ _ _ Hall E).
  - apply well_keyed_empty.
Qed.

Lemma touch_all_well_keyed allowed client_id rc (w w' : W) :
  rtc (touch allowed client_id rc) w w' ->
  Forall well_keyed (objects w) -> Forall well_keyed (objects w').
Proof.
  induction 1 as [w|w w1 w' Hstep _ IH]; [done|].
  intros Hw. apply IH. pose proof (well_keyed_deref rc w Hw) as Hrc.
  destruct Hstep; try exact Hw; cbn; apply Forall_insert; try done.
  - by apply well_keyed_cleanup.
  - by apply well_keyed_update_cache.
  - by apply well_keyed_invalidate.
Qed.

(** X11.  If every response held by the cache objects is stored under its
    own request id, this is still so after a run of [Datapath]: the loop
    stores a response only under the id of the request it answers, which is
    also the id written into the response. *)
Theorem cached_responses_keep_their_request_id
    (request_queue : list (option QueueItem)) (start_time : Z) (w : W) :
  Forall well_keyed (objects w) ->
  Forall well_keyed (objects (snd (Datapath_ request_queue start_time w))).
Proof.
  intros Hw.
  destruct (metadata_dict (invocation_metadata (context w)) !! "client_id")
    as [client_id|] eqn:Hmd;
    [|by rewrite (Datapath_without_client_id _ _ _ Hmd)].
  destruct (Datapath_phases request_queue start_time w client_id Hmd)
    as (rc & w4 & _ & _ & Hloop & Hrej & Hacc).
  set (w0 := set_cleanup_requested Backend false w) in *.
  assert (H1 : Forall well_keyed (objects (snd (init_ client_id start_time w0)))).
  { by destruct (init_cases client_id start_time w0) as (-> & _). }
  set (w1 := snd (init_ client_id start_time w0)) in *. clearbody w1.
  assert (H3 : Forall well_keyed
                 (objects (set_reconnect_enabled Backend true
                             (snd (get_response_cache_ client_id w1))))).
  { rewrite get_response_cache_run.
    destruct (response_caches (seen w1) !! client_id); [done|]. cbn.
    apply Forall_app. split; [done|]. repeat constructor.
    apply well_keyed_empty. }
  set (w3 := set_reconnect_enabled Backend true _) in *. clearbody w3.
  pose proof (touch_all_well_keyed _ _ _ _ _ Hloop H3) as H4.
  destruct (init_returns client_id start_time w) as [[|] Hb].
  - rewrite (Hacc Hb). cbn [snd]. by rewrite teardown_objects.
  - by rewrite (Hrej Hb).
Qed.

(** X12.  The loop and the [except] block of a connection change no cache
    object but the one the connection holds, and neither make nor drop a
    cache object. *)
Theorem loop_changes_only_its_own_cache
    (client_id : string) (rc : nat) (items : list QueueItem) (w : W) :
  let w' := snd (try_except (dispatch_loop_ client_id rc items)
                            (on_exception_ rc) w) in
  length (objects w') = length (objects w) /\
  forall l, l <> rc -> objects w' !! l = objects w !! l.
Proof.
  apply (touch_objects (loop_event true) client_id rc).
  apply reaches_loop_and_except; [by intros []|by intros []|done].
Qed.

Lemma same_sessions_refl (client_id : string) (r : Registry) :
  same_sessions client_id r r.
Proof. by repeat split. Qed.

(** X13.  While no other connection changes the registry, the loop and the
    [except] block of a connection leave the counter of clients, the
    last-seen times and the dictionary of response caches as they are, and
    change no grace period but the one of their own client id. *)
Theorem loop_writes_only_its_own_grace_period
    (client_id : string) (rc : nat) (items : list QueueItem) (w : W) :
  (forall n r, other_connections n r = r) ->
  same_sessions client_id (registry w)
    (registry (snd (try_except (dispatch_loop_ client_id rc items)
                               (on_exception_ rc) w))).
Proof.
  intros Halone.
  apply (touch_registry (loop_event true) client_id rc
           (same_sessions client_id (registry w)) w).
  - intros n r. by rewrite Halone.
  - intros g r (Hn & Hl & Hc & Hg). repeat split; try done.
    intros k Hk. cbn. rewrite lookup_insert_ne by done. by apply Hg.
  - apply reaches_loop_and_except; [by intros []|by intros []|done].
  - apply same_sessions_refl.
Qed.

(** *** The responses of the loop *)

Lemma yields_app (evs1 evs2 : list Event) :
  yields (evs1 ++ evs2) = yields evs1 ++ yields evs2.
Proof. apply omap_app. Qed.

Lemma yields_dispatch_events (evs : list Event) :
  Forall (fun e => dispatch_event e = true) evs -> yields evs = [].
Proof.
  induction 1 as [|e evs He _ IH]; [done|].
  destruct e; try discriminate He; exact IH.
Qed.

Lemma dispatch_yields_nothing (client_id : string) (rc : nat)
    (req : DataRequest) (w : W) :
  exists evs,
    trace (snd (dispatch_ client_id rc req w)) = trace w ++ evs /\
    yields evs = [].
Proof.
  destruct (touch_trace dispatch_event client_id rc w
              (snd (dispatch_ client_id rc req w))) as (evs & Ht & Hf).
  { by apply reaches_dispatch. }
  exists evs. split; [exact Ht|]. by apply yields_dispatch_events.
Qed.

Lemma handle_item_failure_run (client_id : string) (rc : nat)
    (req : DataRequest) (w : W) (e : Fault) :
  _should_cache req = true ->
  reconnect_enabled w = true ->
  check_cache (deref rc w) (req_id req) = CacheFailure e ->
  handle_item_ client_id rc (QRequest req) w
    = (Raised e, log_event (ECheckCache (req_id req)) w).
Proof.
  intros Hc Hen Hfail. unfold handle_item, bind at 1, gets. cbv beta.
  rewrite Hc, Hen. cbn [andb]. unfold bind at 1, bind at 1, emit, modify.
  unfold bind at 1, gets.
  change (deref rc (log_event (ECheckCache (req_id req)) w)) with (deref rc w).
  rewrite Hfail. reflexivity.
Qed.

Lemma handle_item_miss_yields (client_id : string) (rc : nat)
    (req : DataRequest) (w : W) :
  (_should_cache req && reconnect_enabled w = true ->
   check_cache (deref rc w) (req_id req) = CacheAbsent) ->
  exists evs,
    trace (snd (handle_item_ client_id rc (QRequest req) w)) = trace w ++ evs /\
    (yields evs = [] \/
     exists resp, yields evs = [resp] /\ resp_req_id resp = req_id req).
Proof.
  intros Hmiss. rewrite (handle_item_miss _ _ _ _ Hmiss).
  set (w0 := if _should_cache req && reconnect_enabled w
             then log_event (ECheckCache (req_id req)) w else w).
  assert (H0 : exists evs0, trace w0 = trace w ++ evs0 /\ yields evs0 = []).
  { subst w0. destruct (_should_cache req && reconnect_enabled w).
    - by exists [ECheckCache (req_id req)].
    - exists []. by rewrite app_nil_r. }
  destruct H0 as (evs0 & Ht0 & Hy0). clearbody w0.
  destruct (dispatch_yields_nothing client_id rc req w0) as (evsd & Htd & Hyd).
  destruct (dispatch_ client_id rc req w0) as [[[b|]|e] w1]; cbn [fst snd] in *.
  - destruct (_should_cache req && reconnect_enabled w1).
    + exists (evs0 ++ evsd ++ [EUpdateCache (req_id req);
                               EYield (mkResp (req_id req) b)]).
      split; [cbn; rewrite Htd, Ht0, <- !app_assoc; done|].
      right. exists (mkResp (req_id req) b).
      rewrite !yields_app, Hy0, Hyd. done.
    + exists (evs0 ++ evsd ++ [EYield (mkResp (req_id req) b)]).
      split; [cbn; rewrite Htd, Ht0, <- !app_assoc; done|].
      right. exists (mkResp (req_id req) b).
      rewrite !yields_app, Hy0, Hyd. done.
  - exists (evs0 ++ evsd). split; [by rewrite Htd, Ht0, <- app_assoc|].
    left. by rewrite yields_app, Hy0, Hyd.
  - exists (evs0 ++ evsd). split; [by rewrite Htd, Ht0, <- app_assoc|].
    left. by rewrite yields_app, Hy0, Hyd.
Qed.

Lemma check_cache_hit_keyed (c : OrderedResponseCache) (id : Z)
    (resp : DataResponse) :
  well_keyed c -> check_cache c id = CacheHit resp -> resp_req_id resp = id.
Proof.
  intros Hc. unfold check_cache. destruct (broken c); [discriminate|].
  destruct (entries c !! id) as [r|] eqn:E; [|discriminate].
  intros [= <-]. by apply Hc.
Qed.

(** One iteration yields at most one response, and it carries the id of
    the item taken. *)
Lemma handle_item_yields (client_id : string) (rc : nat) (item : QueueItem)
    (w : W) :
  well_keyed (deref rc w) ->
  exists evs,
    trace (snd (handle_item_ client_id rc item w)) = trace w ++ evs /\
    (yields evs = [] \/
     exists resp, yields evs = [resp] /\ resp_req_id resp = item_id item).
Proof.
  intros Hwk. destruct item as [req|resp].
  2: { exists [EYield resp]. split; [done|]. right. by exists resp. }
  cbn [item_id].
  destruct (_should_cache req && reconnect_enabled w) eqn:En.
  - apply andb_true_iff in En as [Hc Hen].
    destruct (check_cache (deref rc w) (req_id req)) as [|r|e] eqn:Hcheck.
    + by apply handle_item_miss_yields.
    + rewrite (handle_item_hit _ _ _ _ r Hc Hen Hcheck).
      exists [ECheckCache (req_id req); EYield r]. split.
      { cbn. by rewrite <- app_assoc. }
      right. exists r. split; [done|].
      by apply (check_cache_hit_keyed (deref rc w)).
    + rewrite (handle_item_failure_run _ _ _ _ e Hc Hen Hcheck).
      exists [ECheckCache (req_id req)]. split; [done|]. by left.
  - apply handle_item_miss_yields. rewrite En. discriminate.
Qed.

Lemma dispatch_loop_yields (client_id : string) (rc : nat)
    (items : list QueueItem) (w : W) :
  well_keyed (deref rc w) ->
  exists evs,
    trace (snd (dispatch_loop_ client_id rc items w)) = trace w ++ evs /\
    (resp_req_id <$> yields evs) `sublist_of` (item_id <$> items).
Proof.
  revert w. induction items as [|item items IH]; intros w Hwk.
  { exists []. cbn. rewrite app_nil_r. split; [done|]. constructor. }
  destruct (handle_item_yields client_id rc item w Hwk) as (evs1 & Ht1 & Hy1).
  assert (Hwk1 : well_keyed (deref rc (snd (handle_item_ client_id rc item w)))).
  { apply (touch_well_keyed (loop_event true) client_id rc w); [|done].
    apply reaches_handle_item; [by intros []|by intros []]. }
  assert (Hsub1 : forall rest,
            (resp_req_id <$> yields evs1)
              `sublist_of` (item_id item :: rest) /\
            forall ids, ids `sublist_of` rest ->
              ((resp_req_id <$> yields evs1) ++ ids)
                `sublist_of` (item_id item :: rest)).
  { intros rest. destruct Hy1 as [->|(resp & -> & <-)]; cbn.
    - split; [apply sublist_nil_l|]. intros ids Hs. by apply sublist_cons.
    - split; [apply sublist_skip, sublist_nil_l|].
      intros ids Hs. by apply sublist_skip. }
  cbn [dispatch_loop]. unfold bind.
  destruct (handle_item_ client_id rc item w) as [[[]|e] w1];
    cbn [fst snd] in *.
  - destruct (IH w1 Hwk1) as (evs2 & Ht2 & Hy2).
    exists (evs1 ++ evs2). split; [by rewrite Ht2, Ht1, <- app_assoc|].
    rewrite yields_app, fmap_app. cbn [fmap list_fmap]. by apply Hsub1.
  - exists evs1. split; [done|]. cbn [fmap list_fmap]. apply Hsub1.
Qed.

(** X14.  The responses that the loop yields answer the items of the
    queue in the order they were taken: each item has at most one response,
    and a response carries the request id of its item (for a response
    replayed from the cache this rests on the cache holding each response
    under its own id).  This holds also when the loop ends with a fault. *)
Theorem responses_follow_queue_order
    (client_id : string) (rc : nat) (items : list QueueItem) (w : W) :
  well_keyed (deref rc w) ->
  (resp_req_id
     <$> yields (new_events w (snd (dispatch_loop_ client_id rc items w))))
    `sublist_of` (item_id <$> items).
Proof.
  intros Hwk.
  destruct (dispatch_loop_yields client_id rc items w Hwk) as (evs & Ht & Hs).
  by rewrite (new_events_app _ _ _ Ht).
Qed.

(** *** A session from connection to cleanup *)

Lemma touch_same_sessions allowed (client_id : string) (rc : nat) (w w' : W) :
  (forall n r, other_connections n r = r) ->
  rtc (touch allowed client_id rc) w w' ->
  same_sessions client_id (registry w) (registry w').
Proof.
  intros Halone Hreach.
  apply (touch_registry allowed client_id rc
           (same_sessions client_id (registry w)) w w'); [| |done|].
  - intros n r. by rewrite Halone.
  - intros g r (Hn & Hl & Hc & Hg). repeat split; try done.
    intros k Hk. cbn. rewrite lookup_insert_ne by done. by apply Hg.
  - apply same_sessions_refl.
Qed.

(** X15.  A client without any entry in the registry that connects (not
    as a reconnection, below the threshold) while no other connection
    changes the registry: whatever its queue holds and however its loop
    ends, when [Datapath] returns the registry is the one the connection
    found.  The session entry, the grace period and the response cache
    entry made for the client are all removed and the counter of clients is
    back at its value. *)
Theorem lone_session_leaves_registry_as_found
    (request_queue : list (option QueueItem)) (start_time : Z) (w : W)
    (client_id : string) :
  (forall n r, other_connections n r = r) ->
  metadata_dict (invocation_metadata (context w)) !! "client_id"
    = Some client_id ->
  _get_reconnecting_from_context (context w) = false ->
  num_clients (registry w) < thr ->
  client_last_seen (registry w) !! client_id = None ->
  reconnect_grace_periods (registry w) !! client_id = None ->
  response_caches (registry w) !! client_id = None ->
  fst (Datapath_ request_queue start_time w) = Returned tt /\
  registry (snd (Datapath_ request_queue start_time w)) = registry w.
Proof.
  intros Halone Hmd Hrec Hlt Hls Hgp Hrc.
  assert (Hseen : forall w' : W, seen w' = registry w').
  { intros w'. unfold seen. apply Halone. }
  destruct (Datapath_phases request_queue start_time w client_id Hmd)
    as (rc & w4 & _ & _ & Hloop & _ & Hacc).
  assert (Hb : fst (init_ client_id start_time w) = Returned true).
  { apply init_accepts_new_session; rewrite ?Hseen; done. }
  rewrite (Hacc Hb). cbn [fst snd]. split; [done|]. clear Hacc Hb.
  set (w0 := set_cleanup_requested Backend false w) in *.
  destruct (init_accepts_new_session w0 client_id start_time)
    as (_ & _ & H1); rewrite ?Hseen; try done.
  rewrite Hseen in H1. change (registry w0) with (registry w) in H1.
  set (w1 := snd (init_ client_id start_time w0)) in *. clearbody w1.
  pose proof (touch_same_sessions _ _ _ _ _ Halone Hloop) as Hss.
  assert (H3 : registry (set_reconnect_enabled Backend true
                           (snd (get_response_cache_ client_id w1)))
               = set_response_cache client_id (length (objects w1))
                   (set_last_seen client_id start_time
                      (incr_num_clients (registry w)))).
  { rewrite get_response_cache_run, Hseen, H1. cbn. by rewrite Hrc. }
  rewrite H3 in Hss. destruct Hss as (Hn & Hl & Hc & Hg).
  cbn in Hn, Hl, Hc, Hg.
  destruct (teardown_decision client_id start_time w4)
    as (_ & _ & waits & acts & _ & _ & _ & _ & _ & Ha3).
  rewrite !Hseen, Halone in Ha3.
  destruct (Ha3 start_time) as [-> _]; [|lia|].
  { rewrite Hl. apply lookup_insert_eq. }
  destruct (registry w) as [n ls gp rcs].
  destruct (registry w4) as [n4 ls4 gp4 rcs4].
  cbn in *. subst n4 ls4 rcs4. unfold remove_client. cbn. f_equal.
  - lia.
  - by apply delete_insert_id.
  - apply map_eq. intros k. destruct (decide (k = client_id)) as [->|Hk].
    + by rewrite lookup_delete_eq.
    + rewrite lookup_delete_ne by done. by apply Hg.
  - by apply delete_insert_id.
Qed.

(** *** More on single requests *)

(** X16.  A connection_info request is answered with the counter of
    clients as it is read while the lock is held; the lock is taken and
    given back, the backend is not called, and the handler itself changes
    nothing in the registry. *)
Theorem connection_info_reports_counter_under_lock
    (client_id : string) (rc : nat) (req : DataRequest) (w : W) :
  WhichOneof req = Some "connection_info" ->
  let w' := snd (dispatch_ client_id rc req w) in
  fst (dispatch_ client_id rc req w)
    = Returned (Some (connection_info_resp (num_clients (seen w)))) /\
  trace w' = trace w ++ [EAcquire; ERelease] /\
  registry w' = seen w /\
  backend w' = backend w /\
  objects w' = objects w /\
  clients_lock w' = false.
Proof.
  intros Hty. unfold dispatch. rewrite Hty.
  do 4 rewrite bool_decide_eq_false_2 by done.
  rewrite bool_decide_eq_true_2 by done.
  unfold _build_connection_response, bind.
  rewrite with_clients_lock_run. cbn. rewrite <- app_assoc. done.
Qed.

(** X17.  A prep_runtime_env request calls the backend's [PrepRuntimeEnv]
    once, while the lock is held, and the lock is given back whether the
    call returns or raises; a fault of the call is the fault of the
    dispatch. *)
Theorem prep_runtime_env_runs_under_lock
    (client_id : string) (rc : nat) (req : DataRequest) (w : W) :
  WhichOneof req = Some "prep_runtime_env" ->
  let w' := snd (dispatch_ client_id rc req w) in
  trace w' = trace w ++ [EAcquire; EBackend CallPrepRuntimeEnv; ERelease] /\
  clients_lock w' = false /\
  registry w' = seen w /\
  objects w' = objects w /\
  fst (dispatch_ client_id rc req w)
    = match fst (PrepRuntimeEnv basic_service (prep_runtime_env_env req)
                   (backend w)) with
      | Returned r => Returned (Some (prep_runtime_env_resp r))
      | Raised e => Raised e
      end.
Proof.
  intros Hty. unfold dispatch. rewrite Hty.
  do 5 rewrite bool_decide_eq_false_2 by done.
  rewrite bool_decide_eq_true_2 by done.
  unfold bind. rewrite with_clients_lock_run, call_backend_run.
  cbn [fst snd].
  change (backend (locked w)) with (backend w).
  destruct (PrepRuntimeEnv basic_service _ (backend w)) as [[r|e] b];
    cbn; rewrite <- !app_assoc; done.
Qed.

Lemma dispatch_connection_cleanup (client_id : string) (rc : nat)
    (req : DataRequest) (w : W) :
  WhichOneof req = Some "connection_cleanup" ->
  dispatch_ client_id rc req w
    = (Returned (Some connection_cleanup_resp),
       set_cleanup_requested Backend true w).
Proof.
  intros Hty. unfold dispatch. rewrite Hty.
  do 6 rewrite bool_decide_eq_false_2 by done.
  by rewrite bool_decide_eq_true_2.
Qed.

Lemma touch_keeps_cleanup_requested allowed client_id rc (w w' : W) :
  rtc (touch allowed client_id rc) w w' ->
  cleanup_requested w = true -> cleanup_requested w' = true.
Proof.
  induction 1 as [w|w w1 w' Hstep _ IH]; [done|].
  intros Hw. apply IH. by destruct Hstep.
Qed.

Lemma dispatch_loop_keeps_cleanup_requested (client_id : string) (rc : nat)
    (items : list QueueItem) (w : W) :
  cleanup_requested w = true ->
  cleanup_requested (snd (dispatch_loop_ client_id rc items w)) = true.
Proof.
  apply (touch_keeps_cleanup_requested (loop_event true) client_id rc).
  apply reaches_dispatch_loop; by intros [].
Qed.

Lemma dispatch_loop_cleanup_request (client_id : string) (rc : nat)
    (items : list QueueItem) (req : DataRequest) (w : W) :
  QRequest req ∈ items ->
  WhichOneof req = Some "connection_cleanup" ->
  fst (dispatch_loop_ client_id rc items w) = Returned tt ->
  cleanup_requested (snd (dispatch_loop_ client_id rc items w)) = true.
Proof.
  intros Hin Hty. revert w.
  induction items as [|item items IH]; intros w.
  { by apply elem_of_nil in Hin. }
  cbn [dispatch_loop]. unfold bind.
  apply elem_of_cons in Hin as [<-|Hin].
  - rewrite handle_item_uncached by (unfold _should_cache; by rewrite Hty).
    rewrite (dispatch_connection_cleanup _ _ _ _ Hty).
    intros _. by apply dispatch_loop_keeps_cleanup_requested.
  - destruct (handle_item_ client_id rc item w) as [[[]|e] w1];
      [|discriminate]. by apply IH.
Qed.

(** X18.  When the loop has taken a connection_cleanup request from the
    queue and has ended without a fault, cleanup is requested, whatever
    came before or after that request, and the [finally] block then waits
    for no grace period. *)
Theorem cleanup_request_skips_grace_period
    (client_id : string) (rc : nat) (items : list QueueItem)
    (req : DataRequest) (start_time : Z) (w : W) :
  QRequest req ∈ items ->
  WhichOneof req = Some "connection_cleanup" ->
  fst (dispatch_loop_ client_id rc items w) = Returned tt ->
  let w' := snd (dispatch_loop_ client_id rc items w) in
  cleanup_requested w' = true /\
  forall delay,
    EWait delay ∉ new_events w' (snd (teardown_ client_id start_time w')).
Proof.
  intros Hin Hty Hret. cbv zeta.
  pose proof (dispatch_loop_cleanup_request _ _ _ _ _ Hin Hty Hret) as Hc.
  split; [exact Hc|]. by apply teardown_no_wait.
Qed.

(** *** More on admission *)

(** X19.  On a server without clients, a connection that is not a
    reconnection is accepted exactly when the thread budget
    [CLIENT_SERVER_MAX_THREADS] is at least two: with a smaller budget the
    threshold [int(budget / 2)] is zero or less and every connection is
    refused with RESOURCE_EXHAUSTED. *)
Theorem first_client_needs_thread_budget_of_two
    (client_id : string) (start_time : Z) (w : W) :
  (num_clients (seen w) = 0 ->
   _get_reconnecting_from_context (context w) = false ->
   (fst (init_ client_id start_time w) = Returned true <->
    2 <= CLIENT_SERVER_MAX_THREADS)) /\
  (CLIENT_SERVER_MAX_THREADS < 2 ->
   0 <= num_clients (seen w) ->
   fst (init_ client_id start_time w) = Returned false /\
   code (context (snd (init_ client_id start_time w)))
     = Some RESOURCE_EXHAUSTED).
Proof.
  assert (Hthr : thr <= 0 <-> CLIENT_SERVER_MAX_THREADS < 2).
  { unfold threshold. split.
    - intros Hq. destruct (Z_lt_ge_dec CLIENT_SERVER_MAX_THREADS 2); [done|].
      assert (1 <= Z.quot CLIENT_SERVER_MAX_THREADS 2); [|lia].
      change 1 with (Z.quot 2 2). apply Z.quot_le_mono; lia.
    - intros Hlt. change 0 with (Z.quot 1 2). apply Z.quot_le_mono; lia. }
  split.
  - intros Hzero Hrec. split.
    + intros Hacc.
      destruct (Z_lt_ge_dec CLIENT_SERVER_MAX_THREADS 2) as [Hlt|Hge]; [|lia].
      destruct (init_rejects_at_threshold w client_id start_time) as [E _];
        [apply Hthr in Hlt; lia|congruence].
    + intros Hge.
      assert (num_clients (seen w) < thr) by (rewrite Hzero; lia).
      destruct (client_last_seen (seen w) !! client_id) as [t0|] eqn:E.
      * by destruct (init_accepts_known_session w client_id start_time t0).
      * by destruct (init_accepts_new_session w client_id start_time).
  - intros Hlt Hnonneg. apply Hthr in Hlt.
    destruct (init_rejects_at_threshold w client_id start_time)
      as (E1 & E2 & _); [lia|]. by rewrite E1, E2.
Qed.

(** *** The response cache of a client *)

(** The lookup of [response_caches[client_id]] when the entry names the
    object [rc]. *)
Lemma get_response_cache_known (client_id : string) (rc : nat) (w : W) :
  response_caches (seen w) !! client_id = Some rc ->
  get_response_cache_ client_id w = (Returned rc, interleaved w).
Proof. intros Hl. by rewrite get_response_cache_run, Hl. Qed.

(** The loop and the [except] block leave the entry of the client in
    [response_caches] alone, if the other connections do. *)
Lemma loop_keeps_response_cache (client_id : string) (rc l : nat)
    (items : list QueueItem) (w : W) :
  (forall n r, response_caches (other_connections n r) !! client_id
               = response_caches r !! client_id) ->
  response_caches (registry w) !! client_id = Some l ->
  response_caches
    (registry (snd (try_except (dispatch_loop_ client_id rc items)
                               (on_exception_ rc) w))) !! client_id
    = Some l.
Proof.
  intros Hkeep.
  apply (touch_registry (loop_event true) client_id rc
           (fun r => response_caches r !! client_id = Some l) w).
  - intros n r. by rewrite Hkeep.
  - done.
  - apply reaches_loop_and_except; [by intros []|by intros []|done].
Qed.

(** The [finally] block leaves the entry alone too, unless it removes the
    session. *)
Lemma teardown_keeps_response_cache (client_id : string) (l : nat)
    (start_time : Z) (w : W) :
  (forall n r, response_caches (other_connections n r) !! client_id
               = response_caches r !! client_id) ->
  response_caches (registry w) !! client_id = Some l ->
  let w' := snd (teardown_ client_id start_time w) in
  response_caches (registry w') !! client_id = Some l \/
  (response_caches (registry w') !! client_id = None /\
   client_last_seen (registry w') !! client_id = None).
Proof.
  intros Hkeep Hl. cbv zeta.
  destruct (teardown_decision client_id start_time w)
    as (_ & _ & waits & acts & _ & _ & _ & Ha1 & Ha2 & Ha3).
  set (held := other_connections (S (ticks w)) (seen w)) in *.
  assert (Hheld : response_caches held !! client_id = Some l).
  { subst held. unfold seen. by rewrite !Hkeep. }
  destruct (client_last_seen held !! client_id) as [ls|] eqn:Hs.
  - destruct (Z_le_gt_dec ls start_time) as [Hle|Hgt].
    + destruct (Ha3 ls eq_refl Hle) as [-> _]. right. cbn.
      by rewrite !lookup_delete_eq.
    + destruct (Ha2 ls eq_refl Hgt) as (_ & -> & _). by left.
  - destruct (Ha1 eq_refl) as (_ & -> & _). by left.
Qed.

(** X20.  The lookup of [response_caches[client_id]] at the start of a
    connection makes the client's cache object when the client has none,
    and returns the reference on record otherwise.  As long as the other
    connections leave the client's entry in place, the entry names that
    object after the lookup, after the loop and the [except] block of the
    connection, and after its [finally] block unless that removed the
    session; the [finally] block changes no cache object.  A later
    connection that finds the entry, and the cache objects as the loop left
    them, gets the reference to the same object from its own lookup, which
    makes no new object, and a cacheable request whose response the earlier
    loop left in the cache is answered from it. *)
Theorem connections_of_a_client_share_one_cache
    (client_id : string) (items : list QueueItem) (start_time : Z) (w : W) :
  (forall n r, response_caches (other_connections n r) !! client_id
               = response_caches r !! client_id) ->
  exists rc,
    fst (get_response_cache_ client_id w) = Returned rc /\
    let w1 := snd (get_response_cache_ client_id w) in
    let w2 := snd (try_except (dispatch_loop_ client_id rc items)
                              (on_exception_ rc)
                              (set_reconnect_enabled Backend true w1)) in
    let w3 := snd (teardown_ client_id start_time w2) in
    (response_caches (registry w) !! client_id = None ->
     rc = length (objects w) /\ objects w1 = objects w ++ [empty_cache]) /\
    (forall l, response_caches (registry w) !! client_id = Some l ->
               rc = l /\ objects w1 = objects w) /\
    response_caches (registry w1) !! client_id = Some rc /\
    response_caches (registry w2) !! client_id = Some rc /\
    objects w3 = objects w2 /\
    (response_caches (registry w3) !! client_id = Some rc \/
     (response_caches (registry w3) !! client_id = None /\
      client_last_seen (registry w3) !! client_id = None)) /\
    forall later : W,
      response_caches (registry later) !! client_id = Some rc ->
      objects later = objects w2 ->
      let later' := set_reconnect_enabled Backend true
                      (snd (get_response_cache_ client_id later)) in
      fst (get_response_cache_ client_id later) = Returned rc /\
      objects later' = objects w2 /\
      forall (req : DataRequest) (resp : DataResponse),
        _should_cache req = true ->
        check_cache (deref rc w2) (req_id req) = CacheHit resp ->
        handle_item_ client_id rc (QRequest req) later'
          = (Returned tt,
             log_event (EYield resp)
               (log_event (ECheckCache (req_id req)) later')).
Proof.
  intros Hkeep.
  assert (Hseen : forall w' : W,
            response_caches (seen w') !! client_id
            = response_caches (registry w') !! client_id).
  { intros w'. unfold seen. apply Hkeep. }
  assert (Hfirst : exists rc,
            fst (get_response_cache_ client_id w) = Returned rc /\
            (response_caches (registry w) !! client_id = None ->
             rc = length (objects w) /\
             objects (snd (get_response_cache_ client_id w))
               = objects w ++ [empty_cache]) /\
            (forall l, response_caches (registry w) !! client_id = Some l ->
               rc = l /\
               objects (snd (get_response_cache_ client_id w)) = objects w) /\
            response_caches
              (registry (snd (get_response_cache_ client_id w))) !! client_id
              = Some rc).
  { rewrite get_response_cache_run, <- Hseen.
    destruct (response_caches (seen w) !! client_id) as [l|] eqn:Hl;
      cbn [fst snd].
    - exists l. split; [done|]. split; [done|].
      split; [by intros ? [= <-]|]. exact Hl.
    - exists (length (objects w)). split; [done|]. split; [done|].
      split; [done|]. cbn. by rewrite lookup_insert_eq. }
  destruct Hfirst as (rc & Hret & Hnew & Hold & H1).
  exists rc. split; [exact Hret|]. cbv zeta.
  set (w1 := snd (get_response_cache_ client_id w)) in *. clearbody w1.
  split; [exact Hnew|]. split; [exact Hold|]. split; [exact H1|].
  pose proof (loop_keeps_response_cache client_id rc rc items
                (set_reconnect_enabled Backend true w1) Hkeep H1) as H2.
  set (w2 := snd (try_except _ _ _)) in *. clearbody w2.
  split; [exact H2|]. split; [apply teardown_objects|].
  split; [by apply teardown_keeps_response_cache|].
  intros later Hl Ho.
  rewrite (get_response_cache_known client_id rc later)
    by (by rewrite Hseen).
  cbn [fst snd]. split; [done|]. split; [exact Ho|].
  intros req resp Hc Hhit. apply handle_item_hit; [done|done|].
  assert (Hd : deref rc (set_reconnect_enabled Backend true (interleaved later))
               = deref rc w2).
  { unfold deref. cbn. by rewrite Ho. }
  by rewrite Hd.
Qed.

(** *** The lock *)

Section Keeps.

Variable R : W -> W -> Prop.
Hypothesis R_refl : forall w, R w w.
Hypothesis R_trans : forall w1 w2 w3, R w1 w2 -> R w2 w3 -> R w1 w3.

Lemma keeps_ret {A} (a : A) w : keeps R (ret a) w.
Proof. apply R_refl. Qed.

Lemma keeps_raise {A} e w : keeps R (raise (A:=A) e) w.
Proof. apply R_refl. Qed.

Lemma keeps_bind {A B} (m : M Backend A) (k : A -> M Backend B) w :
  keeps R m w ->
  (forall a, fst (m w) = Returned a -> keeps R (k a) (snd (m w))) ->
  keeps R (bind m k) w.
Proof.
  unfold keeps, bind. intros Hm Hk.
  destruct (m w) as [[a|e] w1]; cbn in *; [|exact Hm].
  eapply R_trans; [exact Hm|]. by apply Hk.
Qed.

Lemma keeps_bind_gets {A B} (f : W -> A) (k : A -> M Backend B) w :
  keeps R (k (f w)) w -> keeps R (bind (gets f) k) w.
Proof. intros H. exact H. Qed.

Lemma keeps_finally {A} (m : M Backend A) fin w :
  keeps R m w -> keeps R fin (snd (m w)) -> keeps R (finally m fin) w.
Proof.
  unfold keeps, finally. intros Hm Hf.
  destruct (m w) as [r w1]; cbn in *. by eapply R_trans.
Qed.

Lemma keeps_try_except (m : M Backend unit) handler w :
  keeps R m w ->
  (forall e, keeps R (handler e) (snd (m w))) ->
  keeps R (try_except m handler) w.
Proof.
  unfold keeps, try_except. intros Hm Hh.
  destruct (m w) as [[a|e] w1]; cbn in *; [exact Hm|].
  eapply R_trans; [exact Hm|]. apply Hh.
Qed.

End Keeps.

Lemma lock_trace_app (held : bool) (evs1 evs2 : list Event) :
  lock_trace held (evs1 ++ evs2)
    = match lock_trace held evs1 with
      | Some held' => lock_trace held' evs2
      | None => None
      end.
Proof.
  revert held. induction evs1 as [|e evs1 IH]; intros held; [done|].
  destruct e; cbn; try apply IH; destruct held; try done; apply IH.
Qed.

Lemma lock_trace_untouched (held : bool) (evs : list Event) :
  Forall (fun e => lock_event e = false) evs -> lock_trace held evs = Some held.
Proof.
  induction 1 as [|e evs He _ IH]; [done|].
  destruct e; try discriminate He; exact IH.
Qed.

Lemma lock_in_turn_refl (w : W) : lock_in_turn w w.
Proof. exists []. by rewrite app_nil_r. Qed.

Lemma lock_in_turn_trans (w1 w2 w3 : W) :
  lock_in_turn w1 w2 -> lock_in_turn w2 w3 -> lock_in_turn w1 w3.
Proof.
  intros (evs1 & Ht1 & Hl1) (evs2 & Ht2 & Hl2). exists (evs1 ++ evs2).
  split; [by rewrite Ht2, Ht1, app_assoc|]. by rewrite lock_trace_app, Hl1.
Qed.

Lemma lock_untouched_refl (w : W) : lock_untouched w w.
Proof. exists []. by rewrite app_nil_r. Qed.

Lemma lock_untouched_trans (w1 w2 w3 : W) :
  lock_untouched w1 w2 -> lock_untouched w2 w3 -> lock_untouched w1 w3.
Proof.
  intros (evs1 & Ht1 & Hl1) (evs2 & Ht2 & Hl2). exists (evs1 ++ evs2).
  split; [by rewrite Ht2, Ht1, app_assoc|]. by apply Forall_app.
Qed.

Lemma lock_untouched_in_turn (w w' : W) :
  lock_untouched w w' -> lock_in_turn w w'.
Proof.
  intros (evs & Ht & Hf). exists evs. split; [done|].
  by apply lock_trace_untouched.
Qed.

Lemma lock_untouched_modify (f : W -> W) (w : W) :
  trace (f w) = trace w -> keeps lock_untouched (modify f) w.
Proof. intros Ht. exists []. cbn. by rewrite Ht, app_nil_r. Qed.

Lemma lock_untouched_emit (e : Event) (w : W) :
  lock_event e = false -> keeps lock_untouched (emit e) w.
Proof. intros He. exists [e]. split; [done|]. by repeat constructor. Qed.

Lemma lock_untouched_call_backend {A} c (f : Backend -> Outcome A * Backend)
    (w : W) :
  keeps lock_untouched (call_backend Backend c f) w.
Proof.
  unfold keeps. rewrite call_backend_run. exists [EBackend c].
  split; [done|]. by repeat constructor.
Qed.

Lemma lock_untouched_release_each (client_id : string) (ids : list string)
    (w : W) :
  keeps lock_untouched (release_each_ client_id ids) w.
Proof.
  destruct (release_each_run client_id ids w) as (n & _ & Ht & _).
  eexists. split; [exact Ht|]. apply Forall_fmap, Forall_forall. done.
Qed.

(** A [with self.clients_lock:] block whose body has no lock event of its
    own takes the lock once and gives it back. *)
Lemma lock_in_turn_with_lock {A} (m : M Backend A) (w : W) :
  (forall w1, keeps lock_untouched m w1) ->
  keeps lock_in_turn (with_clients_lock Backend other_connections m) w.
Proof.
  intros Hm. unfold keeps. rewrite with_clients_lock_run. cbn [snd].
  destruct (Hm (locked w)) as (evs & Ht & Hf).
  exists ([EAcquire] ++ evs ++ [ERelease]). split.
  - cbn. rewrite Ht. cbn. by rewrite <- !app_assoc.
  - cbn. rewrite lock_trace_app, (lock_trace_untouched _ _ Hf). done.
Qed.

Ltac lock_steps :=
  repeat first
    [ apply (keeps_ret lock_in_turn lock_in_turn_refl)
    | apply (keeps_raise lock_in_turn lock_in_turn_refl)
    | apply lock_untouched_in_turn, lock_untouched_call_backend
    | apply lock_untouched_in_turn, lock_untouched_release_each
    | (apply lock_untouched_in_turn, lock_untouched_emit; reflexivity)
    | (apply lock_untouched_in_turn, lock_untouched_modify; reflexivity)
    | (apply lock_in_turn_with_lock; intros ?;
       repeat first
         [ apply (keeps_ret lock_untouched lock_untouched_refl)
         | apply lock_untouched_call_backend
         | (apply lock_untouched_modify; reflexivity)
         | apply keeps_bind_gets
         | (apply (keeps_bind lock_untouched lock_untouched_trans);
            [|intros ? ?])
         | case_bool_decide
         | case_match ])
    | apply keeps_bind_gets
    | (apply (keeps_bind lock_in_turn lock_in_turn_trans); [|intros ? ?])
    | case_bool_decide
    | case_match ].

Lemma lock_in_turn_dispatch (client_id : string) (rc : nat)
    (req : DataRequest) (w : W) :
  keeps lock_in_turn (dispatch_ client_id rc req) w.
Proof.
  unfold dispatch, _build_connection_response, assign. lock_steps.
Qed.

Lemma lock_in_turn_handle_item (client_id : string) (rc : nat)
    (item : QueueItem) (w : W) :
  keeps lock_in_turn (handle_item_ client_id rc item) w.
Proof.
  destruct item as [req|resp]; cbn [handle_item]; unfold assign;
    [|lock_steps].
  apply keeps_bind_gets.
  apply (keeps_bind lock_in_turn lock_in_turn_trans); [lock_steps|].
  intros replayed _. destruct replayed; [lock_steps|].
  apply (keeps_bind lock_in_turn lock_in_turn_trans);
    [apply lock_in_turn_dispatch|].
  intros [b|] _; lock_steps.
Qed.

Lemma lock_in_turn_dispatch_loop (client_id : string) (rc : nat)
    (items : list QueueItem) (w : W) :
  keeps lock_in_turn (dispatch_loop_ client_id rc items) w.
Proof.
  revert w. induction items as [|item items IH]; intros w;
    cbn [dispatch_loop]; [lock_steps|].
  apply (keeps_bind lock_in_turn lock_in_turn_trans);
    [apply lock_in_turn_handle_item|]. intros _ _. apply IH.
Qed.

Lemma lock_in_turn_on_exception (rc : nat) (e : Fault) (w : W) :
  keeps lock_in_turn (on_exception_ rc e) w.
Proof.
  unfold on_exception, assign, context_set_code. apply keeps_bind_gets.
  destruct (_propagate_error_in_context e (context w)) as [rec ctx'].
  apply (keeps_bind lock_in_turn lock_in_turn_trans); [lock_steps|].
  intros _ _.
  apply (keeps_bind lock_in_turn lock_in_turn_trans); [lock_steps|].
  intros _ _. apply keeps_bind_gets.
  destruct (invalidate cache_refuses _ e) as [c' inv]. lock_steps.
Qed.

Lemma lock_in_turn_init (client_id : string) (start_time : Z) (w : W) :
  keeps lock_in_turn (init_ client_id start_time) w.
Proof.
  destruct (init_cases client_id start_time w) as (_ & _ & Ht & _).
  by exists [EAcquire; ERelease].
Qed.

Lemma lock_in_turn_get_response_cache (client_id : string) (w : W) :
  keeps lock_in_turn (get_response_cache_ client_id) w.
Proof.
  unfold keeps. rewrite get_response_cache_run. exists [].
  destruct (response_caches (seen w) !! client_id); cbn;
    by rewrite app_nil_r.
Qed.

Lemma lock_in_turn_teardown (client_id : string) (start_time : Z) (w : W) :
  keeps lock_in_turn (teardown_ client_id start_time) w.
Proof.
  destruct (teardown_summary client_id start_time w)
    as (waits & acts & Htr & Hwaits & Hacts).
  eexists. split; [exact Htr|].
  destruct Hwaits as [->|(d & -> & _)];
    destruct Hacts as [->|[->|[-> _]]]; reflexivity.
Qed.

Lemma lock_in_turn_Datapath (request_queue : list (option QueueItem))
    (start_time : Z) (w : W) :
  keeps lock_in_turn (Datapath_ request_queue start_time) w.
Proof.
  unfold Datapath.
  apply (keeps_bind lock_in_turn lock_in_turn_trans); [lock_steps|].
  intros _ _. apply keeps_bind_gets.
  destruct (metadata_dict _ !! "client_id") as [client_id|]; [|lock_steps].
  apply (keeps_bind lock_in_turn lock_in_turn_trans);
    [apply lock_in_turn_init|]. intros accepted _.
  apply (keeps_bind lock_in_turn lock_in_turn_trans);
    [apply lock_in_turn_get_response_cache|]. intros rc _.
  apply (keeps_bind lock_in_turn lock_in_turn_trans); [lock_steps|].
  intros _ _. destruct accepted; cbn [negb]; [|lock_steps].
  apply (keeps_finally lock_in_turn lock_in_turn_trans);
    [|apply lock_in_turn_teardown].
  apply (keeps_try_except lock_in_turn lock_in_turn_trans);
    [apply lock_in_turn_dispatch_loop|].
  intros e. apply lock_in_turn_on_exception.
Qed.

(** X21.  In every run of [Datapath] the events of [clients_lock]
    alternate, an acquisition first and a release last: the handler never
    asks for the lock while it holds it (the lock is not reentrant, so that
    would block it for good), and never returns holding it, also when a
    backend capability called under the lock raises. *)
Theorem lock_taken_and_released_in_turn
    (request_queue : list (option QueueItem)) (start_time : Z) (w : W) :
  lock_trace false
    (new_events w (snd (Datapath_ request_queue start_time w)))
    = Some false.
Proof.
  destruct (lock_in_turn_Datapath request_queue start_time w)
    as (evs & Ht & Hl).
  by rewrite (new_events_app _ _ _ Ht).
Qed.

(** *** More invariants and single requests *)

(** X22.  The counter of clients never passes the threshold
    [int(CLIENT_SERVER_MAX_THREADS / 2)]: if it is at or below the threshold
    before a run of [Datapath], and the other connections keep it there,
    it is at or below the threshold when the run returns, whatever the
    queue held.  [_init] admits a new client only below the threshold. *)
Theorem counter_of_clients_stays_within_threshold
    (request_queue : list (option QueueItem)) (start_time : Z) (w : W) :
  (forall n r, num_clients r <= thr ->
               num_clients (other_connections n r) <= thr) ->
  num_clients (registry w) <= thr ->
  num_clients (registry (snd (Datapath_ request_queue start_time w))) <= thr.
Proof.
  intros Hother.
  apply (Datapath_keeps_registry (fun r => num_clients r <= thr));
    try done; cbn; intros; lia.
Qed.

(** X23.  The grace period of an init request is recorded only after the
    backend's [Init] has returned: when [Init] raises, the dispatch ends
    with that fault right after the call, without taking the lock, and the
    registry and the handler's flags are as before. *)
Theorem init_fault_records_no_grace_period
    (client_id : string) (rc : nat) (req : DataRequest) (w : W) (e : Fault) :
  WhichOneof req = Some "init" ->
  fst (Init basic_service (init_reconnect_grace_period req)
            (init_job_config req) (backend w)) = Raised e ->
  let w' := snd (dispatch_ client_id rc req w) in
  fst (dispatch_ client_id rc req w) = Raised e /\
  trace w' = trace w ++ [EBackend CallInit] /\
  registry w' = registry w /\
  ticks w' = ticks w /\
  reconnect_enabled w' = reconnect_enabled w /\
  objects w' = objects w.
Proof.
  intros Hty Hinit. unfold dispatch. rewrite Hty.
  rewrite bool_decide_eq_true_2 by done.
  unfold bind. rewrite call_backend_run.
  destruct (Init basic_service _ _ (backend w)) as [[r|e'] b];
    cbn [fst snd] in *; [discriminate|].
  injection Hinit as ->. cbn. done.
Qed.

(** X24.  A get or a put request makes one call of the backend, the one
    for its kind (an asynchronous get passes the request id along), and
    nothing else: no lock is taken, and the registry and the cache objects
    are not touched. *)
Theorem get_and_put_call_backend_once
    (client_id : string) (rc : nat) (req : DataRequest) (w : W) :
  WhichOneof req = Some "get" \/ WhichOneof req = Some "put" ->
  let w' := snd (dispatch_ client_id rc req w) in
  trace w'
    = trace w
      ++ [EBackend
            (if bool_decide (WhichOneof req = Some "put")
             then CallPutObject client_id
             else if get_asynchronous req
                  then CallAsyncGetObject client_id (req_id req)
                  else CallGetObject client_id)] /\
  registry w' = registry w /\
  objects w' = objects w /\
  clients_lock w' = clients_lock w.
Proof.
  intros [Hty|Hty]; unfold dispatch; rewrite Hty.
  - rewrite (bool_decide_eq_false_2 (Some "get" = Some "init")) by done.
    rewrite (bool_decide_eq_false_2 (Some "get" = Some "put")) by done.
    rewrite (bool_decide_eq_true_2 (Some "get" = Some "get")) by done.
    destruct (get_asynchronous req); unfold bind; rewrite call_backend_run.
    + by destruct (_async_get_object basic_service _ _ _ _) as [[[g|]|e] b].
    + by destruct (_get_object basic_service _ _ _) as [[g|e] b].
  - rewrite (bool_decide_eq_false_2 (Some "put" = Some "init")) by done.
    rewrite (bool_decide_eq_false_2 (Some "put" = Some "get")) by done.
    rewrite (bool_decide_eq_true_2 (Some "put" = Some "put")) by done.
    unfold bind. rewrite call_backend_run.
    by destruct (_put_object basic_service _ _ _) as [[g|e] b].
Qed.


End Properties.

(** * Runs on sample inputs *)

Lemma C1_witness :
  exists w_fin : World nat,
    Datapath nat Sample.service 100 Sample.propagate Sample.never_refuses
             Sample.alone
             [Some (QRequest (mkReq 1 req_connection_cleanup)); None] 7
             Sample.fresh
      = (Returned tt,
         snd (teardown nat Sample.service Sample.alone "c1" 7 w_fin)).
Proof.
  destruct (C1_teardown_decides_cleanup nat Sample.service 100 Sample.propagate
              Sample.never_refuses Sample.alone
              [Some (QRequest (mkReq 1 req_connection_cleanup)); None] 7
              Sample.fresh "c1" eq_refl eq_refl) as [w_fin [Hrun _]].
  exists w_fin. exact Hrun.
Defined.

(** C1 as stated fails when cleanup was requested and the client has
    reconnected meanwhile: [c1] asks for cleanup on the connection that
    started at time 7, while another connection of [c1] is accepted at time
    99.  The handler does not wait, and does not clean up either: no
    [release_all], and the session entries and the counter stay. *)
Lemma C1_counterexample :
  let w' := snd (Datapath nat Sample.service 100 Sample.propagate
                   Sample.never_refuses Sample.reconnects
                   [Some (QRequest (mkReq 1 req_connection_cleanup)); None] 7
                   Sample.serving) in
  cleanup_requested w' = true /\
  trace w' = [EAcquire; ERelease;
              EYield (mkResp 1 connection_cleanup_resp);
              EJoin 10; EAcquire; ERelease] /\
  client_last_seen (registry w') !! "c1" = Some 99 /\
  reconnect_grace_periods (registry w') !! "c1" = Some 30 /\
  response_caches (registry w') !! "c1" = Some 0%nat /\
  num_clients (registry w') = 1.
Proof. repeat split; reflexivity. Qed.

Lemma C3_witness :
  fst (_init nat 100 Sample.alone "c1" 7 Sample.fresh) = Returned true <->
  num_clients (seen nat Sample.alone Sample.fresh) < threshold 100.
Proof.
  exact (proj1 (C3_new_client_admitted_below_threshold nat 100 Sample.alone
                  Sample.fresh "c1" 7 eq_refl)).
Defined.

Lemma C4_witness :
  fst (_init nat 100 Sample.alone "c1" 9 Sample.returning) = Returned true /\
  client_last_seen
    (registry (snd (_init nat 100 Sample.alone "c1" 9 Sample.returning)))
    = <["c1" := 9]> (client_last_seen (seen nat Sample.alone Sample.returning)) /\
  num_clients
    (registry (snd (_init nat 100 Sample.alone "c1" 9 Sample.returning)))
    = num_clients (seen nat Sample.alone Sample.returning).
Proof.
  destruct (C4_reconnecting_below_threshold nat 100 Sample.alone
              Sample.returning "c1" 9 eq_refl eq_refl) as [_ Hknown].
  destruct (Hknown (ex_intro _ 5 eq_refl)) as (H1 & H2 & _ & H4).
  exact (conj H1 (conj H2 H4)).
Defined.

(** C4 as stated fails when the threshold is reached: with a budget of two
    threads the threshold is one client, and the reconnecting client [c1],
    whose session entry exists, is refused with RESOURCE_EXHAUSTED; its
    last-seen time stays 5 instead of becoming the start time 9. *)
Lemma C4_counterexample :
  _get_reconnecting_from_context (context Sample.returning) = true /\
  client_last_seen (registry Sample.returning) !! "c1" = Some 5 /\
  fst (_init nat 2 Sample.alone "c1" 9 Sample.returning) <> Returned true /\
  fst (_init nat 2 Sample.alone "c1" 9 Sample.returning) = Returned false /\
  code (context (snd (_init nat 2 Sample.alone "c1" 9 Sample.returning)))
    = Some RESOURCE_EXHAUSTED /\
  client_last_seen
    (registry (snd (_init nat 2 Sample.alone "c1" 9 Sample.returning))) !! "c1"
    = Some 5.
Proof.
  split; [reflexivity|]. split; [reflexivity|]. split; [discriminate|].
  split; [reflexivity|]. split; reflexivity.
Qed.

Lemma C9_witness :
  fst (_init nat 2 Sample.alone "c1" 9 Sample.returning) = Returned false /\
  code (context (snd (_init nat 2 Sample.alone "c1" 9 Sample.returning)))
    = Some RESOURCE_EXHAUSTED.
Proof.
  destruct (C9_threshold_checked_before_reconnecting nat 2 Sample.alone
              Sample.returning "c1" 9) as (H1 & H2 & _).
  - vm_compute. discriminate.
  - exact (conj H1 H2).
Defined.

Lemma C10_witness :
  trace (snd (Datapath nat Sample.service 100 Sample.propagate
                Sample.never_refuses Sample.alone
                [Some (QRequest (mkReq 1 (req_put "x"))); None] 7
                Sample.anonymous))
    = [].
Proof.
  refine (proj1 (proj2 (C10_no_client_id_returns_immediately nat Sample.service
            100 Sample.propagate Sample.never_refuses Sample.alone
            [Some (QRequest (mkReq 1 (req_put "x"))); None] 7
            Sample.anonymous _))).
  intros v Hin. apply elem_of_cons in Hin as [Hin|Hin]; [discriminate Hin|].
  by apply elem_of_nil in Hin.
Defined.

Lemma C8_witness :
  new_events nat Sample.serving
    (snd (handle_item nat Sample.service Sample.alone "c1" 0
            (QRequest (mkReq 3 (req_acknowledge 2))) Sample.serving))
    = [ECleanupCache 2].
Proof.
  exact (proj1 (proj2 (C8_acknowledge_only_cleans_cache nat Sample.service
           Sample.alone "c1" 0 (mkReq 3 (req_acknowledge 2)) Sample.serving
           eq_refl))).
Defined.

Lemma C5_witness :
  num_clients
    (registry
       (snd (Datapath nat Sample.service 100 Sample.propagate
               Sample.never_refuses Sample.alone
               [Some (QRequest (mkReq 1 req_connection_cleanup)); None] 7
               Sample.fresh)))
    = 0.
Proof.
  refine (proj1 (proj2 (proj2 (C5_shutdown_only_locked_at_zero nat
            Sample.service 100 Sample.propagate Sample.never_refuses
            Sample.alone
            [Some (QRequest (mkReq 1 req_connection_cleanup)); None] 7
            Sample.fresh true 0 _)))).
  apply list_elem_of_In. vm_compute. auto 10.
Defined.

Lemma C6_witness :
  reconnect_grace_periods
    (registry
       (snd (handle_item nat Sample.service Sample.alone "c1" 0
               (QRequest (mkReq 1 (req_init 0 "job"))) Sample.serving)))
    !! "c1" = Some 0 /\
  reconnect_enabled
    (snd (handle_item nat Sample.service Sample.alone "c1" 0
            (QRequest (mkReq 1 (req_init 0 "job"))) Sample.serving))
    = false.
Proof.
  destruct (C6_init_records_grace_period nat Sample.service Sample.alone "c1"
              0 (mkReq 1 (req_init 0 "job")) Sample.serving eq_refl
              (fun _ => eq_refl) eq_refl) as [Hgrace Hzero].
  split; [exact Hgrace|]. exact (proj1 (Hzero eq_refl)).
Defined.

(** C6 as stated fails for the rest of the session: [c1] asks for a grace
    period of 0 on one connection, whose loop records it and turns its own
    flag off.  While the session lasts [c1] opens another connection, at
    time 9; [Datapath] starts it with [reconnect_enabled = True], and its
    put request is looked up in the cache of [c1] and stored into it,
    although the grace period on record is 0. *)
Lemma C6_counterexample :
  let w1 := snd (dispatch_loop nat Sample.service Sample.alone "c1" 0
                   [QRequest (mkReq 1 (req_init 0 "job"))] Sample.serving) in
  let w2 := snd (Datapath nat Sample.service 100 Sample.propagate
                   Sample.never_refuses Sample.alone
                   [Some (QRequest (mkReq 2 (req_put "x"))); None] 9
                   (set_context nat
                      (Sample.ctx_of [("client_id", "c1");
                                      ("reconnecting", "True")]) w1)) in
  reconnect_grace_periods (registry w1) !! "c1" = Some 0 /\
  reconnect_enabled w1 = false /\
  client_last_seen (registry w1) !! "c1" = Some 5 /\
  response_caches (registry w1) !! "c1" = Some 0%nat /\
  new_events nat w1 w2
    = [EAcquire; ERelease; ECheckCache 2; EBackend (CallPutObject "c1");
       EUpdateCache 2; EYield (mkResp 2 (put_resp "x"));
       EJoin 10; EWait 0; EAcquire; EBackend (CallReleaseAll "c1");
       EShutdown true 0; ERelease] /\
  entries (deref 0 w2) !! 2 = Some (mkResp 2 (put_resp "x")).
Proof. repeat split; reflexivity. Qed.


Lemma C2_witness :
  let w1 := snd (handle_item nat Sample.service Sample.alone "c1" 0
                   (QRequest (mkReq 2 (req_put "x"))) Sample.serving) in
  let w2 := snd (dispatch_loop nat Sample.service Sample.alone "c1" 0
                   [QRequest (mkReq 3 (req_put "y"));
                    QRequest (mkReq 4 (req_acknowledge 1))] w1) in
  exists resp evs,
    new_events nat Sample.serving w1 = evs ++ [EYield resp] /\
    handle_item nat Sample.service Sample.alone "c1" 0
      (QRequest (mkReq 2 (req_put "x"))) w2
      = (Returned tt, log_event (EYield resp) (log_event (ECheckCache 2) w2)).
Proof.
  cbv zeta.
  destruct (proj1 (C2_cacheable_replayed_uncacheable_dispatched nat
              Sample.service Sample.alone "c1" 0 (mkReq 2 (req_put "x"))
              Sample.serving) eq_refl eq_refl) as (resp & evs & Hev & Hreplay).
  - vm_compute. lia.
  - reflexivity.
  - reflexivity.
  - exists resp, evs. split; [exact Hev|].
    refine (proj1 (proj2 (Hreplay [QRequest (mkReq 3 (req_put "y"));
                                   QRequest (mkReq 4 (req_acknowledge 1))]
                            (mkReq 2 (req_put "x")) _ eq_refl eq_refl))
              eq_refl).
    intros ack Hin Hty. apply list_elem_of_In in Hin.
    destruct Hin as [[= <-]|[[= <-]|[]]]; [discriminate Hty|].
    vm_compute. discriminate.
Defined.

(** The grace period at work: [c1] drops its connection without asking for
    cleanup, and comes back at time 99 during the wait.  The handler of the
    dropped connection waits for the 30 seconds on record, finds a last-seen
    time later than its own start, and leaves the session alone. *)
Example teardown_skipped_after_reconnect :
  let w' := snd (Datapath nat Sample.service 100 Sample.propagate
                   Sample.never_refuses Sample.reconnects [None] 7
                   Sample.serving) in
  trace w' = [EAcquire; ERelease; EJoin 10; EWait 30; EAcquire; ERelease] /\
  client_last_seen (registry w') !! "c1" = Some 99 /\
  num_clients (registry w') = 1.
Proof. repeat split; reflexivity. Qed.

(** The same connection when nobody comes back: after the wait the session
    is removed, and the backend is shut down since no client is left. *)
Example teardown_cleans_after_grace_period :
  let w' := snd (Datapath nat Sample.service 100 Sample.propagate
                   Sample.never_refuses Sample.alone [None] 7
                   Sample.serving) in
  trace w' = [EAcquire; ERelease; EJoin 10; EWait 30; EAcquire;
              EBackend (CallReleaseAll "c1"); EShutdown true 0; ERelease] /\
  client_last_seen (registry w') !! "c1" = None /\
  num_clients (registry w') = 0.
Proof. repeat split; reflexivity. Qed.

(** A request with no type set: the loop ends with the "unreachable code"
    fault, the cache is invalidated, the stream gets FAILED_PRECONDITION,
    and the session is cleaned up at once although a grace period of 30
    seconds is on record. *)
Example unrecognized_request_forces_cleanup :
  let w' := snd (Datapath nat Sample.service 100 Sample.propagate
                   Sample.never_refuses Sample.alone
                   [Some (QRequest (mkReq 4 Unset)); None] 7
                   Sample.serving) in
  trace w' = [EAcquire; ERelease; ECheckCache 4;
              EInvalidate (UnreachableCode None);
              EJoin 10; EAcquire; EBackend (CallReleaseAll "c1");
              EShutdown true 0; ERelease] /\
  code (context w') = Some FAILED_PRECONDITION /\
  broken <$> (objects w' !! 0%nat) = Some (Some (UnreachableCode None)) /\
  client_last_seen (registry w') !! "c1" = None.
Proof. repeat split; reflexivity. Qed.

(** A retried [put]: the second delivery of request 2 is answered from the
    cache, and the backend served one call only. *)
Example retried_put_served_once :
  let w' := snd (dispatch_loop nat Sample.service Sample.alone "c1" 0
                   [QRequest (mkReq 2 (req_put "x"));
                    QRequest (mkReq 2 (req_put "x"))]
                   Sample.serving) in
  trace w' = [ECheckCache 2; EBackend (CallPutObject "c1"); EUpdateCache 2;
              EYield (mkResp 2 (put_resp "x"));
              ECheckCache 2; EYield (mkResp 2 (put_resp "x"))] /\
  backend w' = 1%nat.
Proof. repeat split; reflexivity. Qed.

(** A [put] retried after another request was served and an older one
    acknowledged: request 1 is answered from the cache, and the backend
    served the two puts once each. *)
Example retried_put_after_other_requests :
  let w' := snd (dispatch_loop nat Sample.service Sample.alone "c1" 0
                   [QRequest (mkReq 1 (req_put "x"));
                    QRequest (mkReq 2 (req_put "y"));
                    QRequest (mkReq 3 (req_acknowledge 0));
                    QRequest (mkReq 1 (req_put "x"))]
                   Sample.serving) in
  trace w' = [ECheckCache 1; EBackend (CallPutObject "c1"); EUpdateCache 1;
              EYield (mkResp 1 (put_resp "x"));
              ECheckCache 2; EBackend (CallPutObject "c1"); EUpdateCache 2;
              EYield (mkResp 2 (put_resp "y"));
              ECleanupCache 0;
              ECheckCache 1; EYield (mkResp 1 (put_resp "x"))] /\
  backend w' = 2%nat.
Proof. repeat split; reflexivity. Qed.

(** A repeated [get]: both deliveries reach the backend. *)
Example repeated_get_served_twice :
  let w' := snd (dispatch_loop nat Sample.service Sample.alone "c1" 0
                   [QRequest (mkReq 3 (req_get false ["o1"]));
                    QRequest (mkReq 3 (req_get false ["o1"]))]
                   Sample.serving) in
  trace w' = [EBackend (CallGetObject "c1");
              EYield (mkResp 3 (get_resp "object"));
              EBackend (CallGetObject "c1");
              EYield (mkResp 3 (get_resp "object"))] /\
  backend w' = 2%nat.
Proof. repeat split; reflexivity. Qed.

(** ** Further runs *)

(** A server at its threshold (one client, [c0], with a budget of two
    threads) to which another client, [c1], connects. *)
Definition full_house : World nat :=
  mkWorld (mkRegistry 1 {["c0" := 1]} ∅ {["c0" := 0%nat]}) [empty_cache] O
          false (Sample.ctx_of [("client_id", "c1")]) false true [] O.

Lemma init_accepted_effects_witness :
  client_last_seen
    (registry (snd (_init nat 100 Sample.alone "c1" 7 Sample.fresh)))
    = <["c1" := 7]>
        (client_last_seen (seen nat Sample.alone Sample.fresh)).
Proof.
  exact (proj1 (init_accepted_effects nat 100 Sample.alone "c1" 7
                  Sample.fresh eq_refl)).
Defined.

Lemma release_request_calls_backend_per_id_witness :
  exists n,
    trace (snd (dispatch nat Sample.service Sample.alone "c1" 0
                  (mkReq 6 (req_release ["a"; "b"])) Sample.serving))
      = trace Sample.serving
        ++ ((fun id => EBackend (CallRelease "c1" id)) <$> take n ["a"; "b"]).
Proof.
  destruct (release_request_calls_backend_per_id nat Sample.service
              Sample.alone "c1" 0 (mkReq 6 (req_release ["a"; "b"]))
              Sample.serving eq_refl) as (n & _ & Ht & _).
  exists n. exact Ht.
Defined.

Lemma no_response_only_for_acknowledge_or_pending_get_witness :
  WhichOneof (mkReq 3 (req_acknowledge 2)) = Some "acknowledge" \/
  (WhichOneof (mkReq 3 (req_acknowledge 2)) = Some "get" /\
   get_asynchronous (mkReq 3 (req_acknowledge 2)) = true).
Proof.
  apply (no_response_only_for_acknowledge_or_pending_get nat Sample.service
           Sample.alone "c1" 0 (mkReq 3 (req_acknowledge 2)) Sample.serving
           (snd (dispatch nat Sample.service Sample.alone "c1" 0
                   (mkReq 3 (req_acknowledge 2)) Sample.serving))).
  reflexivity.
Defined.

Lemma second_teardown_changes_nothing_witness :
  teardown_locked nat Sample.service "c1" 9
    (snd (teardown_locked nat Sample.service "c1" 7 Sample.serving))
    = (Returned tt,
       snd (teardown_locked nat Sample.service "c1" 7 Sample.serving)).
Proof.
  refine (proj2 (proj2 (second_teardown_changes_nothing nat Sample.service
                          "c1" 7 9 5 Sample.serving _ _)));
    [reflexivity|lia].
Defined.

Lemma accepted_connection_outlives_older_ones_witness :
  teardown_locked nat Sample.service "c1" 7
    (snd (_init nat 100 Sample.alone "c1" 9 Sample.returning))
    = (Returned tt, snd (_init nat 100 Sample.alone "c1" 9 Sample.returning)).
Proof.
  apply (accepted_connection_outlives_older_ones nat Sample.service 100
           Sample.alone "c1" 9 7 Sample.returning); [reflexivity|lia].
Defined.

Lemma refused_connection_leaves_cache_entry_witness :
  response_caches
    (registry (snd (Datapath nat Sample.service 2 Sample.propagate
                      Sample.never_refuses Sample.alone [None] 9 full_house)))
    !! "c1" = Some 1%nat.
Proof.
  refine (proj2 (proj2 (proj2 (proj2 (proj2
            (refused_connection_leaves_cache_entry nat Sample.service 2
               Sample.propagate Sample.never_refuses Sample.alone [None] 9
               full_house "c1" _ _)))) _)); reflexivity.
Defined.

Lemma cached_responses_keep_their_request_id_witness :
  Forall well_keyed
    (objects (snd (Datapath nat Sample.service 100 Sample.propagate
                     Sample.never_refuses Sample.alone
                     [Some (QRequest (mkReq 2 (req_put "x"))); None] 7
                     Sample.serving))).
Proof.
  apply cached_responses_keep_their_request_id.
  repeat constructor. apply well_keyed_empty.
Defined.

Lemma loop_writes_only_its_own_grace_period_witness :
  same_sessions "c1" (registry Sample.serving)
    (registry
       (snd (try_except
               (dispatch_loop nat Sample.service Sample.alone "c1" 0
                  [QRequest (mkReq 1 (req_init 5 "job"))])
               (on_exception nat Sample.propagate Sample.never_refuses 0)
               Sample.serving))).
Proof.
  apply loop_writes_only_its_own_grace_period. intros n r. reflexivity.
Defined.

Lemma responses_follow_queue_order_witness :
  (resp_req_id
     <$> yields
           (new_events nat Sample.serving
              (snd (dispatch_loop nat Sample.service Sample.alone "c1" 0
                      [QRequest (mkReq 2 (req_put "x"));
                       QRequest (mkReq 3 (req_acknowledge 2));
                       QRequest (mkReq 4 (req_get false ["o1"]))]
                      Sample.serving))))
    `sublist_of`
    (item_id
       <$> [QRequest (mkReq 2 (req_put "x"));
            QRequest (mkReq 3 (req_acknowledge 2));
            QRequest (mkReq 4 (req_get false ["o1"]))]).
Proof.
  apply responses_follow_queue_order. apply well_keyed_empty.
Defined.

Lemma lone_session_leaves_registry_as_found_witness :
  registry (snd (Datapath nat Sample.service 100 Sample.propagate
                   Sample.never_refuses Sample.alone
                   [Some (QRequest (mkReq 1 (req_init 30 "job")));
                    Some (QRequest (mkReq 2 (req_put "x"))); None] 7
                   Sample.fresh))
    = registry Sample.fresh.
Proof.
  apply (lone_session_leaves_registry_as_found nat Sample.service 100
           Sample.propagate Sample.never_refuses Sample.alone _ 7 Sample.fresh
           "c1"); reflexivity.
Defined.

Lemma connection_info_reports_counter_under_lock_witness :
  fst (dispatch nat Sample.service Sample.alone "c1" 0
         (mkReq 8 req_connection_info) Sample.serving)
    = Returned (Some (connection_info_resp
                        (num_clients (seen nat Sample.alone Sample.serving)))).
Proof.
  exact (proj1 (connection_info_reports_counter_under_lock nat Sample.service
                  Sample.alone "c1" 0 (mkReq 8 req_connection_info)
                  Sample.serving eq_refl)).
Defined.

Lemma prep_runtime_env_runs_under_lock_witness :
  trace (snd (dispatch nat Sample.service Sample.alone "c1" 0
                (mkReq 9 (req_prep_runtime_env "env")) Sample.serving))
    = trace Sample.serving
      ++ [EAcquire; EBackend CallPrepRuntimeEnv; ERelease].
Proof.
  exact (proj1 (prep_runtime_env_runs_under_lock nat Sample.service
                  Sample.alone "c1" 0 (mkReq 9 (req_prep_runtime_env "env"))
                  Sample.serving eq_refl)).
Defined.

Lemma cleanup_request_skips_grace_period_witness :
  cleanup_requested
    (snd (dispatch_loop nat Sample.service Sample.alone "c1" 0
            [QRequest (mkReq 1 (req_put "x"));
             QRequest (mkReq 2 req_connection_cleanup);
             QRequest (mkReq 3 (req_get false ["o1"]))]
            Sample.serving))
    = true.
Proof.
  refine (proj1 (cleanup_request_skips_grace_period nat Sample.service
                   Sample.alone "c1" 0 _ (mkReq 2 req_connection_cleanup) 7
                   Sample.serving _ _ _)); [|reflexivity|reflexivity].
  apply elem_of_cons. right. apply elem_of_cons. by left.
Defined.

Lemma connections_of_a_client_share_one_cache_witness :
  exists rc,
    fst (get_response_cache nat Sample.alone "c1" Sample.fresh) = Returned rc /\
    objects (snd (get_response_cache nat Sample.alone "c1" Sample.fresh))
      = objects Sample.fresh ++ [empty_cache] /\
    response_caches
      (registry
         (snd (try_except
                 (dispatch_loop nat Sample.service Sample.alone "c1" rc
                    [QRequest (mkReq 2 (req_put "x"))])
                 (on_exception nat Sample.propagate Sample.never_refuses rc)
                 (set_reconnect_enabled nat true
                    (snd (get_response_cache nat Sample.alone "c1"
                            Sample.fresh))))))
      !! "c1" = Some rc.
Proof.
  destruct (connections_of_a_client_share_one_cache nat Sample.service
              Sample.propagate Sample.never_refuses Sample.alone "c1"
              [QRequest (mkReq 2 (req_put "x"))] 7 Sample.fresh
              (fun n r => eq_refl))
    as (rc & Hret & Hnew & _ & _ & Hloop & _).
  exists rc. split; [exact Hret|]. split; [|exact Hloop].
  exact (proj2 (Hnew eq_refl)).
Defined.

Lemma counter_of_clients_stays_within_threshold_witness :
  num_clients
    (registry (snd (Datapath nat Sample.service 100 Sample.propagate
                      Sample.never_refuses Sample.alone
                      [Some (QRequest (mkReq 2 (req_put "x"))); None] 7
                      Sample.fresh)))
    <= threshold 100.
Proof.
  apply counter_of_clients_stays_within_threshold.
  - intros n r H. exact H.
  - vm_compute. discriminate.
Defined.

(** A backend whose [Init] is out of order. *)
Definition no_init : RayletServicer nat :=
  {| Init := fun _ _ b => (Raised (ServiceFault "down"), b);
     _get_object := _get_object Sample.service;
     _async_get_object := _async_get_object Sample.service;
     _put_object := _put_object Sample.service;
     release := release Sample.service;
     release_all := release_all Sample.service;
     PrepRuntimeEnv := PrepRuntimeEnv Sample.service;
     ray_shutdown := ray_shutdown Sample.service |}.

Lemma init_fault_records_no_grace_period_witness :
  fst (dispatch nat no_init Sample.alone "c1" 0
         (mkReq 1 (req_init 0 "job")) Sample.serving)
    = Raised (ServiceFault "down") /\
  registry (snd (dispatch nat no_init Sample.alone "c1" 0
                   (mkReq 1 (req_init 0 "job")) Sample.serving))
    = registry Sample.serving.
Proof.
  destruct (init_fault_records_no_grace_period nat no_init Sample.alone "c1" 0
              (mkReq 1 (req_init 0 "job")) Sample.serving
              (ServiceFault "down") eq_refl eq_refl) as (H1 & _ & H3 & _).
  exact (conj H1 H3).
Defined.

Lemma get_and_put_call_backend_once_witness :
  registry (snd (dispatch nat Sample.service Sample.alone "c1" 0
                   (mkReq 2 (req_put "x")) Sample.serving))
    = registry Sample.serving.
Proof.
  exact (proj1 (proj2 (get_and_put_call_backend_once nat Sample.service
                         Sample.alone "c1" 0 (mkReq 2 (req_put "x"))
                         Sample.serving (or_intror eq_refl)))).
Defined.

(** A server at its threshold refuses [c1], and is left with a cache object
    and a [response_caches] entry for it that no [finally] block will
    remove. *)
Example refused_client_keeps_a_cache :
  let w' := snd (Datapath nat Sample.service 2 Sample.propagate
                   Sample.never_refuses Sample.alone [None] 9 full_house) in
  code (context w') = Some RESOURCE_EXHAUSTED /\
  trace w' = [EAcquire; ERelease] /\
  objects w' = [empty_cache; empty_cache] /\
  response_caches (registry w') !! "c1" = Some 1%nat /\
  client_last_seen (registry w') !! "c1" = None /\
  num_clients (registry w') = 1.
Proof. repeat split; reflexivity. Qed.
